(** * ImagCDF C library: a shallow embedding and its checked properties

    The development follows the three C sources of the library:
    imcdf_utils.c (enumeration helpers), imcdf_low_level.c (all calls to the
    CDF library, the TT2000 helpers) and imcdf.c (the ImagCDF read and write
    routines).

    Conventions of the embedding:
    - C [int], [long] and [long long] values are [Z]; where the C code can
      leave the range of the type the wrap-around is written out ([wrap64]).
      [long] is 64 bits wide (LP64, the platform of the Makefile's gcc).
    - C strings are [string]; a nullable [char *] is [option string].
      Fixed-size character buffers are not given a capacity: a string is
      stored whatever its length, and a capacity is stated next to the
      theorem that is about it.
    - [double] values are [spec_float] at binary64 precision.
    - the static variables of imcdf_low_level.c (the table of open CDF
      identifiers, its fill index and the last CDF status) are the state of a
      small state monad [M].
    - heap allocation always succeeds, except for a negative element count.
    - a function with an [int] return code and one output parameter returns
      an [option]: [Some v] for return code 0 with [v] stored through the
      pointer, [None] for return code -1. *)

From Stdlib Require Import ZArith String Ascii List Bool Lia.
From Stdlib Require Import Floats.SpecFloat.
From stdpp Require Import base option list strings gmap fin_maps pretty.

Local Open Scope string_scope.
Local Open Scope list_scope.
Local Open Scope Z_scope.

(** ** <ctype.h> and <strings.h> in the C locale *)

Module Ctype.

Definition code (c : ascii) : Z := Z.of_N (N_of_ascii c).

Definition of_code (z : Z) : ascii := ascii_of_N (Z.to_N z).

Definition isupper (c : ascii) : bool := (65 <=? code c) && (code c <=? 90).

Definition islower (c : ascii) : bool := (97 <=? code c) && (code c <=? 122).

Definition isdigit (c : ascii) : bool := (48 <=? code c) && (code c <=? 57).

(** space, and the controls \t \n \v \f \r *)
Definition isspace (c : ascii) : bool :=
  (code c =? 32) || ((9 <=? code c) && (code c <=? 13)).

Definition toupper (c : ascii) : ascii :=
  if islower c then of_code (code c - 32) else c.

Definition tolower (c : ascii) : ascii :=
  if isupper c then of_code (code c + 32) else c.

(** [*s] for a C string: the terminating NUL for the empty string. *)
Definition deref (s : string) : ascii :=
  match s with
  | EmptyString => zero
  | String c _ => c
  end.

Fixpoint strmap (f : ascii -> ascii) (s : string) : string :=
  match s with
  | EmptyString => EmptyString
  | String c r => String (f c) (strmap f r)
  end.

(** [strcasecmp]: the difference of the first pair of bytes that differ
    after [tolower], 0 when there is none. *)
Fixpoint strcasecmp (a b : string) : Z :=
  match a, b with
  | EmptyString, EmptyString => 0
  | EmptyString, String y _ => 0 - code (tolower y)
  | String x _, EmptyString => code (tolower x)
  | String x a', String y b' =>
      if code (tolower x) =? code (tolower y) then strcasecmp a' b'
      else code (tolower x) - code (tolower y)
  end.

End Ctype.

Import Ctype.

(** ** imcdf.h: enumerations and structures *)

Inductive IMCDFPubLevel :=
  IMCDF_PUBLEVEL_1 | IMCDF_PUBLEVEL_2 | IMCDF_PUBLEVEL_3 | IMCDF_PUBLEVEL_4.

Inductive IMCDFStandardLevel :=
  IMCDF_STANDLEVEL_FULL | IMCDF_STANDLEVEL_PARTIAL | IMCDF_STANDLEVEL_NONE.

Inductive IMCDFVariableType :=
  | IMCDF_VARTYPE_GEOMAGNETIC_FIELD_ELEMENT
  | IMCDF_VARTYPE_TEMPERATURE
  | IMCDF_VARTYPE_ERROR.

(** Modelled from the spec: the enumeration of sampling and coverage
    intervals used by [imcdf_make_filename]; the header that declares it is
    not among the sources.  The six names are the case labels of the
    function; [IMCDF_INT_OTHER] stands for every other value of the C
    enumeration, which the [default] labels receive. *)
Inductive IMCDFInterval :=
  | IMCDF_INT_ANNUAL
  | IMCDF_INT_MONTHLY
  | IMCDF_INT_DAILY
  | IMCDF_INT_HOURLY
  | IMCDF_INT_MINUTE
  | IMCDF_INT_SECOND
  | IMCDF_INT_OTHER.

#[global] Instance IMCDFVariableType_eq_dec : EqDecision IMCDFVariableType.
Proof. solve_decision. Defined.

Definition VECTOR_TIME_STAMPS_VAR_NAME : string := "GeomagneticVectorTimes".
Definition SCALAR_TIME_STAMPS_VAR_NAME : string := "GeomagneticScalarTimes".

(** [sprintf (buf, TEMPERATURE_TIME_STAMPS_VAR_NAME_BASE, s)], the format
    being "Temperature%sTimes". *)
Definition TEMPERATURE_TIME_STAMPS_VAR_NAME_BASE (s : string) : string :=
  "Temperature" +:+ s +:+ "Times".

(** ** imcdf.c: classification of element codes *)

Definition imcdf_is_vector_gm_data (var_type : IMCDFVariableType) (elem_rec : string) : Z :=
  if decide (var_type <> IMCDF_VARTYPE_GEOMAGNETIC_FIELD_ELEMENT) then 0
  else
    match toupper (deref elem_rec) with
    | "X" | "Y" | "Z" | "H" | "D" | "E" | "V" | "I" | "F" => 1
    | _ => 0
    end%char.

Definition imcdf_is_scalar_gm_data (var_type : IMCDFVariableType) (elem_rec : string) : Z :=
  if decide (var_type <> IMCDF_VARTYPE_GEOMAGNETIC_FIELD_ELEMENT) then 0
  else
    match toupper (deref elem_rec) with
    | "S" | "G" => 1
    | _ => 0
    end%char.

(** The static tables of the data model. *)
Definition vector_codes : list ascii :=
  ["X"; "Y"; "Z"; "H"; "D"; "E"; "V"; "I"; "F"]%char.

Definition scalar_codes : list ascii := ["S"; "G"]%char.

Definition one_char (c : ascii) : string := String c EmptyString.

(** ** C [double] arithmetic and <stdlib.h> [strtod] *)

Module Double.

Definition prec : Z := 53.
Definition emax : Z := 1024.

Definition double : Type := spec_float.

Definition mul : double -> double -> double := SFmul prec emax.
Definition add : double -> double -> double := SFadd prec emax.
Definition div : double -> double -> double := SFdiv prec emax.
Definition opp : double -> double := SFopp.

(** The double nearest to [m * 2^e] (ties to even). *)
Definition of_scaled (m e : Z) : double := binary_normalize prec emax m e false.

(** Conversion of an integer to [double]. *)
Definition of_Z (z : Z) : double := of_scaled z 0.

Definition ten : double := of_Z 10.
Definition half : double := of_scaled 1 (-1).

Definition INT_MIN : Z := - 2 ^ 31.
Definition INT_MAX : Z := 2 ^ 31 - 1.

(** The cast [(int) x]: truncation toward zero.  For a NaN, an infinity
    or a value outside the range of [int] the C standard leaves the
    result undefined; the model takes the result of the x86-64
    conversion instruction, [INT_MIN]. *)
Definition to_int (x : double) : Z :=
  match x with
  | S754_zero _ => 0
  | S754_finite s m e =>
      let t := Z.shiftl (Zpos m) e in
      let v := if s then - t else t in
      if (INT_MIN <=? v) && (v <=? INT_MAX) then v else INT_MIN
  | _ => INT_MIN
  end.

Definition digit_val (c : ascii) : option Z :=
  if isdigit c then Some (code c - 48) else None.

Definition xdigit_val (c : ascii) : option Z :=
  if isdigit c then Some (code c - 48)
  else if (97 <=? code c) && (code c <=? 102) then Some (code c - 87)
  else if (65 <=? code c) && (code c <=? 70) then Some (code c - 55)
  else None.

(** Reads the longest run of digits: the accumulated value, the number of
    digits read and the rest of the string. *)
Fixpoint scan (val : ascii -> option Z) (base : Z) (s : string) (acc n : Z)
  : Z * Z * string :=
  match s with
  | String c r =>
      match val c with
      | Some d => scan val base r (acc * base + d) (n + 1)
      | None => (acc, n, s)
      end
  | EmptyString => (acc, n, s)
  end.

(** Digits, an optional point, digits: the integer made of all the
    digits, the number of digits, the number of them after the point, and
    the rest. *)
Definition scan_mantissa (val : ascii -> option Z) (base : Z) (s : string)
  : Z * Z * Z * string :=
  let '(m1, n1, r1) := scan val base s 0 0 in
  match r1 with
  | String "." r =>
      let '(m2, n2, r2) := scan val base r m1 0 in (m2, n1 + n2, n2, r2)
  | _ => (m1, n1, 0, r1)
  end.

(** An exponent part: the marker, an optional sign and at least one
    decimal digit; 0 when there is none. *)
Definition scan_exponent (lower upper : ascii) (s : string) : Z :=
  match s with
  | String c r =>
      if (code c =? code lower) || (code c =? code upper) then
        let '(neg, r') :=
          match r with
          | String "-" t => (true, t)
          | String "+" t => (false, t)
          | _ => (false, r)
          end in
        let '(v, n, _) := scan digit_val 10 r' 0 0 in
        if n =? 0 then 0 else if neg then - v else v
      else 0
  | EmptyString => 0
  end.

(** The double nearest to [m * 10^e], for [0 <= m]. *)
Definition of_decimal (m e : Z) : double :=
  match m with
  | Zpos p =>
      if 0 <=? e then of_Z (m * 10 ^ e)
      else div (S754_finite false p 0)
               (S754_finite false (Z.to_pos (10 ^ (- e))) 0)
  | _ => S754_zero false
  end.

Definition parse_decimal (s : string) : option double :=
  let '(m, n, nfrac, r) := scan_mantissa digit_val 10 s in
  if n =? 0 then None
  else Some (of_decimal m (scan_exponent "e" "E" r - nfrac)).

Definition parse_hex (s : string) : option double :=
  match s with
  | String "0" (String x r) =>
      if (code x =? code "x"%char) || (code x =? code "X"%char) then
        let '(m, n, nfrac, r') := scan_mantissa xdigit_val 16 r in
        if n =? 0 then None
        else Some (of_scaled m (scan_exponent "p" "P" r' - 4 * nfrac))
      else None
  | _ => None
  end.

Definition has_prefix_nocase (p s : string) : bool :=
  strcasecmp p (substring 0 (String.length p) s) =? 0.

(** The unsigned subject sequence: an infinity, a NaN, a hexadecimal or a
    decimal floating constant. *)
Definition parse_unsigned (s : string) : option double :=
  if has_prefix_nocase "inf" s then Some (S754_infinity false)
  else if has_prefix_nocase "nan" s then Some S754_nan
  else
    match parse_hex s with
    | Some x => Some x
    | None => parse_decimal s
    end.

Fixpoint skip_space (s : string) : string :=
  match s with
  | String c r => if isspace c then skip_space r else s
  | EmptyString => s
  end.

(** The value returned by [strtod (s, &ptr)]: white space is skipped, an
    optional sign is read, then the longest subject sequence; the result
    is correctly rounded, and +0.0 when no conversion can be done. *)
Definition strtod (s : string) : double :=
  let s1 := skip_space s in
  let '(neg, s2) :=
    match s1 with
    | String "-" t => (true, t)
    | String "+" t => (false, t)
    | _ => (false, s1)
    end in
  match parse_unsigned s2 with
  | Some x => if neg then opp x else x
  | None => S754_zero false
  end.

End Double.

Definition imcdf_version (format_version : string) : Z :=
  Double.to_int
    (Double.add (Double.mul (Double.strtod format_version) Double.ten) Double.half).

(** ** The CDF library

    Modelled from the spec: the container collaborator of section 6 (NASA's
    CDF library; cdf.h and the library are not among the sources).  A CDF
    holds numbered attributes, each with entries addressed by an entry
    number (global scope) or by a variable number (variable scope), and
    numbered zVariables made of records.  The functions below are the
    Extended Standard Interface calls that imcdf_low_level.c makes, with the
    status codes and type codes of cdf.h. *)

Module CDF.

Definition CDF_OK : Z := 0.
Definition CDF_WARN : Z := -2000.
Definition ATTR_EXISTS : Z := -2001.
Definition BAD_CDF_ID : Z := -2002.
Definition BAD_REC_NUM : Z := -2009.
Definition NO_SUCH_ATTR : Z := -2017.
Definition NO_SUCH_ENTRY : Z := -2018.
Definition NO_SUCH_VAR : Z := -2019.
Definition BAD_ARGUMENT : Z := -2022.
Definition VAR_EXISTS : Z := -2025.
Definition BAD_MALLOC : Z := -2026.

Definition CDF_TIME_TT2000 : Z := 33.
Definition CDF_DOUBLE : Z := 45.
Definition CDF_CHAR : Z := 51.

Definition GLOBAL_SCOPE : Z := 1.
Definition VARIABLE_SCOPE : Z := 2.

(** The contents of an attribute entry or of a record.  [V_other] is a
    value of any data type that ImagCDF does not use. *)
Inductive value :=
  | V_char (s : string)
  | V_double (d : Double.double)
  | V_tt2000 (t : Z)
  | V_other (data_type num_elements : Z).

Definition data_type_of (v : value) : Z :=
  match v with
  | V_char _ => CDF_CHAR
  | V_double _ => CDF_DOUBLE
  | V_tt2000 _ => CDF_TIME_TT2000
  | V_other t _ => t
  end.

Definition num_elements_of (v : value) : Z :=
  match v with
  | V_char s => Z.of_nat (String.length s)
  | V_double _ => 1
  | V_tt2000 _ => 1
  | V_other _ n => n
  end.

Record attribute := {
  attr_name : string;
  attr_scope : Z;
  g_entries : gmap Z value;
  z_entries : gmap Z value
}.

Record zvariable := {
  zvar_name : string;
  zvar_type : Z;
  zvar_recs : list value
}.

Record cdf := {
  attributes : list attribute;
  zvariables : list zvariable
}.

(** A [CDFid]; [None] is an identifier that designates no open CDF. *)
Definition CDFid : Type := option cdf.

Fixpoint index_of {A : Type} (p : A -> bool) (l : list A) (i : Z) : option Z :=
  match l with
  | [] => None
  | x :: r => if p x then Some i else index_of p r (i + 1)
  end.

Definition nth_at {A : Type} (l : list A) (i : Z) : option A :=
  if i <? 0 then None else l !! Z.to_nat i.

(** The tests of a name. *)
Definition attr_is (name : string) (a : attribute) : bool :=
  String.eqb (attr_name a) name.

Definition named (name : string) (zv : zvariable) : bool :=
  String.eqb (zvar_name zv) name.

(** [CDFgetAttrNum], and [CDFattrNum] of the original interface: the
    number of the attribute or a negative status. *)
Definition CDFgetAttrNum (id : CDFid) (name : string) : Z :=
  match id with
  | None => BAD_CDF_ID
  | Some c =>
      match index_of (attr_is name) (attributes c) 0 with
      | Some i => i
      | None => NO_SUCH_ATTR
      end
  end.

Definition CDFattrNum : CDFid -> string -> Z := CDFgetAttrNum.

Definition CDFgetVarNum (id : CDFid) (name : string) : Z :=
  match id with
  | None => BAD_CDF_ID
  | Some c =>
      match index_of (named name) (zvariables c) 0 with
      | Some i => i
      | None => NO_SUCH_VAR
      end
  end.

(** [CDFcreateAttr]: status and attribute number. *)
Definition CDFcreateAttr (name : string) (scope : Z) (id : CDFid) : Z * Z * CDFid :=
  match id with
  | None => (BAD_CDF_ID, 0, id)
  | Some c =>
      if 0 <=? CDFgetAttrNum id name then (ATTR_EXISTS, 0, id)
      else
        (CDF_OK, Z.of_nat (length (attributes c)),
         Some {| attributes := attributes c ++
                   [ {| attr_name := name; attr_scope := scope;
                        g_entries := ∅; z_entries := ∅ |} ];
                 zvariables := zvariables c |})
  end.

Definition put_entry (global : bool) (n : Z) (v : value) (a : attribute) : attribute :=
  {| attr_name := attr_name a; attr_scope := attr_scope a;
     g_entries := if global then <[n := v]> (g_entries a) else g_entries a;
     z_entries := if global then z_entries a else <[n := v]> (z_entries a) |}.

Definition put_attr_entry (global : bool) (attr_num n : Z) (v : value) (id : CDFid)
  : Z * CDFid :=
  match id with
  | None => (BAD_CDF_ID, id)
  | Some c =>
      match nth_at (attributes c) attr_num with
      | None => (NO_SUCH_ATTR, id)
      | Some a =>
          (CDF_OK,
           Some {| attributes :=
                     <[Z.to_nat attr_num := put_entry global n v a]> (attributes c);
                   zvariables := zvariables c |})
      end
  end.

Definition CDFputAttrgEntry (attr_num entry_no : Z) (v : value) : CDFid -> Z * CDFid :=
  put_attr_entry true attr_num entry_no v.

(** A zEntry can only be put for an existing zVariable. *)
Definition CDFputAttrzEntry (attr_num var_num : Z) (v : value) (id : CDFid)
  : Z * CDFid :=
  match id with
  | None => (BAD_CDF_ID, id)
  | Some c =>
      match nth_at (zvariables c) var_num with
      | None => (NO_SUCH_VAR, id)
      | Some _ => put_attr_entry false attr_num var_num v id
      end
  end.

Definition get_entry (global : bool) (attr_num n : Z) (id : CDFid) : Z * option value :=
  match id with
  | None => (BAD_CDF_ID, None)
  | Some c =>
      match nth_at (attributes c) attr_num with
      | None => (NO_SUCH_ATTR, None)
      | Some a =>
          match (if global then g_entries a else z_entries a) !! n with
          | None => (NO_SUCH_ENTRY, None)
          | Some v => (CDF_OK, Some v)
          end
      end
  end.

(** [CDFinquireAttrgEntry]: status, data type and number of elements. *)
Definition inquire_entry (global : bool) (attr_num n : Z) (id : CDFid) : Z * Z * Z :=
  match get_entry global attr_num n id with
  | (st, Some v) => (st, data_type_of v, num_elements_of v)
  | (st, None) => (st, 0, 0)
  end.

Definition CDFinquireAttrgEntry : Z -> Z -> CDFid -> Z * Z * Z := inquire_entry true.
Definition CDFinquireAttrzEntry : Z -> Z -> CDFid -> Z * Z * Z := inquire_entry false.
Definition CDFgetAttrgEntry : Z -> Z -> CDFid -> Z * option value := get_entry true.
Definition CDFgetAttrzEntry : Z -> Z -> CDFid -> Z * option value := get_entry false.

(** [CDFcreatezVar] for a record-varying variable without dimensions:
    status and variable number. *)
Definition CDFcreatezVar (name : string) (data_type : Z) (id : CDFid) : Z * Z * CDFid :=
  match id with
  | None => (BAD_CDF_ID, 0, id)
  | Some c =>
      if 0 <=? CDFgetVarNum id name then (VAR_EXISTS, 0, id)
      else
        (CDF_OK, Z.of_nat (length (zvariables c)),
         Some {| attributes := attributes c;
                 zvariables := zvariables c ++
                   [ {| zvar_name := name; zvar_type := data_type; zvar_recs := [] |} ] |})
  end.

(** [CDFinquirezVar]: status, data type and number of dimensions. *)
Definition CDFinquirezVar (var_num : Z) (id : CDFid) : Z * Z * Z :=
  match id with
  | None => (BAD_CDF_ID, 0, 0)
  | Some c =>
      match nth_at (zvariables c) var_num with
      | None => (NO_SUCH_VAR, 0, 0)
      | Some v => (CDF_OK, zvar_type v, 0)
      end
  end.

(** [CDFgetzVarMaxWrittenRecNum]: -1 for a variable without records. *)
Definition CDFgetzVarMaxWrittenRecNum (var_num : Z) (id : CDFid) : Z * Z :=
  match id with
  | None => (BAD_CDF_ID, 0)
  | Some c =>
      match nth_at (zvariables c) var_num with
      | None => (NO_SUCH_VAR, 0)
      | Some v => (CDF_OK, Z.of_nat (length (zvar_recs v)) - 1)
      end
  end.

Definition CDFgetzVarNumRecsWritten (var_num : Z) (id : CDFid) : Z * Z :=
  match id with
  | None => (BAD_CDF_ID, 0)
  | Some c =>
      match nth_at (zvariables c) var_num with
      | None => (NO_SUCH_VAR, 0)
      | Some v => (CDF_OK, Z.of_nat (length (zvar_recs v)))
      end
  end.

(** The default pad values of cdf.h for the two types that ImagCDF
    writes. *)
Definition pad_value (data_type : Z) : value :=
  if data_type =? CDF_TIME_TT2000 then V_tt2000 (-9223372036854775807)
  else if data_type =? CDF_DOUBLE then V_double (Double.opp (Double.of_decimal 1 30))
  else V_other data_type 1.

(** Record [n] of a list of records: an existing record is replaced, the
    record one past the end is added, and a record further on is added
    after the pad values that fill the gap. *)
Definition put_record (pad : value) (n : nat) (v : value) (recs : list value)
  : list value :=
  if decide (n < length recs)%nat then <[n := v]> recs
  else recs ++ replicate (n - length recs) pad ++ [v].

Definition CDFputzVarRecordData (var_num rec_num : Z) (v : value) (id : CDFid)
  : Z * CDFid :=
  match id with
  | None => (BAD_CDF_ID, id)
  | Some c =>
      match nth_at (zvariables c) var_num with
      | None => (NO_SUCH_VAR, id)
      | Some zv =>
          if rec_num <? 0 then (BAD_REC_NUM, id)
          else
            (CDF_OK,
             Some {| attributes := attributes c;
                     zvariables :=
                       <[Z.to_nat var_num :=
                           {| zvar_name := zvar_name zv; zvar_type := zvar_type zv;
                              zvar_recs := put_record (pad_value (zvar_type zv))
                                             (Z.to_nat rec_num) v (zvar_recs zv) |}]>
                         (zvariables c) |})
      end
  end.

Definition CDFgetzVarRecordData (var_num rec_num : Z) (id : CDFid) : Z * option value :=
  match id with
  | None => (BAD_CDF_ID, None)
  | Some c =>
      match nth_at (zvariables c) var_num with
      | None => (NO_SUCH_VAR, None)
      | Some zv =>
          match nth_at (zvar_recs zv) rec_num with
          | None => (BAD_REC_NUM, None)
          | Some v => (CDF_OK, Some v)
          end
      end
  end.

(** [CDFgetStatusText]: stands for the explanation text that the library
    keeps for a status code. *)
Definition CDFgetStatusText (status : Z) : string :=
  "CDF status " +:+ pretty status.

End CDF.

Import CDF.

(** ** imcdf_low_level.c: the static variables and the state monad *)

Definition MAX_OPEN_CDF_FILES : Z := 10.

Record globals := {
  cdf_ids : list CDFid;
  cdf_index : Z;
  cdf_status : Z
}.

Definition M (A : Type) : Type := globals -> A * globals.

#[global] Instance M_ret : MRet M := fun A a s => (a, s).

#[global] Instance M_bind : MBind M :=
  fun A B f m s => let '(a, s') := m s in f a s'.

#[global] Instance M_fmap : FMap M :=
  fun A B f m s => let '(a, s') := m s in (f a, s').

Definition get_cdf_index : M Z := fun s => (cdf_index s, s).

Definition set_cdf_status (st : Z) : M unit :=
  fun s => (tt, {| cdf_ids := cdf_ids s; cdf_index := cdf_index s; cdf_status := st |}).

(** [cdf_ids [cdf_handle]]; outside the table there is no CDF. *)
Definition id_at (s : globals) (cdf_handle : Z) : CDFid :=
  default None (nth_at (cdf_ids s) cdf_handle).

(** A library call that only reads the CDF behind [cdf_ids [cdf_handle]]. *)
Definition ask {A : Type} (cdf_handle : Z) (f : CDFid -> A) : M A :=
  fun s => (f (id_at s cdf_handle), s).

(** A library call that may change the CDF behind [cdf_ids [cdf_handle]]. *)
Definition call {A : Type} (cdf_handle : Z) (f : CDFid -> A * CDFid) : M A :=
  fun s =>
    let '(a, id') := f (id_at s cdf_handle) in
    (a, {| cdf_ids := if cdf_handle <? 0 then cdf_ids s
                      else <[Z.to_nat cdf_handle := id']> (cdf_ids s);
           cdf_index := cdf_index s;
           cdf_status := cdf_status s |}).

Definition initialise_cdf_ids : M unit :=
  fun s =>
    if cdf_index s <? 0 then
      (tt, {| cdf_ids := replicate (Z.to_nat MAX_OPEN_CDF_FILES) None;
              cdf_index := 0;
              cdf_status := CDF_OK |})
    else (tt, s).

Definition sanity_check_handles (cdf_handle : Z) : M Z :=
  initialise_cdf_ids ;;
  idx ← get_cdf_index;
  if cdf_handle <? 0 then mret (-1)
  else if cdf_handle >=? idx then mret (-1)
  else mret 0.

Definition imcdf_get_last_status_code : M Z := fun s => (cdf_status s, s).

Definition imcdf_status_code_tostring (status : Z) : string :=
  if status <? CDF_WARN then "Error: " +:+ CDFgetStatusText status +:+ String "010" EmptyString
  else if status <? CDF_OK then "Warning: " +:+ CDFgetStatusText status +:+ String "010" EmptyString
  else if status >? CDF_OK then "Information: " +:+ CDFgetStatusText status +:+ String "010" EmptyString
  else "Success".

Definition find_variable_attribute (cdf_handle : Z) (name : string) : M Z :=
  attr_num ← ask cdf_handle (fun id => CDFgetAttrNum id name);
  if attr_num <? 0 then
    '(st, attr_num') ← call cdf_handle (CDFcreateAttr name VARIABLE_SCOPE);
    set_cdf_status st ;;
    if st <? CDF_WARN then mret (-1) else mret attr_num'
  else mret attr_num.

(** *** Writing *)

Definition add_variable_attr (cdf_handle : Z) (attr_name var_name : string) (v : value)
  : M Z :=
  bad ← sanity_check_handles cdf_handle;
  if negb (bad =? 0) then mret (-1) else
  attr_num ← find_variable_attribute cdf_handle attr_name;
  if attr_num <? 0 then mret (-1) else
  var_num ← ask cdf_handle (fun id => CDFgetVarNum id var_name);
  if var_num <? 0 then set_cdf_status var_num ;; mret (-1) else
  st ← call cdf_handle (CDFputAttrzEntry attr_num var_num v);
  set_cdf_status st ;;
  if st <? CDF_WARN then mret (-1) else mret 0.

Definition imcdf_add_variable_attr_string (cdf_handle : Z) (attr_name var_name value : string)
  : M Z := add_variable_attr cdf_handle attr_name var_name (V_char value).

Definition imcdf_add_variable_attr_double (cdf_handle : Z) (attr_name var_name : string)
  (value : Double.double) : M Z :=
  add_variable_attr cdf_handle attr_name var_name (V_double value).

(** The loop of the two append routines: record [rec_num] receives the
    first element, and so on. *)
Fixpoint put_records (cdf_handle var_num rec_num : Z) (data : list value) : M Z :=
  match data with
  | [] => mret 0
  | x :: rest =>
      st ← call cdf_handle (CDFputzVarRecordData var_num rec_num x);
      set_cdf_status st ;;
      if st <? CDF_WARN then mret (-1)
      else put_records cdf_handle var_num (rec_num + 1) rest
  end.

(** [data_length] elements are read from [data]; reading past the end of
    the caller's buffer is undefined in C and no element is made up for
    it. *)
Definition append_array (cdf_handle : Z) (name : string) (data : list value)
  (data_length : Z) : M Z :=
  bad ← sanity_check_handles cdf_handle;
  if negb (bad =? 0) then mret (-1) else
  var_num ← ask cdf_handle (fun id => CDFgetVarNum id name);
  if var_num <? 0 then set_cdf_status var_num ;; mret (-1) else
  '(st, n_recs) ← ask cdf_handle (CDFgetzVarMaxWrittenRecNum var_num);
  set_cdf_status st ;;
  if negb (st =? CDF_OK) then mret (-1) else
  let n_recs := n_recs + 1 in
  put_records cdf_handle var_num n_recs (take (Z.to_nat data_length) data).

Definition imcdf_append_data_array (cdf_handle : Z) (name : string)
  (data : list Double.double) (data_length : Z) : M Z :=
  append_array cdf_handle name (V_double <$> data) data_length.

Definition imcdf_append_time_stamp_array (cdf_handle : Z) (name : string)
  (data : list Z) (data_length : Z) : M Z :=
  append_array cdf_handle name (V_tt2000 <$> data) data_length.

(** The two routines [imcdf_create_..._array] differ in the data type of
    the variable that they create and in the append routine that they
    call. *)
Definition create_array (data_type : Z) (cdf_handle : Z) (name : string)
  (data : list value) (data_length : Z) : M Z :=
  bad ← sanity_check_handles cdf_handle;
  if negb (bad =? 0) then mret (-1) else
  '(st, _) ← call cdf_handle (CDFcreatezVar name data_type);
  set_cdf_status st ;;
  if (st <? CDF_WARN) && negb (st =? VAR_EXISTS) then mret (-1) else
  append_array cdf_handle name data data_length.

Definition imcdf_create_data_array (cdf_handle : Z) (name : string)
  (data : list Double.double) (data_length : Z) : M Z :=
  create_array CDF_DOUBLE cdf_handle name (V_double <$> data) data_length.

Definition imcdf_create_time_stamp_array (cdf_handle : Z) (name : string)
  (data : list Z) (data_length : Z) : M Z :=
  create_array CDF_TIME_TT2000 cdf_handle name (V_tt2000 <$> data) data_length.

(** *** Reading *)

Definition as_char (v : value) : option string :=
  match v with V_char s => Some s | _ => None end.

Definition as_double (v : value) : option Double.double :=
  match v with V_double d => Some d | _ => None end.

Definition as_tt2000 (v : value) : option Z :=
  match v with V_tt2000 t => Some t | _ => None end.

(** The three routines [imcdf_get_global_attribute_...] differ in the data
    type that they accept and in the type of the value that they store. *)
Definition get_global_attribute {A : Type} (data_type : Z) (decode : value -> option A)
  (cdf_handle : Z) (name : string) (entry_no : Z) : M (option A) :=
  bad ← sanity_check_handles cdf_handle;
  if negb (bad =? 0) then mret None else
  attr_num ← ask cdf_handle (fun id => CDFattrNum id name);
  if attr_num <? 0 then set_cdf_status attr_num ;; mret None else
  '(st, entry_type, num_elements) ← ask cdf_handle (CDFinquireAttrgEntry attr_num entry_no);
  set_cdf_status st ;;
  if st <? 0 then mret None else
  if negb (entry_type =? data_type) then mret None else
  '(st, v) ← ask cdf_handle (CDFgetAttrgEntry attr_num entry_no);
  set_cdf_status st ;;
  if st <? 0 then mret None else
  mret (v ≫= decode).

Definition imcdf_get_global_attribute_string : Z -> string -> Z -> M (option string) :=
  get_global_attribute CDF_CHAR as_char.

Definition imcdf_get_global_attribute_double : Z -> string -> Z -> M (option Double.double) :=
  get_global_attribute CDF_DOUBLE as_double.

Definition imcdf_get_global_attribute_tt2000 : Z -> string -> Z -> M (option Z) :=
  get_global_attribute CDF_TIME_TT2000 as_tt2000.

(** When the variable is not found the source assigns [cdf_status] to
    itself: the last status is left as it was. *)
Definition get_variable_attribute {A : Type} (data_type : Z) (decode : value -> option A)
  (cdf_handle : Z) (attr_name var_name : string) : M (option A) :=
  bad ← sanity_check_handles cdf_handle;
  if negb (bad =? 0) then mret None else
  var_num ← ask cdf_handle (fun id => CDFgetVarNum id var_name);
  if var_num <? 0 then mret None else
  attr_num ← ask cdf_handle (fun id => CDFattrNum id attr_name);
  if attr_num <? 0 then set_cdf_status attr_num ;; mret None else
  '(st, entry_type, num_elements) ← ask cdf_handle (CDFinquireAttrzEntry attr_num var_num);
  set_cdf_status st ;;
  if st <? 0 then mret None else
  if negb (entry_type =? data_type) then mret None else
  '(st, v) ← ask cdf_handle (CDFgetAttrzEntry attr_num var_num);
  set_cdf_status st ;;
  if st <? 0 then mret None else
  mret (v ≫= decode).

Definition imcdf_get_variable_attribute_string : Z -> string -> string -> M (option string) :=
  get_variable_attribute CDF_CHAR as_char.

Definition imcdf_get_variable_attribute_double
  : Z -> string -> string -> M (option Double.double) :=
  get_variable_attribute CDF_DOUBLE as_double.

(** The read loop of [imcdf_get_var_data] and [imcdf_get_var_time_stamps]:
    records [count], [count + 1], ... up to [count + n - 1].  A record whose
    contents are not of the type of the variable would have its bytes
    reinterpreted; that is not modelled and the read fails. *)
Fixpoint get_records {A : Type} (decode : value -> option A) (cdf_handle var_num : Z)
  (count : Z) (n : nat) : M (option (list A)) :=
  match n with
  | O => mret (Some [])
  | S n' =>
      '(st, v) ← ask cdf_handle (CDFgetzVarRecordData var_num count);
      set_cdf_status st ;;
      if st <? 0 then mret None else
      match v ≫= decode with
      | None => mret None
      | Some x =>
          r ← get_records decode cdf_handle var_num (count + 1) n';
          mret ((fun l => x :: l) <$> r)
      end
  end.

(** The result is the array and [*data_len], or [None] for a null
    return. *)
Definition get_var {A : Type} (data_type : Z) (decode : value -> option A)
  (cdf_handle : Z) (var_name : string) : M (option (list A * Z)) :=
  bad ← sanity_check_handles cdf_handle;
  if negb (bad =? 0) then mret None else
  var_num ← ask cdf_handle (fun id => CDFgetVarNum id var_name);
  if var_num <? 0 then mret None else
  '(st, var_type, num_dims) ← ask cdf_handle (CDFinquirezVar var_num);
  set_cdf_status st ;;
  if st <? 0 then mret None else
  if negb (var_type =? data_type) then mret None else
  if negb (num_dims =? 0) then mret None else
  '(st, data_len) ← ask cdf_handle (CDFgetzVarNumRecsWritten var_num);
  set_cdf_status st ;;
  if negb (st =? CDF_OK) then mret None else
  r ← get_records decode cdf_handle var_num 0 (Z.to_nat data_len);
  mret ((fun l => (l, data_len)) <$> r).

Definition imcdf_get_var_data : Z -> string -> M (option (list Double.double * Z)) :=
  get_var CDF_DOUBLE as_double.

Definition imcdf_get_var_time_stamps : Z -> string -> M (option (list Z * Z)) :=
  get_var CDF_TIME_TT2000 as_tt2000.

(** *** TT2000 date and time

    Modelled from the spec: the two calendar conversions of the CDF library
    (section 4.4, [to_epoch] and [from_epoch]), which are not among the
    sources.  They are an interface of the development; [ILLEGAL_TT2000_VALUE]
    is the constant of cdf.h. *)

Definition LLONG_MIN : Z := - 2 ^ 63.
Definition LLONG_MAX : Z := 2 ^ 63 - 1.

Definition ILLEGAL_TT2000_VALUE : Z := -9223372036854775805.

Record utc_parts := {
  d_year : Double.double;
  d_month : Double.double;
  d_day : Double.double;
  d_hour : Double.double;
  d_min : Double.double;
  d_sec : Double.double
}.

Class CDFTime := {
  (** year, month, day, hour, minute, second, milli-, micro- and nanosecond *)
  CDF_TT2000_from_UTC_parts :
    Double.double -> Double.double -> Double.double -> Double.double -> Double.double ->
    Double.double -> Double.double -> Double.double -> Double.double -> Z;
  (** the parts down to the second, which carries the fraction *)
  CDF_TT2000_to_UTC_parts : Z -> utc_parts;
  CDF_TT2000_from_UTC_parts_range :
    forall y mo d h mi s ms us ns,
      LLONG_MIN <= CDF_TT2000_from_UTC_parts y mo d h mi s ms us ns <= LLONG_MAX
}.

(** Two's complement wrap-around of [long long] and of [int]. *)
Definition wrap64 (z : Z) : Z := (z + 2 ^ 63) mod 2 ^ 64 - 2 ^ 63.
Definition wrap32 (z : Z) : Z := (z + 2 ^ 31) mod 2 ^ 32 - 2 ^ 31.

Section TT2000.

Context `{CDFTime}.

Definition imcdf_date_time_to_tt2000 (year month day hour min sec : Z) : M (option Z) :=
  let tt2000 :=
    CDF_TT2000_from_UTC_parts (Double.of_Z year) (Double.of_Z month) (Double.of_Z day)
      (Double.of_Z hour) (Double.of_Z min) (Double.of_Z sec)
      (S754_zero false) (S754_zero false) (S754_zero false) in
  if tt2000 =? ILLEGAL_TT2000_VALUE then set_cdf_status BAD_ARGUMENT ;; mret None
  else set_cdf_status CDF_OK ;; mret (Some tt2000).

(** The six output parameters; the return code is always 0. *)
Definition imcdf_tt2000_to_date_time (tt2000 : Z) : M (Z * Z * Z * Z * Z * Z) :=
  let p := CDF_TT2000_to_UTC_parts tt2000 in
  let year := Double.to_int (d_year p) in
  let month := Double.to_int (d_month p) in
  let day := Double.to_int (d_day p) in
  let hour := Double.to_int (d_hour p) in
  let min := Double.to_int (d_min p) in
  let sec := Double.to_int (Double.add (d_sec p) Double.half) in
  set_cdf_status CDF_OK ;;
  mret (year, month, day, hour, min, sec).

Definition imcdf_tt2000_inc (tt2000 inc : Z) : Z :=
  wrap64 (tt2000 + wrap64 (inc * 1000000000)).

(** The filling loop of [imcdf_make_tt2000_array]. *)
Fixpoint fill_tt2000 (n : nat) (tt2000 increment : Z) : list Z :=
  match n with
  | O => []
  | S n' => tt2000 :: fill_tt2000 n' (imcdf_tt2000_inc tt2000 increment) increment
  end.

(** [None] is the null return.  A negative [n_samples] asks [malloc] for
    a wrapped-around size, which is refused. *)
Definition imcdf_make_tt2000_array (year month day hour min sec increment n_samples : Z)
  : M (option (list Z)) :=
  if n_samples <? 0 then mret None else
  r ← imcdf_date_time_to_tt2000 year month day hour min sec;
  match r with
  | None => mret None
  | Some tt2000 => mret (Some (fill_tt2000 (Z.to_nat n_samples) tt2000 increment))
  end.

(** [None] when the array has fewer than the two elements that are
    read. *)
Definition imcdf_calc_samp_per_from_tt2000 (tt2000_array : list Z) : option Z :=
  match tt2000_array with
  | t0 :: t1 :: _ =>
      let diff := wrap64 (t1 - t0) in
      Some (wrap32 (Z.quot diff 1000000000))
  | _ => None
  end.

End TT2000.

(** ** imcdf_utils.c *)

Definition imcdf_parse_pub_level_string (string : string) : IMCDFPubLevel :=
  if strcasecmp string "1" =? 0 then IMCDF_PUBLEVEL_1
  else if strcasecmp string "2" =? 0 then IMCDF_PUBLEVEL_2
  else if strcasecmp string "3" =? 0 then IMCDF_PUBLEVEL_3
  else if strcasecmp string "4" =? 0 then IMCDF_PUBLEVEL_4
  else IMCDF_PUBLEVEL_1.

Definition imcdf_pub_level_code_tostring (code : IMCDFPubLevel) : string :=
  match code with
  | IMCDF_PUBLEVEL_1 => "1"
  | IMCDF_PUBLEVEL_2 => "2"
  | IMCDF_PUBLEVEL_3 => "3"
  | IMCDF_PUBLEVEL_4 => "4"
  end.

Definition imcdf_parse_standard_level_string (string : string) : IMCDFStandardLevel :=
  if strcasecmp string "full" =? 0 then IMCDF_STANDLEVEL_FULL
  else if strcasecmp string "partial" =? 0 then IMCDF_STANDLEVEL_PARTIAL
  else if strcasecmp string "none" =? 0 then IMCDF_STANDLEVEL_NONE
  else IMCDF_STANDLEVEL_NONE.

Definition imcdf_standard_level_code_tostring (code : IMCDFStandardLevel) : string :=
  match code with
  | IMCDF_STANDLEVEL_FULL => "Full"
  | IMCDF_STANDLEVEL_PARTIAL => "Partial"
  | IMCDF_STANDLEVEL_NONE => "None"
  end.

Definition imcdf_parse_var_type_string (string : string) : IMCDFVariableType :=
  if strcasecmp string "GeomagneticFieldElement" =? 0
  then IMCDF_VARTYPE_GEOMAGNETIC_FIELD_ELEMENT
  else if strcasecmp string "Temperature" =? 0 then IMCDF_VARTYPE_TEMPERATURE
  else IMCDF_VARTYPE_ERROR.

(** ** imcdf.c: structures *)

(** The attributes that a read always fills are [string]; those that it may
    leave null are [option string]. *)
Record IMCDFGlobalAttr := {
  format_description : string;
  format_version : string;
  title : string;
  iaga_code : string;
  elements_recorded : string;
  pub_level : IMCDFPubLevel;
  pub_date : Z;
  observatory_name : string;
  latitude : Double.double;
  longitude : Double.double;
  elevation : Double.double;
  institution : string;
  vector_sens_orient : option string;
  standard_level : IMCDFStandardLevel;
  standard_name : option string;
  standard_version : option string;
  partial_stand_desc : option string;
  source : string;
  terms_of_use : option string;
  unique_identifier : option string;
  parent_identifiers : list string;
  n_parent_identifiers : Z;
  reference_links : list string;
  n_reference_links : Z
}.

Record IMCDFVariableTS := {
  var_name : string;
  time_stamps : list Z;
  ts_data_len : Z
}.

Record IMCDFVariable := {
  var_type : IMCDFVariableType;
  elem_rec : string;
  field_nam : string;
  units : string;
  fill_val : Double.double;
  valid_min : Double.double;
  valid_max : Double.double;
  depend_0 : string;
  data : list Double.double;
  data_len : Z
}.

(** ** imcdf.c: private code *)

(** The name is written to [static char var_name [30]] with [sprintf]:
    it is the name that the C code makes when the code is one that
    [elem_rec [10]] can hold, which the theorems assume
    ([fits ELEM_REC_SIZE]); a longer one overruns the array in C. *)
Definition create_var_name (var_type : IMCDFVariableType) (elem_rec : string)
  : option string :=
  match var_type with
  | IMCDF_VARTYPE_GEOMAGNETIC_FIELD_ELEMENT => Some ("GeomagneticField" +:+ elem_rec)
  | IMCDF_VARTYPE_TEMPERATURE => Some ("Temperature" +:+ elem_rec)
  | _ => None
  end.

(** The message is built in [static char buffer [200]] with [strcpy] and
    [strcat]: it is the message of the C code when it fits the buffer,
    which the theorems about a message that holds a string of the caller
    or of the file assume ([fits MESSAGE_SIZE]). *)
Definition format_error_message (msg : string) (param : option string) (cdf_status : Z)
  : M string :=
  let buffer := msg in
  let buffer :=
    match param with
    | Some p => buffer +:+ ": " +:+ p
    | None => buffer
    end in
  if negb (cdf_status =? CDF_OK) then
    st ← imcdf_get_last_status_code;
    mret (buffer +:+ " [CDF error: ]" +:+ imcdf_status_code_tostring st)
  else mret buffer.

(** [if (call) return format_error_message (msg, param, imcdf_get_last_status_code ());]
    for a call with an output parameter, and the code that follows it. *)
Definition or_return {A R : Type} (call : M (option A)) (msg param : string)
  (rest : A -> M (string + R)) : M (string + R) :=
  r ← call;
  match r with
  | None =>
      st ← imcdf_get_last_status_code;
      m ← format_error_message msg (Some param) st;
      mret (inl m)
  | Some v => rest v
  end.

(** The same for a call that only has a return code. *)
Definition check (call : M Z) (msg param : string) (rest : M (option string))
  : M (option string) :=
  rc ← call;
  if negb (rc =? 0) then
    st ← imcdf_get_last_status_code;
    m ← format_error_message msg (Some param) st;
    mret (Some m)
  else rest.

(** ** imcdf.c: reading *)

(** The two probing loops of [imcdf_read_global_attrs]: entries [n],
    [n + 1], ... of a repeatable attribute are read until a read fails.
    The result is the array of strings and its length.  [fuel] bounds the
    number of iterations. *)
Fixpoint read_entries (fuel : nat) (cdf_handle : Z) (name : string) (n : Z)
  (found : list string) : M (list string * Z) :=
  match fuel with
  | O => mret (found, n)
  | S fuel' =>
      r ← imcdf_get_global_attribute_string cdf_handle name n;
      match r with
      | Some str => read_entries fuel' cdf_handle name (n + 1) (found ++ [str])
      | None => mret (found, n)
      end
  end.

(** The largest key of a table of entries, -1 for an empty table. *)
Definition max_entry_number (m : gmap Z value) : Z :=
  foldr (fun kv acc => Z.max (fst kv) acc) (-1) (map_to_list m).

(** The fuel of a probing loop: two more than the largest entry number of
    the attribute.  The entry after the largest one cannot be read, so
    that the loop ends on a failed read before the fuel is spent. *)
Definition entry_bound (cdf_handle : Z) (name : string) : M nat :=
  fun s =>
    (match id_at s cdf_handle with
     | Some c =>
         match nth_at (attributes c) (CDFattrNum (Some c) name) with
         | Some a => S (Z.to_nat (max_entry_number (g_entries a) + 1))
         | None => 1%nat
         end
     | None => 1%nat
     end, s).

Definition TITLE : string := "Geomagnetic time series data".
Definition FORMAT_DESCRIPTION : string := "INTERMAGNET CDF Format".

(** The block "check metadata" at the end of [imcdf_read_global_attrs]:
    the error message, or [None] when the function returns null. *)
Definition check_metadata (global_attrs : IMCDFGlobalAttr) : M (option string) :=
  if negb (strcasecmp (title global_attrs) TITLE =? 0) then
    Some <$> format_error_message "Title of data incorrect"
               (Some (title global_attrs)) CDF_OK
  else if negb (strcasecmp (format_description global_attrs) FORMAT_DESCRIPTION =? 0) then
    Some <$> format_error_message "Description of data incorrect"
               (Some (format_description global_attrs)) CDF_OK
  else
    let imcdf_version := imcdf_version (format_version global_attrs) in
    if (imcdf_version <? 11) || (imcdf_version >? 13) then
      Some <$> format_error_message "Format incorrect"
                 (Some (format_version global_attrs)) CDF_OK
    else mret None.

(** The block "get the global attributes": [inl] is the error message of an
    early return, [inr] the structure as it stands before the check. *)
Definition get_the_global_attributes (cdf_handle : Z) : M (string + IMCDFGlobalAttr) :=
  let err := "Error reading global attribute" in
  or_return (imcdf_get_global_attribute_string cdf_handle "FormatDescription" 0)
    err "FormatDescription" (fun format_description =>
  or_return (imcdf_get_global_attribute_string cdf_handle "FormatVersion" 0)
    err "FormatVersion" (fun format_version =>
  or_return (imcdf_get_global_attribute_string cdf_handle "Title" 0)
    err "Title" (fun title =>
  or_return (imcdf_get_global_attribute_string cdf_handle "IagaCode" 0)
    err "IagaCode" (fun iaga_code =>
  or_return (imcdf_get_global_attribute_string cdf_handle "ElementsRecorded" 0)
    err "ElementsRecorded" (fun elements_recorded =>
  or_return (imcdf_get_global_attribute_string cdf_handle "PublicationLevel" 0)
    err "PublicationLevel" (fun pl_str =>
  or_return (imcdf_get_global_attribute_tt2000 cdf_handle "PublicationDate" 0)
    err "PublicationDate" (fun pub_date =>
  or_return (imcdf_get_global_attribute_string cdf_handle "ObservatoryName" 0)
    err "ObservatoryName" (fun observatory_name =>
  or_return (imcdf_get_global_attribute_double cdf_handle "Latitude" 0)
    err "Latitude" (fun latitude =>
  or_return (imcdf_get_global_attribute_double cdf_handle "Longitude" 0)
    err "Longitude" (fun longitude =>
  or_return (imcdf_get_global_attribute_double cdf_handle "Elevation" 0)
    err "Elevation" (fun elevation =>
  or_return (imcdf_get_global_attribute_string cdf_handle "Institution" 0)
    err "Institution" (fun institution =>
  vector_sens_orient ← imcdf_get_global_attribute_string cdf_handle "VectorSensOrient" 0;
  or_return (imcdf_get_global_attribute_string cdf_handle "StandardLevel" 0)
    err "StandardLevel" (fun sl_str =>
  standard_name ← imcdf_get_global_attribute_string cdf_handle "StandardName" 0;
  standard_version ← imcdf_get_global_attribute_string cdf_handle "StandardVersion" 0;
  partial_stand_desc ← imcdf_get_global_attribute_string cdf_handle "PartialStandDesc" 0;
  or_return (imcdf_get_global_attribute_string cdf_handle "Source" 0)
    err "Source" (fun source =>
  terms_of_use ← imcdf_get_global_attribute_string cdf_handle "TermsOfUse" 0;
  unique_identifier ← imcdf_get_global_attribute_string cdf_handle "UniqueIdentifier" 0;
  let pub_level := imcdf_parse_pub_level_string pl_str in
  let standard_level := imcdf_parse_standard_level_string sl_str in
  fuel ← entry_bound cdf_handle "ParentIdentifiers";
  '(parent_identifiers, n_parent_identifiers) ←
    read_entries fuel cdf_handle "ParentIdentifiers" 0 [];
  fuel ← entry_bound cdf_handle "ReferenceLinks";
  '(reference_links, n_reference_links) ←
    read_entries fuel cdf_handle "ReferenceLinks" 0 [];
  mret (inr {|
    format_description := format_description;
    format_version := format_version;
    title := title;
    iaga_code := iaga_code;
    elements_recorded := elements_recorded;
    pub_level := pub_level;
    pub_date := pub_date;
    observatory_name := observatory_name;
    latitude := latitude;
    longitude := longitude;
    elevation := elevation;
    institution := institution;
    vector_sens_orient := vector_sens_orient;
    standard_level := standard_level;
    standard_name := standard_name;
    standard_version := standard_version;
    partial_stand_desc := partial_stand_desc;
    source := source;
    terms_of_use := terms_of_use;
    unique_identifier := unique_identifier;
    parent_identifiers := parent_identifiers;
    n_parent_identifiers := n_parent_identifiers;
    reference_links := reference_links;
    n_reference_links := n_reference_links
  |}))))))))))))))).

(** [inl] is the error message that is returned, [inr] the structure that
    is filled when null is returned.  What the structure holds after an
    error is not represented. *)
Definition imcdf_read_global_attrs (cdf_handle : Z) : M (string + IMCDFGlobalAttr) :=
  r ← get_the_global_attributes cdf_handle;
  match r with
  | inl m => mret (inl m)
  | inr global_attrs =>
      e ← check_metadata global_attrs;
      match e with
      | Some m => mret (inl m)
      | None => mret (inr global_attrs)
      end
  end.

Definition imcdf_read_variable (cdf_handle : Z) (var_type : IMCDFVariableType)
  (elem_rec : string) : M (string + IMCDFVariable) :=
  match create_var_name var_type elem_rec with
  | None => mret (inl "Error: Invalid variable type")
  | Some var_name =>
      let err := "Error reading variable attribute" in
      or_return (imcdf_get_variable_attribute_string cdf_handle "FIELDNAM" var_name)
        err "FIELDNAM" (fun field_nam =>
      or_return (imcdf_get_variable_attribute_string cdf_handle "UNITS" var_name)
        err "UNITS" (fun units =>
      or_return (imcdf_get_variable_attribute_double cdf_handle "FILLVAL" var_name)
        err "FILLVAL" (fun fill_val =>
      or_return (imcdf_get_variable_attribute_double cdf_handle "VALIDMIN" var_name)
        err "VALIDMIN" (fun valid_min =>
      or_return (imcdf_get_variable_attribute_double cdf_handle "VALIDMAX" var_name)
        err "VALIDMAX" (fun valid_max =>
      or_return (imcdf_get_variable_attribute_string cdf_handle "DEPEND_0" var_name)
        err "DEPEND_0" (fun depend_0 =>
      or_return (imcdf_get_var_data cdf_handle var_name)
        "Error reading variable data" var_name (fun '(data, data_len) =>
      mret (inr {|
        var_type := var_type;
        elem_rec := elem_rec;
        field_nam := field_nam;
        units := units;
        fill_val := fill_val;
        valid_min := valid_min;
        valid_max := valid_max;
        depend_0 := depend_0;
        data := data;
        data_len := data_len
      |}))))))))
  end.

Definition imcdf_read_time_stamps (cdf_handle : Z) (var_name : string)
  : M (string + IMCDFVariableTS) :=
  or_return (imcdf_get_var_time_stamps cdf_handle var_name)
    "Error reading time stamps" var_name (fun '(time_stamps, data_len) =>
  mret (inr {| var_name := var_name; time_stamps := time_stamps;
               ts_data_len := data_len |})).

(** ** imcdf.c: writing *)

(** The block of [imcdf_write_variable] that sets the local [depend_0]:
    [inr] is the string that it stores, [inl] the message with which the
    function returns. *)
Definition resolve_depend_0 (variable : IMCDFVariable) (use_given_depend_0 : bool)
  : string + string :=
  if use_given_depend_0 then inr (depend_0 variable)
  else if negb (imcdf_is_vector_gm_data (var_type variable) (elem_rec variable) =? 0)
  then inr VECTOR_TIME_STAMPS_VAR_NAME
  else if negb (imcdf_is_scalar_gm_data (var_type variable) (elem_rec variable) =? 0)
  then inr SCALAR_TIME_STAMPS_VAR_NAME
  else if decide (var_type variable <> IMCDF_VARTYPE_TEMPERATURE)
  then inl "Missing or invalid element code"
  else inr (TEMPERATURE_TIME_STAMPS_VAR_NAME_BASE (elem_rec variable)).

(** [None] is the null return, [Some m] the error message [m].  The
    local arrays [var_name [30]], [depend_0 [50]] and [lablaxis [30]] are
    not given a capacity: the strings are those of the C code when the
    element code fits [elem_rec] and the dependency fits [depend_0], which
    the theorems assume ([writable]). *)
Definition imcdf_write_variable (cdf_handle : Z) (variable : IMCDFVariable)
  (use_given_depend_0 : bool) : M (option string) :=
  match create_var_name (var_type variable) (elem_rec variable) with
  | None => Some <$> format_error_message "Invalid variable type" None CDF_OK
  | Some var_name =>
      rc ← imcdf_create_data_array cdf_handle var_name (data variable) (data_len variable);
      if negb (rc =? 0) then
        Some <$> format_error_message "Error writing variable data" (Some var_name) CDF_OK
      else
        match resolve_depend_0 variable use_given_depend_0 with
        | inl m => Some <$> format_error_message m None CDF_OK
        | inr depend_0 =>
            let lablaxis :=
              if decide (var_type variable = IMCDF_VARTYPE_TEMPERATURE)
              then "Temperature " +:+ elem_rec variable
              else elem_rec variable in
            let err := "Error writing variable attribute" in
            check (imcdf_add_variable_attr_string cdf_handle "FIELDNAM" var_name
                     (field_nam variable)) err "FIELDNAM" (
            check (imcdf_add_variable_attr_string cdf_handle "UNITS" var_name
                     (units variable)) err "UNITS" (
            check (imcdf_add_variable_attr_double cdf_handle "FILLVAL" var_name
                     (fill_val variable)) err "FILLVAL" (
            check (imcdf_add_variable_attr_double cdf_handle "VALIDMIN" var_name
                     (valid_min variable)) err "VALIDMIN" (
            check (imcdf_add_variable_attr_double cdf_handle "VALIDMAX" var_name
                     (valid_max variable)) err "VALIDMAX" (
            check (imcdf_add_variable_attr_string cdf_handle "DEPEND_0" var_name
                     depend_0) err "DEPEND_0" (
            check (imcdf_add_variable_attr_string cdf_handle "DISPLAY_TYPE" var_name
                     "time_series") err "DISPLAY_TYPE" (
            check (imcdf_add_variable_attr_string cdf_handle "LABLAXIS" var_name
                     lablaxis) err "LABLAXIS" (
            mret None))))))))
        end
  end.

Definition imcdf_write_time_stamps (cdf_handle : Z) (ts : IMCDFVariableTS)
  : M (option string) :=
  rc ← imcdf_create_time_stamp_array cdf_handle (var_name ts) (time_stamps ts)
         (ts_data_len ts);
  if negb (rc =? 0) then
    Some <$> format_error_message "Error writing time stamp data" (Some (var_name ts)) CDF_OK
  else mret None.

(** ** imcdf.c: file names *)

(** [printf]'s conversion "%0<width>d". *)
Definition fmt_0d (width : nat) (n : Z) : string :=
  let digits : string := pretty (Z.abs_N n) in
  let sign : string := if n <? 0 then "-" else EmptyString in
  let pad := (width - String.length sign - String.length digits)%nat in
  sign +:+ String.concat EmptyString (replicate pad "0") +:+ digits.

(** The lower-casing loop, which starts at [filename + strlen (prefix)]. *)
Fixpoint lower_from (n : nat) (s : string) : string :=
  match n, s with
  | O, _ => strmap tolower s
  | S n', String c r => String c (lower_from n' r)
  | S _, EmptyString => EmptyString
  end.

Section Filename.

Context `{CDFTime}.

Definition imcdf_make_filename (prefix : option string) (station_code : string)
  (start_date : Z) (pub_level : IMCDFPubLevel) (cadence coverage : IMCDFInterval)
  (force_lower_case : bool) : M string :=
  '(year, month, day, hour, min, sec) ← imcdf_tt2000_to_date_time start_date;
  let cadence_str :=
    match cadence with
    | IMCDF_INT_ANNUAL => "p1y"
    | IMCDF_INT_MONTHLY => "p1m"
    | IMCDF_INT_DAILY => "p1d"
    | IMCDF_INT_HOURLY => "pt1h"
    | IMCDF_INT_MINUTE => "pt1m"
    | IMCDF_INT_SECOND => "pt1s"
    | _ => "unkn"
    end in
  let file_base :=
    match coverage with
    | IMCDF_INT_ANNUAL => fmt_0d 4 year +:+ "_" +:+ cadence_str
    | IMCDF_INT_MONTHLY => fmt_0d 4 year +:+ fmt_0d 2 month +:+ "_" +:+ cadence_str
    | IMCDF_INT_DAILY =>
        fmt_0d 4 year +:+ fmt_0d 2 month +:+ fmt_0d 2 day +:+ "_" +:+ cadence_str
    | IMCDF_INT_HOURLY =>
        fmt_0d 4 year +:+ fmt_0d 2 month +:+ fmt_0d 2 day +:+ "_" +:+ fmt_0d 2 hour
          +:+ "_" +:+ cadence_str
    | IMCDF_INT_MINUTE =>
        fmt_0d 4 year +:+ fmt_0d 2 month +:+ fmt_0d 2 day +:+ "_" +:+ fmt_0d 2 hour
          +:+ fmt_0d 2 min +:+ "_" +:+ cadence_str
    | _ =>
        fmt_0d 4 year +:+ fmt_0d 2 month +:+ fmt_0d 2 day +:+ "_" +:+ fmt_0d 2 hour
          +:+ fmt_0d 2 min +:+ fmt_0d 2 sec +:+ "_" +:+ cadence_str
    end in
  let prefix := match prefix with None => EmptyString | Some p => p end in
  let filename :=
    prefix +:+ station_code +:+ "_" +:+ file_base +:+ "_"
      +:+ imcdf_pub_level_code_tostring pub_level +:+ ".cdf" in
  if force_lower_case then mret (lower_from (String.length prefix) filename)
  else mret filename.

End Filename.

(** ** Values used in the examples *)

Definition utc (year month day hour min sec : Z) : utc_parts :=
  {| d_year := Double.of_Z year; d_month := Double.of_Z month; d_day := Double.of_Z day;
     d_hour := Double.of_Z hour; d_min := Double.of_Z min; d_sec := Double.of_Z sec |}.

(** TT2000 of 1980-01-01T00:00:00 UTC: 7305 days and 12 hours before
    J2000, less the 51.184 s by which TT was ahead of UTC in 1980. *)
Definition TT2000_1980 : Z := -631195148816000000.

(** The two conversions where the examples need them: the date
    1980-01-01T00:00:00 and its TT2000 value; every other date is reported
    as illegal. *)
Definition from_UTC_1980 (y mo d h mi s ms us ns : Double.double) : Z :=
  if bool_decide (Double.to_int <$> [y; mo; d; h; mi; s; ms; us; ns]
                  = [1980; 1; 1; 0; 0; 0; 0; 0; 0])
  then TT2000_1980 else ILLEGAL_TT2000_VALUE.

Definition example_time : CDFTime :=
  {| CDF_TT2000_from_UTC_parts := from_UTC_1980;
     CDF_TT2000_to_UTC_parts := fun _ => utc 1980 1 1 0 0 0;
     CDF_TT2000_from_UTC_parts_range :=
       ltac:(intros; unfold from_UTC_1980; case_bool_decide; vm_compute;
             split; discriminate) |}.

Definition empty_cdf : cdf := {| attributes := []; zvariables := [] |}.

(** One open CDF, with handle 0. *)
Definition one_open (c : cdf) (status : Z) : globals :=
  {| cdf_ids := Some c :: replicate 9 None; cdf_index := 1; cdf_status := status |}.

(** ** Views of the state, used in the statements *)

(** The handle passes [sanity_check_handles]. *)
Definition valid_handle (s : globals) (cdf_handle : Z) : Prop :=
  0 <= cdf_handle < cdf_index s.

(** The handle is valid and [cdf_ids [cdf_handle]] designates the CDF [c]. *)
Definition open_at (s : globals) (cdf_handle : Z) (c : cdf) : Prop :=
  valid_handle s cdf_handle /\ id_at s cdf_handle = Some c.

Definition with_status (s : globals) (st : Z) : globals :=
  {| cdf_ids := cdf_ids s; cdf_index := cdf_index s; cdf_status := st |}.

(** The state in which [cdf_ids [cdf_handle]] designates [c]. *)
Definition with_cdf (s : globals) (cdf_handle : Z) (c : cdf) (st : Z) : globals :=
  {| cdf_ids := <[Z.to_nat cdf_handle := Some c]> (cdf_ids s);
     cdf_index := cdf_index s;
     cdf_status := st |}.

(** The first zVariable of that name. *)
Definition zvar_named (c : cdf) (name : string) : option zvariable :=
  i ← index_of (named name) (zvariables c) 0;
  nth_at (zvariables c) i.

(** The first attribute of that name. *)
Definition attr_named (c : cdf) (name : string) : option attribute :=
  i ← index_of (attr_is name) (attributes c) 0;
  nth_at (attributes c) i.

(** The entry of attribute [attr] for the zVariable [var]. *)
Definition z_entry (c : cdf) (attr var : string) : option value :=
  a ← attr_named c attr;
  i ← index_of (named var) (zvariables c) 0;
  z_entries a !! i.

(** The CDF holds a TT2000 array of that name with these time stamps. *)
Definition holds_time_stamps (c : cdf) (name : string) (stamps : list Z) : Prop :=
  zvar_named c name
  = Some {| zvar_name := name; zvar_type := CDF_TIME_TT2000;
            zvar_recs := V_tt2000 <$> stamps |}.

(** What a [imcdf_get_global_attribute_...] routine returns and the status
    that it leaves, as functions of the CDF: the body of the routine after
    the check of the handle. *)
Definition read_global {A : Type} (data_type : Z) (decode : value -> option A)
  (id : CDFid) (name : string) (entry_no : Z) : option A * Z :=
  let attr_num := CDFattrNum id name in
  if attr_num <? 0 then (None, attr_num) else
  let '(st, entry_type, _) := CDFinquireAttrgEntry attr_num entry_no id in
  if st <? 0 then (None, st) else
  if negb (entry_type =? data_type) then (None, st) else
  let '(st', v) := CDFgetAttrgEntry attr_num entry_no id in
  if st' <? 0 then (None, st') else (v ≫= decode, st').

Definition read_string (id : CDFid) (name : string) (entry_no : Z) : option string :=
  fst (read_global CDF_CHAR as_char id name entry_no).

Definition read_double (id : CDFid) (name : string) : option Double.double :=
  fst (read_global CDF_DOUBLE as_double id name 0).

Definition read_tt2000 (id : CDFid) (name : string) : option Z :=
  fst (read_global CDF_TIME_TT2000 as_tt2000 id name 0).

(** The attribute, or its entry, does not exist in the CDF. *)
Definition not_found (id : CDFid) (name : string) (entry_no : Z) : Prop :=
  CDFattrNum id name = NO_SUCH_ATTR
  \/ (0 <= CDFattrNum id name
      /\ fst (fst (CDFinquireAttrgEntry (CDFattrNum id name) entry_no id)) = NO_SUCH_ENTRY).

Definition required_strings : list string :=
  ["FormatDescription"; "FormatVersion"; "Title"; "IagaCode"; "ElementsRecorded";
   "PublicationLevel"; "ObservatoryName"; "Institution"; "StandardLevel"; "Source"].

Definition required_doubles : list string := ["Latitude"; "Longitude"; "Elevation"].

Definition optional_strings : list string :=
  ["VectorSensOrient"; "StandardName"; "StandardVersion"; "PartialStandDesc";
   "TermsOfUse"; "UniqueIdentifier"].

(** Every required attribute has an entry 0 of its type. *)
Definition required_present (id : CDFid) : Prop :=
  Forall (fun name => is_Some (read_string id name 0)) required_strings
  /\ is_Some (read_tt2000 id "PublicationDate")
  /\ Forall (fun name => is_Some (read_double id name)) required_doubles.

(** The strings of a repeatable attribute, as the probing loop finds them:
    entries 0 to [length l - 1] are the strings of [l], and the next entry
    cannot be read. *)
Definition probed (id : CDFid) (name : string) (l : list string) (n : Z) : Prop :=
  n = Z.of_nat (length l)
  /\ (forall i : nat, (i < length l)%nat -> read_string id name (Z.of_nat i) = l !! i)
  /\ read_string id name n = None.

(** The structure holds what the CDF holds. *)
Definition assembled_from (id : CDFid) (ga : IMCDFGlobalAttr) : Prop :=
  read_string id "FormatDescription" 0 = Some (format_description ga)
  /\ read_string id "FormatVersion" 0 = Some (format_version ga)
  /\ read_string id "Title" 0 = Some (title ga)
  /\ read_string id "IagaCode" 0 = Some (iaga_code ga)
  /\ read_string id "ElementsRecorded" 0 = Some (elements_recorded ga)
  /\ imcdf_parse_pub_level_string <$> read_string id "PublicationLevel" 0
     = Some (pub_level ga)
  /\ read_tt2000 id "PublicationDate" = Some (pub_date ga)
  /\ read_string id "ObservatoryName" 0 = Some (observatory_name ga)
  /\ read_double id "Latitude" = Some (latitude ga)
  /\ read_double id "Longitude" = Some (longitude ga)
  /\ read_double id "Elevation" = Some (elevation ga)
  /\ read_string id "Institution" 0 = Some (institution ga)
  /\ read_string id "VectorSensOrient" 0 = vector_sens_orient ga
  /\ imcdf_parse_standard_level_string <$> read_string id "StandardLevel" 0
     = Some (standard_level ga)
  /\ read_string id "StandardName" 0 = standard_name ga
  /\ read_string id "StandardVersion" 0 = standard_version ga
  /\ read_string id "PartialStandDesc" 0 = partial_stand_desc ga
  /\ read_string id "Source" 0 = Some (source ga)
  /\ read_string id "TermsOfUse" 0 = terms_of_use ga
  /\ read_string id "UniqueIdentifier" 0 = unique_identifier ga
  /\ probed id "ParentIdentifiers" (parent_identifiers ga) (n_parent_identifiers ga)
  /\ probed id "ReferenceLinks" (reference_links ga) (n_reference_links ga).

(** The three conditions of the check of the metadata. *)
Definition metadata_valid (title format_description format_version : string) : Prop :=
  strcasecmp title TITLE = 0
  /\ strcasecmp format_description FORMAT_DESCRIPTION = 0
  /\ 11 <= imcdf_version format_version <= 13.

(** A CDF with the global attributes of the test program
    imag_cdf_test.c, the publication level, the standard level and the
    format version being given. *)
Definition g_attr (name : string) (v : value) : attribute :=
  {| attr_name := name; attr_scope := GLOBAL_SCOPE;
     g_entries := {[ 0 := v ]}; z_entries := ∅ |}.

Definition sample_cdf (publication_level standard_level format_version : string) : cdf :=
  {| attributes :=
       [ g_attr "FormatDescription" (V_char "INTERMAGNET CDF Format");
         g_attr "FormatVersion" (V_char format_version);
         g_attr "Title" (V_char "Geomagnetic time series data");
         g_attr "IagaCode" (V_char "AFO");
         g_attr "ElementsRecorded" (V_char "HDZS");
         g_attr "PublicationLevel" (V_char publication_level);
         g_attr "PublicationDate" (V_tt2000 0);
         g_attr "ObservatoryName" (V_char "A Fake Observatory");
         g_attr "Latitude" (V_double (S754_zero false));
         g_attr "Longitude" (V_double (S754_zero false));
         g_attr "Elevation" (V_double (S754_zero false));
         g_attr "Institution" (V_char "INTERMANGET");
         g_attr "VectorSensOrient" (V_char "ABC");
         g_attr "StandardLevel" (V_char standard_level);
         g_attr "Source" (V_char "INTERMAGNET") ];
     zvariables := [] |}.

(** What a read of [sample_cdf] stores, the two levels being given. *)
Definition sample_attrs (pub_level : IMCDFPubLevel) (standard_level : IMCDFStandardLevel)
  (format_version : string) : IMCDFGlobalAttr :=
  {| format_description := "INTERMAGNET CDF Format";
     format_version := format_version;
     title := "Geomagnetic time series data";
     iaga_code := "AFO";
     elements_recorded := "HDZS";
     pub_level := pub_level;
     pub_date := 0;
     observatory_name := "A Fake Observatory";
     latitude := S754_zero false;
     longitude := S754_zero false;
     elevation := S754_zero false;
     institution := "INTERMANGET";
     vector_sens_orient := Some "ABC";
     standard_level := standard_level;
     standard_name := None;
     standard_version := None;
     partial_stand_desc := None;
     source := "INTERMAGNET";
     terms_of_use := None;
     unique_identifier := None;
     parent_identifiers := [];
     n_parent_identifiers := 0;
     reference_links := [];
     n_reference_links := 0 |}.

(** The zVariable with other records. *)
Definition set_recs (zv : zvariable) (recs : list value) : zvariable :=
  {| zvar_name := zvar_name zv; zvar_type := zvar_type zv; zvar_recs := recs |}.

(** A variable of the test program imag_cdf_test.c, the type, the code and
    the dependency being given. *)
Definition sample_variable (var_type : IMCDFVariableType) (elem_rec depend_0 : string)
  : IMCDFVariable :=
  {| var_type := var_type;
     elem_rec := elem_rec;
     field_nam := "Geomagnetic Field Element";
     units := "nT";
     fill_val := Double.of_Z 99999;
     valid_min := Double.of_Z (-80000);
     valid_max := Double.of_Z 80000;
     depend_0 := depend_0;
     data := [Double.of_Z 20000; Double.of_Z 20001];
     data_len := 2 |}.

Definition ELEM_REC_SIZE : nat := 10.

Definition fits (size : nat) (s : string) : Prop := (String.length s < size)%nat.

(** The records of the zVariable of that name, none when there is no such
    variable. *)
Definition stored_records (c : cdf) (name : string) : list value :=
  match zvar_named c name with
  | Some zv => zvar_recs zv
  | None => []
  end.

(** * The rest of the library *)

(** ** imcdf_utils.c: variable types, variable names and data types *)

Definition imcdf_var_type_code_tostring (code : IMCDFVariableType) : string :=
  match code with
  | IMCDF_VARTYPE_GEOMAGNETIC_FIELD_ELEMENT => "GeomagneticFieldElement"
  | IMCDF_VARTYPE_TEMPERATURE => "Temperature"
  | _ => "Error"
  end.

(** [sprintf (var_name, "%s%c", ...)]: an element code that is the NUL
    character ends the string. *)
Definition imcdf_get_var_name (code : IMCDFVariableType) (element_code : ascii) : string :=
  imcdf_var_type_code_tostring code
    +:+ (if Ascii.eqb element_code zero then EmptyString else one_char element_code).

Definition imcdf_dt_to_pub_level (dt : string) : IMCDFPubLevel :=
  match toupper (deref dt) with
  | "V" | "R" => IMCDF_PUBLEVEL_1
  | "P" | "A" => IMCDF_PUBLEVEL_2
  | "Q" => IMCDF_PUBLEVEL_3
  | "D" => IMCDF_PUBLEVEL_4
  | _ => IMCDF_PUBLEVEL_1
  end%char.

(** A string of the embedding is a C string when it holds no NUL
    character. *)
Fixpoint c_string (s : string) : Prop :=
  match s with
  | EmptyString => True
  | String c r => c <> zero /\ c_string r
  end.

(** ** imcdf_low_level.c: closing a CDF, looking for a variable *)

(** Modelled from the spec: [CDFcloseCDF] of the container collaborator of
    section 6.  The file that the library writes is not represented: the
    call gives the status of closing the CDF that the identifier
    designates. *)
Definition CDFcloseCDF (id : CDFid) : Z :=
  match id with
  | None => BAD_CDF_ID
  | Some _ => CDF_OK
  end.

(** The loop of [imcdf_close] that sorts out the array of identifiers:
    [n] iterations from [count], each of which stores [cdf_ids [count]] in
    [cdf_ids [count - 1]]. *)
Fixpoint move_ids_down (n : nat) (count : Z) (ids : list CDFid) : list CDFid :=
  match n with
  | O => ids
  | S n' =>
      move_ids_down n' (count + 1)
        (<[Z.to_nat (count - 1) := default None (nth_at ids count)]> ids)
  end.

Definition imcdf_close (cdf_handle : Z) : M Z :=
  bad ← sanity_check_handles cdf_handle;
  if negb (bad =? 0) then mret (-1) else
  st ← ask cdf_handle CDFcloseCDF;
  set_cdf_status st ;;
  if st <? CDF_WARN then mret (-1) else
  fun s =>
    (0, {| cdf_ids := move_ids_down (Z.to_nat (cdf_index s - (cdf_handle + 1)))
                        (cdf_handle + 1) (cdf_ids s);
           cdf_index := cdf_index s - 1;
           cdf_status := cdf_status s |}).

(** No sanity check is made in this routine. *)
Definition imcdf_is_var_exist (cdf_handle : Z) (name : string) : M Z :=
  var_num ← ask cdf_handle (fun id => CDFgetVarNum id name);
  if var_num <? 0 then set_cdf_status var_num ;; mret (-1)
  else mret 0.

(** ** imcdf.c: closing a CDF *)

Definition imcdf_close2 (cdf_handle : Z) : M (option string) :=
  rc ← imcdf_close cdf_handle;
  if negb (rc =? 0) then
    st ← imcdf_get_last_status_code;
    Some <$> format_error_message "Error closing CDF file" None st
  else mret None.

(** What [format_error_message] appends when it is given the last CDF
    status. *)
Definition cdf_error_text (status : Z) : string :=
  if status =? CDF_OK then EmptyString
  else " [CDF error: ]" +:+ imcdf_status_code_tostring status.

(** The state after [initialise_cdf_ids]. *)
Definition initialised (s : globals) : globals := snd (initialise_cdf_ids s).

(** ** imcdf_low_level.c: global attributes, TT2000 variable attributes *)

(** The three routines [imcdf_add_global_attr_...] differ in the value
    that they put; [None] is the null pointer that the string routine may
    be given, for which nothing is written. *)
Definition add_global_attr (cdf_handle : Z) (name : string) (entry_no : Z)
  (v : option value) : M Z :=
  bad ← sanity_check_handles cdf_handle;
  if negb (bad =? 0) then mret (-1) else
  match v with
  | None => mret 0
  | Some v =>
      '(st, attr_num) ← call cdf_handle (CDFcreateAttr name GLOBAL_SCOPE);
      set_cdf_status st ;;
      if st <? CDF_WARN then mret (-1) else
      st ← call cdf_handle (CDFputAttrgEntry attr_num entry_no v);
      set_cdf_status st ;;
      if st <? CDF_WARN then mret (-1) else mret 0
  end.

Definition imcdf_add_global_attr_string (cdf_handle : Z) (name : string) (entry_no : Z)
  (value : option string) : M Z :=
  add_global_attr cdf_handle name entry_no (V_char <$> value).

Definition imcdf_add_global_attr_double (cdf_handle : Z) (name : string) (entry_no : Z)
  (value : Double.double) : M Z :=
  add_global_attr cdf_handle name entry_no (Some (V_double value)).

Definition imcdf_add_global_attr_tt2000 (cdf_handle : Z) (name : string) (entry_no : Z)
  (value : Z) : M Z :=
  add_global_attr cdf_handle name entry_no (Some (V_tt2000 value)).

Definition imcdf_add_variable_attr_tt2000 (cdf_handle : Z) (attr_name var_name : string)
  (value : Z) : M Z :=
  add_variable_attr cdf_handle attr_name var_name (V_tt2000 value).

Definition imcdf_get_variable_attribute_tt2000 : Z -> string -> string -> M (option Z) :=
  get_variable_attribute CDF_TIME_TT2000 as_tt2000.

(** ** imcdf.c: writing the global attributes *)

(** [None] is the null pointer. *)
Definition is_blank (s : option string) : Z :=
  match s with
  | None => 1
  | Some s => if Ascii.eqb (deref s) zero then 1 else 0
  end.

(** The lines of a C string literal, each of which ends in "\n". *)
Definition lines (l : list string) : string :=
  foldr (fun x acc => x +:+ String "010" acc) EmptyString l.

Definition getINTERMAGNETTermsOfUse : string :=
  lines
    [ "CONDITIONS OF USE FOR DATA PROVIDED THROUGH INTERMAGNET:";
      "The data made available through INTERMAGNET are provided for";
      "your use and are not for commercial use or sale or distribution";
      "to third parties without the written permission of the institute";
      "(http://www.intermagnet.org/Institutes_e.html) operating";
      "the observatory. Publications making use of the data";
      "should include an acknowledgment statement of the form given below.";
      "A citation reference should be sent to the INTERMAGNET Secretary";
      "(secretary@intermagnet.org) for inclusion in a publications list";
      "on the INTERMAGNET website.";
      EmptyString;
      "     ACKNOWLEDGEMENT OF DATA FROM OBSERVATORIES";
      "     PARTICIPATING IN INTERMAGNET";
      "We offer two acknowledgement templates. The first is for cases";
      "where data from many observatories have been used and it is not";
      "practical to list them all, or each of their operating institutes.";
      "The second is for cases where research results have been produced";
      "using a smaller set of observatories.";
      EmptyString;
      "     Suggested Acknowledgement Text (template 1)";
      "The results presented in this paper rely on data collected";
      "at magnetic observatories. We thank the national institutes that";
      "support them and INTERMAGNET for promoting high standards of";
      "magnetic observatory practice (www.intermagnet.org).";
      EmptyString;
      "     Suggested Acknowledgement Text (template 2)";
      "The results presented in this paper rely on the data";
      "collected at <observatory name>. We thank <institute name>,";
      "for supporting its operation and INTERMAGNET for promoting high";
      "standards of magnetic observatory practice (www.intermagnet.org)." ].

(** The block "default values" of [imcdf_write_global_attrs]: the
    structure as the routine leaves it to its caller. *)
Definition default_values (global_attrs : IMCDFGlobalAttr) : IMCDFGlobalAttr :=
  {| format_description :=
       if is_blank (Some (format_description global_attrs)) =? 0
       then format_description global_attrs else "INTERMAGNET CDF Format";
     format_version :=
       if is_blank (Some (format_version global_attrs)) =? 0
       then format_version global_attrs else "1.3";
     title :=
       if is_blank (Some (title global_attrs)) =? 0
       then title global_attrs else "Geomagnetic time series data";
     iaga_code := iaga_code global_attrs;
     elements_recorded := elements_recorded global_attrs;
     pub_level := pub_level global_attrs;
     pub_date := pub_date global_attrs;
     observatory_name := observatory_name global_attrs;
     latitude := latitude global_attrs;
     longitude := longitude global_attrs;
     elevation := elevation global_attrs;
     institution := institution global_attrs;
     vector_sens_orient := vector_sens_orient global_attrs;
     standard_level := standard_level global_attrs;
     standard_name := standard_name global_attrs;
     standard_version := standard_version global_attrs;
     partial_stand_desc := partial_stand_desc global_attrs;
     source := source global_attrs;
     terms_of_use :=
       if is_blank (terms_of_use global_attrs) =? 0
       then terms_of_use global_attrs else Some getINTERMAGNETTermsOfUse;
     unique_identifier := unique_identifier global_attrs;
     parent_identifiers := parent_identifiers global_attrs;
     n_parent_identifiers := n_parent_identifiers global_attrs;
     reference_links := reference_links global_attrs;
     n_reference_links := n_reference_links global_attrs |}.

(** The two loops of [imcdf_write_global_attrs]: the strings of [l] are
    written as the entries [count], [count + 1], ... of one attribute. *)
Fixpoint add_global_attr_entries (cdf_handle : Z) (name : string) (count : Z)
  (l : list string) (rest : M (option string)) : M (option string) :=
  match l with
  | [] => rest
  | x :: l' =>
      check (imcdf_add_global_attr_string cdf_handle name count (Some x))
        "Error writing global attribute" name
        (add_global_attr_entries cdf_handle name (count + 1) l' rest)
  end.

(** The result is the return value, [None] for null, and the structure as
    the routine leaves it.  The loops read [n_parent_identifiers] and
    [n_reference_links] strings; reading past the end of the caller's array
    is undefined in C and no string is made up for it. *)
Definition imcdf_write_global_attrs (cdf_handle : Z) (global_attrs : IMCDFGlobalAttr)
  : M (option string * IMCDFGlobalAttr) :=
  let global_attrs := default_values global_attrs in
  let err := "Error writing global attribute" in
  (fun e => (e, global_attrs)) <$> (
  check (imcdf_add_global_attr_string cdf_handle "FormatDescription" 0
           (Some (format_description global_attrs))) err "FormatDescription" (
  check (imcdf_add_global_attr_string cdf_handle "FormatVersion" 0
           (Some (format_version global_attrs))) err "FormatVersion" (
  check (imcdf_add_global_attr_string cdf_handle "Title" 0
           (Some (title global_attrs))) err "Title" (
  check (imcdf_add_global_attr_string cdf_handle "IagaCode" 0
           (Some (iaga_code global_attrs))) err "IagaCode" (
  check (imcdf_add_global_attr_string cdf_handle "ElementsRecorded" 0
           (Some (elements_recorded global_attrs))) err "ElementsRecorded" (
  check (imcdf_add_global_attr_string cdf_handle "PublicationLevel" 0
           (Some (imcdf_pub_level_code_tostring (pub_level global_attrs))))
    err "PublicationLevel" (
  check (imcdf_add_global_attr_tt2000 cdf_handle "PublicationDate" 0
           (pub_date global_attrs)) err "PublicationDate" (
  check (imcdf_add_global_attr_string cdf_handle "ObservatoryName" 0
           (Some (observatory_name global_attrs))) err "ObservatoryName" (
  check (imcdf_add_global_attr_double cdf_handle "Latitude" 0
           (latitude global_attrs)) err "Latitude" (
  check (imcdf_add_global_attr_double cdf_handle "Longitude" 0
           (longitude global_attrs)) err "Longitude" (
  check (imcdf_add_global_attr_double cdf_handle "Elevation" 0
           (elevation global_attrs)) err "Elevation" (
  check (imcdf_add_global_attr_string cdf_handle "Institution" 0
           (Some (institution global_attrs))) err "Institution" (
  check (imcdf_add_global_attr_string cdf_handle "VectorSensOrient" 0
           (vector_sens_orient global_attrs)) err "VectorSensOrient" (
  check (imcdf_add_global_attr_string cdf_handle "StandardLevel" 0
           (Some (imcdf_standard_level_code_tostring (standard_level global_attrs))))
    err "StandardLevel" (
  check (imcdf_add_global_attr_string cdf_handle "StandardName" 0
           (standard_name global_attrs)) err "StandardName" (
  check (imcdf_add_global_attr_string cdf_handle "StandardVersion" 0
           (standard_version global_attrs)) err "StandardVersion" (
  check (imcdf_add_global_attr_string cdf_handle "PartialStandDesc" 0
           (partial_stand_desc global_attrs)) err "PartialStandDesc" (
  check (imcdf_add_global_attr_string cdf_handle "Source" 0
           (Some (source global_attrs))) err "Source" (
  check (imcdf_add_global_attr_string cdf_handle "TermsOfUse" 0
           (terms_of_use global_attrs)) err "TermsOfUse" (
  check (imcdf_add_global_attr_string cdf_handle "UniqueIdentifier" 0
           (unique_identifier global_attrs)) err "UniqueIdentifier" (
  add_global_attr_entries cdf_handle "ParentIdentifiers" 0
    (take (Z.to_nat (n_parent_identifiers global_attrs))
       (parent_identifiers global_attrs)) (
  add_global_attr_entries cdf_handle "ReferenceLinks" 0
    (take (Z.to_nat (n_reference_links global_attrs))
       (reference_links global_attrs)) (
  mret None))))))))))))))))))))))).

(** The names of the global attributes of an ImagCDF, in the order in
    which [imcdf_write_global_attrs] writes them. *)
Definition global_attr_names : list string :=
  ["FormatDescription"; "FormatVersion"; "Title"; "IagaCode"; "ElementsRecorded";
   "PublicationLevel"; "PublicationDate"; "ObservatoryName"; "Latitude"; "Longitude";
   "Elevation"; "Institution"; "VectorSensOrient"; "StandardLevel"; "StandardName";
   "StandardVersion"; "PartialStandDesc"; "Source"; "TermsOfUse"; "UniqueIdentifier";
   "ParentIdentifiers"; "ReferenceLinks"].

(** The value of entry 0 of each of them for a structure that holds at most
    one parent identifier and one reference link, [None] where nothing is
    written. *)
Definition written_global_attrs (ga : IMCDFGlobalAttr) : list (string * option value) :=
  [ ("FormatDescription", Some (V_char (format_description ga)));
    ("FormatVersion", Some (V_char (format_version ga)));
    ("Title", Some (V_char (title ga)));
    ("IagaCode", Some (V_char (iaga_code ga)));
    ("ElementsRecorded", Some (V_char (elements_recorded ga)));
    ("PublicationLevel", Some (V_char (imcdf_pub_level_code_tostring (pub_level ga))));
    ("PublicationDate", Some (V_tt2000 (pub_date ga)));
    ("ObservatoryName", Some (V_char (observatory_name ga)));
    ("Latitude", Some (V_double (latitude ga)));
    ("Longitude", Some (V_double (longitude ga)));
    ("Elevation", Some (V_double (elevation ga)));
    ("Institution", Some (V_char (institution ga)));
    ("VectorSensOrient", V_char <$> vector_sens_orient ga);
    ("StandardLevel",
     Some (V_char (imcdf_standard_level_code_tostring (standard_level ga))));
    ("StandardName", V_char <$> standard_name ga);
    ("StandardVersion", V_char <$> standard_version ga);
    ("PartialStandDesc", V_char <$> partial_stand_desc ga);
    ("Source", Some (V_char (source ga)));
    ("TermsOfUse", V_char <$> terms_of_use ga);
    ("UniqueIdentifier", V_char <$> unique_identifier ga);
    ("ParentIdentifiers", V_char <$> head (parent_identifiers ga));
    ("ReferenceLinks", V_char <$> head (reference_links ga)) ].

(** The CDF library refuses an entry without elements: the strings that
    are written have at least one character. *)
Definition entries_not_empty (ga : IMCDFGlobalAttr) : Prop :=
  Forall (fun x : string => x <> EmptyString)
    ([iaga_code ga; elements_recorded ga; observatory_name ga; institution ga; source ga]
       ++ parent_identifiers ga ++ reference_links ga)
  /\ Forall (fun x : option string => x <> Some EmptyString)
       [vector_sens_orient ga; standard_name ga; standard_version ga;
        partial_stand_desc ga; unique_identifier ga].

(** ** Views of the variables, used in the statements *)

(** The CDF holds the variable [x] under the name [vn]: the six
    attributes that [imcdf_read_variable] reads, and its data in a
    variable of type [CDF_DOUBLE]. *)
Definition holds_variable (c : cdf) (vn : string) (x : IMCDFVariable) : Prop :=
  z_entry c "FIELDNAM" vn = Some (V_char (field_nam x))
  /\ z_entry c "UNITS" vn = Some (V_char (units x))
  /\ z_entry c "FILLVAL" vn = Some (V_double (fill_val x))
  /\ z_entry c "VALIDMIN" vn = Some (V_double (valid_min x))
  /\ z_entry c "VALIDMAX" vn = Some (V_double (valid_max x))
  /\ z_entry c "DEPEND_0" vn = Some (V_char (depend_0 x))
  /\ zvar_named c vn
     = Some {| zvar_name := vn; zvar_type := CDF_DOUBLE;
               zvar_recs := V_double <$> data x |}
  /\ data_len x = Z.of_nat (length (data x)).


(** The variable as [imcdf_write_variable] stores it: the dependency
    string is the one that the routine has chosen. *)
Definition with_depend_0 (x : IMCDFVariable) (d : string) : IMCDFVariable :=
  {| var_type := var_type x;
     elem_rec := elem_rec x;
     field_nam := field_nam x;
     units := units x;
     fill_val := fill_val x;
     valid_min := valid_min x;
     valid_max := valid_max x;
     depend_0 := d;
     data := data x;
     data_len := data_len x |}.

(** The variable with other data. *)
Definition with_data (x : IMCDFVariable) (l : list Double.double) : IMCDFVariable :=
  {| var_type := var_type x;
     elem_rec := elem_rec x;
     field_nam := field_nam x;
     units := units x;
     fill_val := fill_val x;
     valid_min := valid_min x;
     valid_max := valid_max x;
     depend_0 := depend_0 x;
     data := l;
     data_len := Z.of_nat (length l) |}.

(** The label that [imcdf_write_variable] stores in LABLAXIS. *)
Definition lablaxis_of (x : IMCDFVariable) : string :=
  if decide (var_type x = IMCDF_VARTYPE_TEMPERATURE)
  then "Temperature " +:+ elem_rec x
  else elem_rec x.

(** The strings that [imcdf_write_variable] writes for the variable [x]
    with the dependency [d] are not empty: the CDF library refuses an
    entry without elements. *)
Definition written_strings_not_empty (x : IMCDFVariable) (d : string) : Prop :=
  field_nam x <> EmptyString /\ units x <> EmptyString /\ d <> EmptyString
  /\ lablaxis_of x <> EmptyString.

(** The attribute [an], when the CDF has it, is of variable scope: the CDF
    library writes the entry of a variable to no other attribute. *)
Definition variable_scope (c : cdf) (an : string) : Prop :=
  match attr_named c an with
  | Some a => attr_scope a = VARIABLE_SCOPE
  | None => True
  end.

(** The attributes that [imcdf_write_variable] writes. *)
Definition variable_attr_names : list string :=
  ["FIELDNAM"; "UNITS"; "FILLVAL"; "VALIDMIN"; "VALIDMAX"; "DEPEND_0"; "DISPLAY_TYPE";
   "LABLAXIS"].

(** The static variables as the program starts: [cdf_index] is -1. *)
Definition at_start : globals :=
  {| cdf_ids := replicate (Z.to_nat MAX_OPEN_CDF_FILES) None;
     cdf_index := -1;
     cdf_status := CDF_OK |}.

(** The capacities of [depend_0 [50]] in [imcdf_write_variable] and of
    the buffer of [format_error_message]. *)
Definition DEPEND_0_SIZE : nat := 50.
Definition MESSAGE_SIZE : nat := 200.

(** What [imcdf_write_variable] and the CDF library require of the
    variable [x] that is written with the dependency [d]: the element code
    and the dependency fit their buffers, the strings written are not
    empty, and [data_len] is the length of the data. *)
Definition writable (x : IMCDFVariable) (d : string) : Prop :=
  fits ELEM_REC_SIZE (elem_rec x)
  /\ fits DEPEND_0_SIZE d
  /\ written_strings_not_empty x d
  /\ data_len x = Z.of_nat (length (data x)).

(** The three messages of the check of the metadata fit the buffer of
    [format_error_message]. *)
Definition validation_messages_fit (title format_description format_version : string)
  : Prop :=
  fits MESSAGE_SIZE ("Title of data incorrect: " +:+ title)
  /\ fits MESSAGE_SIZE ("Description of data incorrect: " +:+ format_description)
  /\ fits MESSAGE_SIZE ("Format incorrect: " +:+ format_version).

(** * Properties *)

(** Unfolding of the state monad. *)
Ltac run_monad :=
  unfold mbind, mret, fmap, M_bind, M_ret, M_fmap, set_cdf_status, get_cdf_index,
    imcdf_get_last_status_code;
  cbn beta iota zeta.

Lemma bind_run {A B : Type} (m : M A) (k : A -> M B) (s : globals) :
  (m ≫= k) s = k (fst (m s)) (snd (m s)).
Proof. unfold mbind, M_bind. destruct (m s); reflexivity. Qed.

Lemma fmap_run {A B : Type} (f : A -> B) (m : M A) (s : globals) :
  (f <$> m) s = (f (fst (m s)), snd (m s)).
Proof. unfold fmap, M_fmap. destruct (m s); reflexivity. Qed.

Lemma id_at_status (ids : list CDFid) (idx st : Z) (s : globals) (h : Z) :
  ids = cdf_ids s ->
  id_at {| cdf_ids := ids; cdf_index := idx; cdf_status := st |} h = id_at s h.
Proof. intros ->. reflexivity. Qed.

(** One step of a computation in the monad: the leading binds are run, and
    the reads of the state are evaluated. *)
Ltac step :=
  repeat (first
    [ rewrite bind_run
    | rewrite fmap_run
    | progress cbn [ask set_cdf_status get_cdf_index imcdf_get_last_status_code
                    mret M_ret fst snd cdf_ids cdf_index cdf_status]
    | rewrite (id_at_status _ _ _ _ _ eq_refl) ]).

(** ** Characters *)

Lemma toupper_idempotent (c : ascii) : toupper (toupper c) = toupper c.
Proof. destruct c as [[] [] [] [] [] [] [] []]; reflexivity. Qed.

Lemma is_vector_char (t : IMCDFVariableType) (c : string) :
  imcdf_is_vector_gm_data t c =
    if decide (t = IMCDF_VARTYPE_GEOMAGNETIC_FIELD_ELEMENT)
    then (if bool_decide (toupper (deref c) ∈ vector_codes) then 1 else 0)
    else 0.
Proof.
  unfold imcdf_is_vector_gm_data.
  destruct t; cbn [decide]; try reflexivity.
  destruct (deref c) as [[] [] [] [] [] [] [] []]; vm_compute; reflexivity.
Qed.

Lemma is_scalar_char (t : IMCDFVariableType) (c : string) :
  imcdf_is_scalar_gm_data t c =
    if decide (t = IMCDF_VARTYPE_GEOMAGNETIC_FIELD_ELEMENT)
    then (if bool_decide (toupper (deref c) ∈ scalar_codes) then 1 else 0)
    else 0.
Proof.
  unfold imcdf_is_scalar_gm_data.
  destruct t; cbn [decide]; try reflexivity.
  destruct (deref c) as [[] [] [] [] [] [] [] []]; vm_compute; reflexivity.
Qed.

(** C3, as stated, fails: the one-letter code "h" is none of the nine
    listed codes, and yet it is classified as a vector element. *)
Lemma lowercase_code_is_vector :
  imcdf_is_vector_gm_data IMCDF_VARTYPE_GEOMAGNETIC_FIELD_ELEMENT "h" = 1
  /\ ~ In "h" (map one_char vector_codes)
  /\ imcdf_is_scalar_gm_data IMCDF_VARTYPE_GEOMAGNETIC_FIELD_ELEMENT "g" = 1
  /\ ~ In "g" (map one_char scalar_codes).
Proof.
  repeat split; try reflexivity; cbn; intros Hin;
    repeat (destruct Hin as [Hin | Hin]; [discriminate Hin |]); exact Hin.
Qed.

(** C3, amended: [imcdf_is_vector_gm_data] returns true exactly when the
    type is GeomagneticFieldElement and the upper-cased first character of
    the code is one of X, Y, Z, H, D, E, V, I, F; [imcdf_is_scalar_gm_data]
    exactly when the type is GeomagneticFieldElement and that character is
    S or G; both return 0 otherwise, so that both are false for every other
    type. *)
Theorem classification_by_table (t : IMCDFVariableType) (c : string) :
  (imcdf_is_vector_gm_data t c = 1 <->
     t = IMCDF_VARTYPE_GEOMAGNETIC_FIELD_ELEMENT /\ toupper (deref c) ∈ vector_codes)
  /\ (imcdf_is_vector_gm_data t c <> 1 -> imcdf_is_vector_gm_data t c = 0)
  /\ (imcdf_is_scalar_gm_data t c = 1 <->
        t = IMCDF_VARTYPE_GEOMAGNETIC_FIELD_ELEMENT /\ toupper (deref c) ∈ scalar_codes)
  /\ (imcdf_is_scalar_gm_data t c <> 1 -> imcdf_is_scalar_gm_data t c = 0)
  /\ (t <> IMCDF_VARTYPE_GEOMAGNETIC_FIELD_ELEMENT ->
        imcdf_is_vector_gm_data t c = 0 /\ imcdf_is_scalar_gm_data t c = 0)
  /\ imcdf_is_vector_gm_data IMCDF_VARTYPE_GEOMAGNETIC_FIELD_ELEMENT "H" = 1
  /\ imcdf_is_vector_gm_data IMCDF_VARTYPE_GEOMAGNETIC_FIELD_ELEMENT "S" = 0
  /\ imcdf_is_scalar_gm_data IMCDF_VARTYPE_GEOMAGNETIC_FIELD_ELEMENT "S" = 1
  /\ imcdf_is_vector_gm_data IMCDF_VARTYPE_TEMPERATURE "1" = 0.
Proof.
  rewrite is_vector_char, is_scalar_char.
  repeat split; try reflexivity;
    repeat case_decide; repeat case_bool_decide;
    try tauto; try congruence; try lia; intros; try tauto; try lia.
Qed.

(** C10: for every type and every code [s] (the empty one included, whose
    first character is the terminating NUL), the two classification
    functions give on [s] the value that they give on the one-character
    string holding [toupper (s[0])]; "h" and "Hxyz" are classified as "H"
    is. *)
Theorem classification_depends_on_first_char (t : IMCDFVariableType) (s : string) :
  imcdf_is_vector_gm_data t s = imcdf_is_vector_gm_data t (one_char (toupper (deref s)))
  /\ imcdf_is_scalar_gm_data t s = imcdf_is_scalar_gm_data t (one_char (toupper (deref s)))
  /\ imcdf_is_vector_gm_data t "h" = imcdf_is_vector_gm_data t "H"
  /\ imcdf_is_vector_gm_data t "Hxyz" = imcdf_is_vector_gm_data t "H"
  /\ imcdf_is_scalar_gm_data t "h" = imcdf_is_scalar_gm_data t "H"
  /\ imcdf_is_scalar_gm_data t "Hxyz" = imcdf_is_scalar_gm_data t "H".
Proof.
  rewrite !is_vector_char, !is_scalar_char. cbn [deref one_char].
  rewrite toupper_idempotent.
  repeat split; reflexivity.
Qed.

(** ** TT2000 arrays *)

Lemma wrap64_id (z : Z) : LLONG_MIN <= z <= LLONG_MAX -> wrap64 z = z.
Proof.
  unfold wrap64, LLONG_MIN, LLONG_MAX. intros Hz.
  rewrite Z.mod_small by lia. lia.
Qed.

Lemma wrap64_add_l (a b : Z) : wrap64 (wrap64 a + b) = wrap64 (a + b).
Proof.
  unfold wrap64.
  replace ((a + 2 ^ 63) mod 2 ^ 64 - 2 ^ 63 + b + 2 ^ 63)
    with ((a + 2 ^ 63) mod 2 ^ 64 + b) by lia.
  rewrite Zplus_mod_idemp_l. f_equal. f_equal. lia.
Qed.

Lemma wrap64_add_r (a b : Z) : wrap64 (a + wrap64 b) = wrap64 (a + b).
Proof. rewrite (Z.add_comm a), wrap64_add_l. f_equal. lia. Qed.

Lemma wrap32_id (z : Z) : Double.INT_MIN <= z <= Double.INT_MAX -> wrap32 z = z.
Proof.
  unfold wrap32, Double.INT_MIN, Double.INT_MAX. intros Hz.
  rewrite Z.mod_small by lia. lia.
Qed.

Section TT2000_facts.

Context `{CDFTime}.

Lemma fill_tt2000_length (n : nat) (t inc : Z) : length (fill_tt2000 n t inc) = n.
Proof. revert t. induction n as [| n IH]; intros t; cbn; [reflexivity |]. now rewrite IH. Qed.

Lemma fill_tt2000_lookup (n : nat) (t inc : Z) (i : nat) :
  (i < n)%nat ->
  fill_tt2000 n (wrap64 t) inc !! i = Some (wrap64 (t + Z.of_nat i * inc * 1000000000)).
Proof.
  revert t i. induction n as [| n IH]; intros t i Hi; [lia |].
  destruct i as [| i]; cbn [fill_tt2000 lookup list_lookup].
  - do 2 f_equal. lia.
  - unfold imcdf_tt2000_inc. rewrite wrap64_add_l, wrap64_add_r.
    rewrite IH by lia. do 2 f_equal. lia.
Qed.

End TT2000_facts.

Section TT2000_claims.

Context `{CDFTime}.

(** C7, amended: for every valid calendar start date, every increment that
    is an [int] and every count from 2 to [INT_MAX],
    [imcdf_make_tt2000_array] returns an array of [count] stamps whose
    [i]-th element is the start epoch plus [i * increment * 1e9]
    nanoseconds reduced to the 64 bits of a [long long], hence that very
    sum whenever the sum is a [long long]; and
    [imcdf_calc_samp_per_from_tt2000] returns the increment for it, reading
    the first two entries only. *)
Theorem make_tt2000_array_spacing
  (year month day hour min sec increment n_samples : Z) (s : globals) :
  let start :=
    CDF_TT2000_from_UTC_parts (Double.of_Z year) (Double.of_Z month) (Double.of_Z day)
      (Double.of_Z hour) (Double.of_Z min) (Double.of_Z sec)
      (S754_zero false) (S754_zero false) (S754_zero false) in
  start <> ILLEGAL_TT2000_VALUE ->
  Double.INT_MIN <= increment <= Double.INT_MAX ->
  2 <= n_samples <= Double.INT_MAX ->
  exists arr,
    fst (imcdf_make_tt2000_array year month day hour min sec increment n_samples s)
      = Some arr
    /\ Z.of_nat (length arr) = n_samples
    /\ (forall i, 0 <= i < n_samples ->
          arr !! Z.to_nat i = Some (wrap64 (start + i * increment * 1000000000)))
    /\ (forall i, 0 <= i < n_samples ->
          LLONG_MIN <= start + i * increment * 1000000000 <= LLONG_MAX ->
          arr !! Z.to_nat i = Some (start + i * increment * 1000000000))
    /\ imcdf_calc_samp_per_from_tt2000 arr = Some increment
    /\ (forall rest, imcdf_calc_samp_per_from_tt2000 (take 2 arr ++ rest) = Some increment).
Proof.
  intros start Hstart Hinc Hn.
  pose proof (CDF_TT2000_from_UTC_parts_range (Double.of_Z year) (Double.of_Z month)
                (Double.of_Z day) (Double.of_Z hour) (Double.of_Z min) (Double.of_Z sec)
                (S754_zero false) (S754_zero false) (S754_zero false)) as Hrange.
  fold start in Hrange.
  exists (fill_tt2000 (Z.to_nat n_samples) start increment).
  assert (Hlookup : forall i, 0 <= i < n_samples ->
            fill_tt2000 (Z.to_nat n_samples) start increment !! Z.to_nat i
            = Some (wrap64 (start + i * increment * 1000000000))).
  { intros i Hi. rewrite <- (wrap64_id start) at 1 by exact Hrange.
    rewrite fill_tt2000_lookup by lia. rewrite Z2Nat.id by lia. reflexivity. }
  assert (Hcalc : forall rest,
            imcdf_calc_samp_per_from_tt2000
              (take 2 (fill_tt2000 (Z.to_nat n_samples) start increment) ++ rest)
            = Some increment).
  { intros rest.
    destruct (Z.to_nat n_samples) as [| [| n]] eqn:En; [lia | lia |].
    cbn [fill_tt2000 take app imcdf_calc_samp_per_from_tt2000].
    unfold imcdf_tt2000_inc. f_equal.
    replace (wrap64 (start + wrap64 (increment * 1000000000)) - start)
      with (wrap64 (start + wrap64 (increment * 1000000000)) + - start) by lia.
    rewrite wrap64_add_l.
    replace (start + wrap64 (increment * 1000000000) + - start)
      with (0 + wrap64 (increment * 1000000000)) by lia.
    rewrite wrap64_add_r, Z.add_0_l.
    rewrite wrap64_id
      by (unfold LLONG_MIN, LLONG_MAX, Double.INT_MIN, Double.INT_MAX in *; lia).
    rewrite Z.quot_mul by lia. apply wrap32_id, Hinc. }
  repeat split.
  - unfold imcdf_make_tt2000_array, imcdf_date_time_to_tt2000.
    destruct (Z.ltb_spec n_samples 0) as [Hneg | _]; [lia |].
    fold start. destruct (Z.eqb_spec start ILLEGAL_TT2000_VALUE) as [E | _]; [tauto |].
    reflexivity.
  - rewrite fill_tt2000_length. lia.
  - exact Hlookup.
  - intros i Hi Hfit. rewrite Hlookup by exact Hi. now rewrite wrap64_id.
  - specialize (Hcalc []).
    destruct (Z.to_nat n_samples) as [| [| n]] eqn:En; [lia | lia |].
    exact Hcalc.
  - exact Hcalc.
Qed.

End TT2000_claims.

Lemma make_tt2000_array_spacing_witness :
  exists arr,
    fst (imcdf_make_tt2000_array (H := example_time) 1980 1 1 0 0 0 60 1440
           (one_open empty_cdf 0)) = Some arr
    /\ arr !! 2%nat = Some (TT2000_1980 + 2 * 60 * 1000000000)
    /\ imcdf_calc_samp_per_from_tt2000 arr = Some 60.
Proof.
  destruct (make_tt2000_array_spacing (H := example_time) 1980 1 1 0 0 0 60 1440
              (one_open empty_cdf 0))
    as (arr & Harr & _ & _ & Hexact & Hper & _).
  - vm_compute. discriminate.
  - vm_compute. split; discriminate.
  - vm_compute. split; discriminate.
  - exists arr. split; [exact Harr |]. split; [| exact Hper].
    apply (Hexact 2); vm_compute; split; congruence.
Defined.

(** C7, as stated, fails: from 1980-01-01T00:00:00 with an increment of
    2147483647 seconds, the sixth of six stamps would lie beyond the last
    TT2000 value; the element stored is another number. *)
Lemma make_tt2000_array_overflow :
  exists arr,
    fst (imcdf_make_tt2000_array (H := example_time) 1980 1 1 0 0 0 2147483647 6
           (one_open empty_cdf 0)) = Some arr
    /\ arr !! 5%nat = Some (-8340520987525551616)
    /\ arr !! 5%nat <> Some (TT2000_1980 + 5 * 2147483647 * 1000000000)
    /\ LLONG_MAX < TT2000_1980 + 5 * 2147483647 * 1000000000.
Proof.
  eexists. split; [vm_compute; reflexivity |].
  split; [reflexivity |]. split; [vm_compute; congruence | reflexivity].
Qed.

(** ** File names *)

Lemma lower_from_app (p r : string) :
  lower_from (String.length p) (p +:+ r) = p +:+ strmap tolower r.
Proof.
  induction p as [| c p IH]; [reflexivity |].
  change (String c p +:+ r) with (String c (p +:+ r)).
  change (String c p +:+ strmap tolower r) with (String c (p +:+ strmap tolower r)).
  cbn [String.length lower_from]. now rewrite IH.
Qed.

Lemma append_assoc (a b c : string) : (a +:+ b) +:+ c = a +:+ (b +:+ c).
Proof.
  induction a as [| x a IH]; [reflexivity |].
  change ((String x a +:+ b) +:+ c) with (String x ((a +:+ b) +:+ c)).
  now rewrite IH.
Qed.

Section Filename_claims.

Context `{CDFTime}.

(** C4, amended: [imcdf_make_filename] does no input or output and its
    result is a function of its arguments alone: prefix, then station code,
    "_", the date fragment whose precision the coverage sets, "_", the
    cadence tag, "_", the publication level code and ".cdf", every
    character after the prefix being lower-cased when the flag is set.  It
    has one side effect: the last CDF status is reset to [CDF_OK].  For
    1980-01-01T00:00:00, cadence minute, coverage daily, station "AFO",
    publication level 1, lower case and an empty prefix the result is
    "afo_19800101_pt1m_1.cdf". *)
Theorem make_filename_assembly
  (prefix : option string) (station_code : string) (start_date : Z)
  (pub_level : IMCDFPubLevel) (cadence coverage : IMCDFInterval)
  (force_lower_case : bool) (s : globals) :
  let p := CDF_TT2000_to_UTC_parts start_date in
  let year := fmt_0d 4 (Double.to_int (d_year p)) in
  let month := fmt_0d 2 (Double.to_int (d_month p)) in
  let day := fmt_0d 2 (Double.to_int (d_day p)) in
  let hour := fmt_0d 2 (Double.to_int (d_hour p)) in
  let min := fmt_0d 2 (Double.to_int (d_min p)) in
  let sec := fmt_0d 2 (Double.to_int (Double.add (d_sec p) Double.half)) in
  let fragment :=
    match coverage with
    | IMCDF_INT_ANNUAL => year
    | IMCDF_INT_MONTHLY => year +:+ month
    | IMCDF_INT_DAILY => year +:+ month +:+ day
    | IMCDF_INT_HOURLY => year +:+ month +:+ day +:+ "_" +:+ hour
    | IMCDF_INT_MINUTE => year +:+ month +:+ day +:+ "_" +:+ hour +:+ min
    | IMCDF_INT_SECOND | IMCDF_INT_OTHER =>
        year +:+ month +:+ day +:+ "_" +:+ hour +:+ min +:+ sec
    end in
  let tag :=
    match cadence with
    | IMCDF_INT_ANNUAL => "p1y"
    | IMCDF_INT_MONTHLY => "p1m"
    | IMCDF_INT_DAILY => "p1d"
    | IMCDF_INT_HOURLY => "pt1h"
    | IMCDF_INT_MINUTE => "pt1m"
    | IMCDF_INT_SECOND => "pt1s"
    | IMCDF_INT_OTHER => "unkn"
    end in
  let level :=
    match pub_level with
    | IMCDF_PUBLEVEL_1 => "1"
    | IMCDF_PUBLEVEL_2 => "2"
    | IMCDF_PUBLEVEL_3 => "3"
    | IMCDF_PUBLEVEL_4 => "4"
    end in
  let tail := station_code +:+ "_" +:+ fragment +:+ "_" +:+ tag +:+ "_" +:+ level +:+ ".cdf" in
  imcdf_make_filename prefix station_code start_date pub_level cadence coverage
    force_lower_case s
  = (default EmptyString prefix +:+ (if force_lower_case then strmap tolower tail else tail),
     {| cdf_ids := cdf_ids s; cdf_index := cdf_index s; cdf_status := CDF_OK |})
  /\ (p = utc 1980 1 1 0 0 0 ->
      fst (imcdf_make_filename (Some EmptyString) "AFO" start_date IMCDF_PUBLEVEL_1
             IMCDF_INT_MINUTE IMCDF_INT_DAILY true s)
      = "afo_19800101_pt1m_1.cdf").
Proof.
  intros p year month day hour min sec fragment tag level tail.
  assert (Hgen : forall pre st pl cad cov flc,
    imcdf_make_filename pre st start_date pl cad cov flc s
    = (let fr := match cov with
                 | IMCDF_INT_ANNUAL => year
                 | IMCDF_INT_MONTHLY => year +:+ month
                 | IMCDF_INT_DAILY => year +:+ month +:+ day
                 | IMCDF_INT_HOURLY => year +:+ month +:+ day +:+ "_" +:+ hour
                 | IMCDF_INT_MINUTE => year +:+ month +:+ day +:+ "_" +:+ hour +:+ min
                 | _ => year +:+ month +:+ day +:+ "_" +:+ hour +:+ min +:+ sec
                 end in
       let tg := match cad with
                 | IMCDF_INT_ANNUAL => "p1y" | IMCDF_INT_MONTHLY => "p1m"
                 | IMCDF_INT_DAILY => "p1d" | IMCDF_INT_HOURLY => "pt1h"
                 | IMCDF_INT_MINUTE => "pt1m" | IMCDF_INT_SECOND => "pt1s"
                 | _ => "unkn"
                 end in
       let tl := st +:+ "_" +:+ fr +:+ "_" +:+ tg +:+ "_"
                   +:+ imcdf_pub_level_code_tostring pl +:+ ".cdf" in
       (default EmptyString pre +:+ (if flc then strmap tolower tl else tl),
        {| cdf_ids := cdf_ids s; cdf_index := cdf_index s; cdf_status := CDF_OK |}))).
  { intros pre st pl cad cov flc.
    unfold imcdf_make_filename, imcdf_tt2000_to_date_time. run_monad.
    fold p. fold year month day hour min sec.
    destruct pre as [pre |]; cbn [default id];
      destruct cov; rewrite ?append_assoc;
      destruct flc; try reflexivity; f_equal.
    all: try apply lower_from_app.
    all: apply (lower_from_app EmptyString). }
  split.
  - rewrite Hgen. destruct pub_level, cadence, coverage; reflexivity.
  - intros Hp. rewrite Hgen. subst year month day hour min sec.
    rewrite Hp. vm_compute. reflexivity.
Qed.

End Filename_claims.

Lemma make_filename_assembly_witness :
  CDF_TT2000_to_UTC_parts (CDFTime := example_time) TT2000_1980 = utc 1980 1 1 0 0 0
  /\ fst (imcdf_make_filename (H := example_time) (Some EmptyString) "AFO" TT2000_1980
            IMCDF_PUBLEVEL_1 IMCDF_INT_MINUTE IMCDF_INT_DAILY true (one_open empty_cdf 0))
     = "afo_19800101_pt1m_1.cdf".
Proof.
  split; [reflexivity |].
  apply (make_filename_assembly (H := example_time) (Some EmptyString) "AFO" TT2000_1980
           IMCDF_PUBLEVEL_1 IMCDF_INT_MINUTE IMCDF_INT_DAILY true (one_open empty_cdf 0)).
  reflexivity.
Defined.

(** C4, as stated, fails on "pure": a call of [imcdf_make_filename] changes
    what [imcdf_get_last_status_code] returns, here from [NO_SUCH_ATTR] to
    [CDF_OK]. *)
Lemma make_filename_resets_status :
  let s := one_open empty_cdf NO_SUCH_ATTR in
  let s' := snd (imcdf_make_filename (H := example_time) (Some EmptyString) "AFO" TT2000_1980
                   IMCDF_PUBLEVEL_1 IMCDF_INT_MINUTE IMCDF_INT_DAILY true s) in
  fst (imcdf_get_last_status_code s) = NO_SUCH_ATTR
  /\ fst (imcdf_get_last_status_code s') = CDF_OK
  /\ s' <> s.
Proof.
  split; [reflexivity |]. split; [reflexivity |].
  vm_compute. intros E. discriminate E.
Qed.

(** ** The table of handles *)

Lemma sanity_check_valid (s : globals) (h : Z) :
  valid_handle s h -> sanity_check_handles h s = (0, s).
Proof.
  intros [H0 H1]. unfold sanity_check_handles, initialise_cdf_ids. run_monad.
  destruct (Z.ltb_spec (cdf_index s) 0); [lia |]. cbn.
  destruct (Z.ltb_spec h 0); [lia |].
  destruct (Z.geb_spec h (cdf_index s)); [lia | reflexivity].
Qed.

Lemma sanity_check_invalid (s : globals) (h : Z) :
  ~ valid_handle s h -> exists s', sanity_check_handles h s = (-1, s').
Proof.
  intros Hv. unfold valid_handle in Hv.
  unfold sanity_check_handles, initialise_cdf_ids. run_monad.
  destruct (Z.ltb_spec (cdf_index s) 0); cbn.
  - destruct (Z.ltb_spec h 0); [eauto |].
    destruct (Z.geb_spec h 0); [eauto | lia].
  - destruct (Z.ltb_spec h 0); [eauto |].
    destruct (Z.geb_spec h (cdf_index s)); [eauto | lia].
Qed.

Lemma valid_with_status (s : globals) (h st : Z) :
  valid_handle s h -> valid_handle (with_status s st) h.
Proof. exact (fun H => H). Qed.

Lemma id_at_with_status (s : globals) (h st : Z) : id_at (with_status s st) h = id_at s h.
Proof. reflexivity. Qed.

(** ** Reading global attributes *)

Lemma get_global_attribute_run {A : Type} (ty : Z) (dec : value -> option A)
  (h : Z) (name : string) (e : Z) (s : globals) :
  valid_handle s h ->
  get_global_attribute ty dec h name e s
  = (fst (read_global ty dec (id_at s h) name e),
     with_status s (snd (read_global ty dec (id_at s h) name e))).
Proof.
  intros Hv. unfold get_global_attribute.
  rewrite bind_run, (sanity_check_valid s h Hv). cbn [fst snd Z.eqb negb].
  unfold read_global, with_status.
  step. destruct (CDFattrNum (id_at s h) name <? 0); [reflexivity |].
  step. destruct (CDFinquireAttrgEntry _ _ _) as [[st ty'] n].
  step. destruct (st <? 0); [reflexivity |].
  destruct (negb (ty' =? ty)); [reflexivity |].
  step. destruct (CDFgetAttrgEntry _ _ _) as [st' v].
  step. destruct (st' <? 0); reflexivity.
Qed.

Lemma get_global_attribute_invalid {A : Type} (ty : Z) (dec : value -> option A)
  (h : Z) (name : string) (e : Z) (s : globals) :
  ~ valid_handle s h ->
  exists s', get_global_attribute ty dec h name e s = (None, s').
Proof.
  intros Hv. destruct (sanity_check_invalid s h Hv) as [s' Hs'].
  unfold get_global_attribute. run_monad. rewrite Hs'. cbn. eauto.
Qed.

Lemma not_found_read_global {A : Type} (ty : Z) (dec : value -> option A)
  (id : CDFid) (name : string) (e : Z) :
  not_found id name e -> fst (read_global ty dec id name e) = None.
Proof.
  unfold not_found, read_global. intros [Hn | [H0 Hn]].
  - rewrite Hn. reflexivity.
  - destruct (Z.ltb_spec (CDFattrNum id name) 0); [reflexivity |].
    destruct (CDFinquireAttrgEntry (CDFattrNum id name) e id) as [[st ty'] n].
    cbn in Hn. subst st. reflexivity.
Qed.

Lemma prefix_append (a b : string) : String.prefix a (a +:+ b) = true.
Proof.
  induction a as [| x a IH]; [destruct b; reflexivity |].
  change (String x a +:+ b) with (String x (a +:+ b)). cbn [String.prefix].
  destruct (ascii_dec x x) as [_ | Hne]; [exact IH | congruence].
Qed.

Lemma format_error_message_run (msg : string) (param : option string) (st : Z)
  (s : globals) :
  exists m, format_error_message msg param st s = (m, s) /\ String.prefix msg m = true.
Proof.
  unfold format_error_message.
  destruct (negb (st =? CDF_OK)); step; eexists; (split; [reflexivity |]);
    destruct param as [p |]; rewrite ?append_assoc;
    try apply prefix_append; rewrite <- (prefix_append msg EmptyString); f_equal;
    clear; induction msg as [| c m IH]; [reflexivity |];
    change (String c m +:+ EmptyString) with (String c (m +:+ EmptyString)); now rewrite <- IH.
Qed.

Lemma format_error_message_ok (msg : string) (param : option string) (s : globals) :
  format_error_message msg param CDF_OK s
  = (match param with Some p => msg +:+ ": " +:+ p | None => msg end, s).
Proof. reflexivity. Qed.

(** The failure branch of [or_return]. *)
Lemma or_return_fail {A R : Type} (call : M (option A)) (msg param : string)
  (rest : A -> M (string + R)) (s s1 : globals) :
  call s = (None, s1) ->
  exists m, or_return call msg param rest s = (inl m, s1)
            /\ String.prefix msg m = true.
Proof.
  intros Hcall. unfold or_return. rewrite bind_run, Hcall. step.
  destruct (format_error_message_run msg (Some param) (cdf_status s1) s1) as (m & Hm & Hp).
  rewrite Hm. step. eauto.
Qed.

Lemma or_return_ok {A R : Type} (call : M (option A)) (msg param : string)
  (rest : A -> M (string + R)) (s s1 : globals) (v : A) :
  call s = (Some v, s1) -> or_return call msg param rest s = rest v s1.
Proof. intros Hcall. unfold or_return. rewrite bind_run, Hcall. reflexivity. Qed.

(** Elimination rules for the steps of [get_the_global_attributes], for a
    valid handle that designates [id]: the state that is passed on has the
    same table of identifiers. *)
Lemma required_elim {A R : Type} (P : (string + R) * globals -> Prop)
  (ty : Z) (dec : value -> option A) (h : Z) (name : string) (e : Z)
  (msg param : string) (rest : A -> M (string + R)) (id : CDFid) (s : globals) :
  valid_handle s h -> id_at s h = id ->
  (forall s' v, valid_handle s' h -> id_at s' h = id ->
                fst (read_global ty dec id name e) = Some v -> P (rest v s')) ->
  (forall m s', fst (read_global ty dec id name e) = None ->
                String.prefix msg m = true -> P (inl m, s')) ->
  P (or_return (get_global_attribute ty dec h name e) msg param rest s).
Proof.
  intros Hv <- Hsome Hnone.
  pose proof (get_global_attribute_run ty dec h name e s Hv) as Hrun.
  destruct (fst (read_global ty dec (id_at s h) name e)) as [v |] eqn:E.
  - rewrite (or_return_ok _ _ _ _ _ _ _ Hrun). apply Hsome; [exact Hv | reflexivity | reflexivity].
  - destruct (or_return_fail _ msg param rest _ _ Hrun) as (m & -> & Hp).
    apply Hnone; [reflexivity | exact Hp].
Qed.

Lemma optional_elim {A B : Type} (P : B * globals -> Prop)
  (ty : Z) (dec : value -> option A) (h : Z) (name : string) (e : Z)
  (rest : option A -> M B) (id : CDFid) (s : globals) :
  valid_handle s h -> id_at s h = id ->
  (forall s', valid_handle s' h -> id_at s' h = id ->
              P (rest (fst (read_global ty dec id name e)) s')) ->
  P ((get_global_attribute ty dec h name e ≫= rest) s).
Proof.
  intros Hv <- Hrest. rewrite bind_run, (get_global_attribute_run ty dec h name e s Hv).
  apply Hrest; [exact Hv | reflexivity].
Qed.

(** *** The probing loops *)

Lemma max_entry_number_ge (m : gmap Z value) (k : Z) (v : value) :
  m !! k = Some v -> k <= max_entry_number m.
Proof.
  intros Hk. apply elem_of_map_to_list in Hk. unfold max_entry_number.
  induction (map_to_list m) as [| [k' v'] l IH]; [inversion Hk |].
  cbn [foldr fst]. apply elem_of_cons in Hk as [Hk | Hk].
  - inversion Hk; subst. lia.
  - specialize (IH Hk). lia.
Qed.

Lemma read_global_entry {A : Type} (ty : Z) (dec : value -> option A)
  (id : CDFid) (name : string) (e : Z) (x : A) :
  fst (read_global ty dec id name e) = Some x ->
  exists c a v,
    id = Some c
    /\ nth_at (attributes c) (CDFattrNum id name) = Some a
    /\ g_entries a !! e = Some v.
Proof.
  unfold read_global.
  destruct (CDFattrNum id name <? 0); [discriminate |].
  unfold CDFinquireAttrgEntry, inquire_entry, CDFgetAttrgEntry, get_entry.
  destruct id as [c |]; [| discriminate].
  destruct (nth_at (attributes c) (CDFattrNum (Some c) name)) as [a |] eqn:Ha;
    [| discriminate].
  destruct (g_entries a !! e) as [v |] eqn:Hv; [| discriminate].
  intros _. exists c, a, v. auto.
Qed.

(** No entry can be read at or beyond the fuel of the loop. *)
Lemma read_string_beyond_bound (s : globals) (h : Z) (name : string) (k : Z) :
  Z.of_nat (fst (entry_bound h name s)) <= k ->
  read_string (id_at s h) name k = None.
Proof.
  intros Hk. destruct (read_string (id_at s h) name k) as [x |] eqn:E; [| reflexivity].
  exfalso. apply read_global_entry in E as (c & a & v & Hid & Ha & Hv).
  unfold entry_bound in Hk. cbn [fst] in Hk. rewrite Hid in Hk, Ha. rewrite Ha in Hk.
  apply max_entry_number_ge in Hv. lia.
Qed.

Lemma read_entries_probed (h : Z) (name : string) (id : CDFid) (fuel : nat) :
  forall (n : Z) (found : list string) (s : globals),
    valid_handle s h -> id_at s h = id ->
    n = Z.of_nat (length found) ->
    (forall i : nat, (i < length found)%nat -> read_string id name (Z.of_nat i) = found !! i) ->
    (forall k, n + Z.of_nat fuel <= k -> read_string id name k = None) ->
    exists l n' s',
      read_entries fuel h name n found s = ((l, n'), s')
      /\ valid_handle s' h /\ id_at s' h = id /\ probed id name l n'.
Proof.
  induction fuel as [| fuel IH]; intros n found s Hv Hid Hn Hfound Hbeyond.
  - exists found, n, s. cbn [read_entries].
    split; [reflexivity |]. split; [exact Hv |]. split; [exact Hid |].
    split; [exact Hn |]. split; [exact Hfound |]. apply Hbeyond. lia.
  - cbn [read_entries]. unfold imcdf_get_global_attribute_string.
    rewrite bind_run, (get_global_attribute_run _ _ _ _ _ _ Hv). cbn [fst snd].
    rewrite Hid. fold (read_string id name n).
    destruct (read_string id name n) as [str |] eqn:E.
    + apply IH.
      * exact Hv.
      * exact Hid.
      * rewrite length_app. cbn [length]. lia.
      * intros i Hi. rewrite length_app in Hi. cbn [length] in Hi.
        destruct (decide (i < length found)%nat) as [Hlt | Hge].
        -- rewrite lookup_app_l by exact Hlt. apply Hfound, Hlt.
        -- assert (i = length found) as -> by lia.
           rewrite <- Hn, E. rewrite lookup_app_r by lia.
           now rewrite Nat.sub_diag.
      * intros k Hk. apply Hbeyond. lia.
    + exists found, n, (with_status s (snd (read_global CDF_CHAR as_char id name n))).
      split; [reflexivity |]. split; [exact Hv |]. split; [exact Hid |].
      split; [exact Hn |]. split; [exact Hfound | exact E].
Qed.

Lemma probing_elim {B : Type} (P : B * globals -> Prop) (h : Z) (name : string)
  (rest : list string * Z -> M B) (id : CDFid) (s : globals) :
  valid_handle s h -> id_at s h = id ->
  (forall s' l n, valid_handle s' h -> id_at s' h = id ->
                  probed id name l n -> P (rest (l, n) s')) ->
  P ((entry_bound h name ≫= fun fuel => read_entries fuel h name 0 [] ≫= rest) s).
Proof.
  intros Hv <- Hrest. rewrite bind_run.
  change (snd (entry_bound h name s)) with s.
  destruct (read_entries_probed h name (id_at s h) (fst (entry_bound h name s)) 0 [] s)
    as (l & n & s' & Hrun & Hv' & Hid' & Hp); try (reflexivity || assumption).
  - intros i Hi. inversion Hi.
  - intros k Hk. apply read_string_beyond_bound. lia.
  - rewrite bind_run, Hrun. apply Hrest; assumption.
Qed.

(** *** The whole block *)

(** A read that failed contradicts the presence of the required
    attributes. *)
Ltac absent :=
  let Hs := fresh in
  let Ht := fresh in
  let Hd := fresh in
  intros (Hs & Ht & Hd);
  unfold required_strings, required_doubles in *;
  repeat match goal with
         | H : Forall _ (_ :: _) |- _ => apply Forall_cons in H as [? H]
         end;
  unfold read_string, read_double, read_tt2000 in *;
  match goal with
  | Hn : ?x = None, Hp : is_Some ?x |- _ => rewrite Hn in Hp; destruct Hp; discriminate
  end.

Lemma get_the_global_attributes_cases (h : Z) (s : globals) :
  valid_handle s h ->
  (exists m, fst (get_the_global_attributes h s) = inl m
             /\ String.prefix "Error reading global attribute" m = true
             /\ ~ required_present (id_at s h))
  \/ (exists ga, fst (get_the_global_attributes h s) = inr ga
                 /\ assembled_from (id_at s h) ga).
Proof.
  intros Hv. set (id := id_at s h). assert (Hid : id_at s h = id) by reflexivity.
  clearbody id.
  set (P := fun r : (string + IMCDFGlobalAttr) * globals =>
              (exists m, fst r = inl m
                         /\ String.prefix "Error reading global attribute" m = true
                         /\ ~ required_present id)
              \/ (exists ga, fst r = inr ga /\ assembled_from id ga)).
  change (P (get_the_global_attributes h s)).
  unfold get_the_global_attributes, imcdf_get_global_attribute_string,
    imcdf_get_global_attribute_double, imcdf_get_global_attribute_tt2000.
  cbn zeta.
  repeat
    (first
       [ apply (required_elim P _ _ _ _ _ _ _ _ id);
         [ assumption | assumption
         | clear dependent s; intros s ? Hv Hid ?
         | intros m ? ? ?; left; exists m; split; [reflexivity |];
           split; [assumption | absent] ]
       | apply (optional_elim P _ _ _ _ _ _ id);
         [ assumption | assumption | clear dependent s; intros s Hv Hid ]
       | apply (probing_elim P _ _ _ id);
         [ assumption | assumption | clear dependent s; intros s ? ? Hv Hid ? ] ]).
  right. eexists. split; [reflexivity |].
  unfold assembled_from, read_string, read_double, read_tt2000.
  cbn [format_description format_version title iaga_code elements_recorded pub_level
       pub_date observatory_name latitude longitude elevation institution
       vector_sens_orient standard_level standard_name standard_version
       partial_stand_desc source terms_of_use unique_identifier parent_identifiers
       n_parent_identifiers reference_links n_reference_links].
  repeat match goal with
         | H : fst (read_global _ _ _ _ _) = Some _ |- _ => rewrite H; clear H
         end.
  repeat match goal with |- _ /\ _ => split end; first [assumption | reflexivity].
Qed.

Lemma get_the_global_attributes_invalid (h : Z) (s : globals) :
  ~ valid_handle s h ->
  exists m s', get_the_global_attributes h s = (inl m, s')
               /\ String.prefix "Error reading global attribute" m = true.
Proof.
  intros Hv. unfold get_the_global_attributes. cbn zeta.
  destruct (get_global_attribute_invalid CDF_CHAR as_char h "FormatDescription" 0 s Hv)
    as [s' Hs'].
  unfold imcdf_get_global_attribute_string at 1.
  unfold or_return at 1. rewrite bind_run, Hs'. step.
  destruct (format_error_message_run "Error reading global attribute"
              (Some "FormatDescription") (cdf_status s') s') as (m' & Hm' & Hp').
  rewrite Hm'. step. eauto.
Qed.

(** ** The check of the metadata *)

Lemma check_metadata_run (ga : IMCDFGlobalAttr) (s : globals) :
  check_metadata ga s
  = (if negb (strcasecmp (title ga) TITLE =? 0)
     then Some ("Title of data incorrect: " +:+ title ga)
     else if negb (strcasecmp (format_description ga) FORMAT_DESCRIPTION =? 0)
     then Some ("Description of data incorrect: " +:+ format_description ga)
     else if (imcdf_version (format_version ga) <? 11)
             || (imcdf_version (format_version ga) >? 13)
     then Some ("Format incorrect: " +:+ format_version ga)
     else None, s).
Proof.
  unfold check_metadata.
  repeat match goal with
         | |- context [if ?b then _ else _] => destruct b
         end;
    rewrite ?fmap_run, ?format_error_message_ok; reflexivity.
Qed.

Lemma check_metadata_valid (ga : IMCDFGlobalAttr) (s : globals) :
  fst (check_metadata ga s) = None
  <-> metadata_valid (title ga) (format_description ga) (format_version ga).
Proof.
  rewrite check_metadata_run. unfold metadata_valid. cbn [fst].
  destruct (Z.eqb_spec (strcasecmp (title ga) TITLE) 0);
    destruct (Z.eqb_spec (strcasecmp (format_description ga) FORMAT_DESCRIPTION) 0);
    destruct (Z.ltb_spec (imcdf_version (format_version ga)) 11);
    destruct (Z.gtb_spec (imcdf_version (format_version ga)) 13);
    cbn [negb orb]; split; intros Hx; try discriminate Hx; try reflexivity;
    try (split; [assumption | split; [assumption | lia]]);
    destruct Hx as (? & ? & ?); try contradiction; lia.
Qed.

Lemma read_global_attrs_run (h : Z) (s : globals) :
  imcdf_read_global_attrs h s
  = match get_the_global_attributes h s with
    | (inl m, s1) => (inl m, s1)
    | (inr ga, s1) =>
        (match fst (check_metadata ga s1) with
         | Some m => inl m
         | None => inr ga
         end, s1)
    end.
Proof.
  unfold imcdf_read_global_attrs. rewrite bind_run.
  destruct (get_the_global_attributes h s) as [[m | ga] s1]; [reflexivity |].
  cbn [fst snd]. rewrite bind_run, check_metadata_run. cbn [fst snd].
  repeat match goal with
         | |- context [if ?b then _ else _] => destruct b
         end; reflexivity.
Qed.

(** A read succeeds exactly when the handle is valid, the required
    attributes are present and the three checks pass; the structure then
    holds what the CDF holds. *)
Lemma read_global_attrs_success (h : Z) (s : globals) (ga : IMCDFGlobalAttr) :
  fst (imcdf_read_global_attrs h s) = inr ga ->
  valid_handle s h
  /\ assembled_from (id_at s h) ga
  /\ metadata_valid (title ga) (format_description ga) (format_version ga).
Proof.
  rewrite read_global_attrs_run. intros Hr.
  destruct (decide (valid_handle s h)) as [Hv | Hv].
  - split; [exact Hv |].
    destruct (get_the_global_attributes_cases h s Hv) as [(m & Hm & _) | (ga' & Hga & Has)].
    + destruct (get_the_global_attributes h s) as [[m' | ga'] s1]; cbn in Hm, Hr;
        congruence.
    + destruct (get_the_global_attributes h s) as [[m' | ga''] s1]; cbn [fst] in Hga, Hr;
        [discriminate |].
      injection Hga as ->.
      destruct (fst (check_metadata ga' s1)) eqn:E; [discriminate |].
      injection Hr as ->. split; [exact Has |]. now apply (check_metadata_valid ga s1).
  - destruct (get_the_global_attributes_invalid h s Hv) as (m & s' & Hm & _).
    rewrite Hm in Hr. discriminate.
Qed.

Lemma read_global_attrs_complete (h : Z) (s : globals) :
  valid_handle s h ->
  required_present (id_at s h) ->
  (forall t d v,
      read_string (id_at s h) "Title" 0 = Some t ->
      read_string (id_at s h) "FormatDescription" 0 = Some d ->
      read_string (id_at s h) "FormatVersion" 0 = Some v ->
      metadata_valid t d v) ->
  exists ga, fst (imcdf_read_global_attrs h s) = inr ga.
Proof.
  intros Hv Hreq Hvalid. rewrite read_global_attrs_run.
  destruct (get_the_global_attributes_cases h s Hv) as [(m & _ & _ & Hn) | (ga & Hga & Has)];
    [contradiction |].
  destruct (get_the_global_attributes h s) as [[m' | ga'] s1]; cbn [fst] in Hga;
    [discriminate |].
  injection Hga as ->. exists ga. cbn [fst].
  pose proof Has as (Hd & Hfv & Ht & _).
  pose proof (proj2 (check_metadata_valid ga s1) (Hvalid _ _ _ Ht Hd Hfv)) as E.
  now rewrite E.
Qed.

(** C1: once [imcdf_read_global_attrs] has assembled the attributes, it
    returns the structure when the title and the format description equal
    the canonical strings without regard to case and the format version
    parses to a number of tenths from 11 to 13, and otherwise one of three
    validation messages, which carry no CDF status and none of which
    begins like the message of a failed read of the CDF; "1.0" and "1.4"
    give 10 and 14 tenths, "1.1", "1.2" and "1.3" give 11, 12 and 13.  What
    is said of a structure that does not pass the check is said for
    messages that fit the 200 bytes of the buffer in which
    [format_error_message] builds them. *)
Theorem read_global_attrs_validation (h : Z) (s : globals) (ga : IMCDFGlobalAttr) :
  fst (get_the_global_attributes h s) = inr ga ->
  let r := fst (imcdf_read_global_attrs h s) in
  (metadata_valid (title ga) (format_description ga) (format_version ga) ->
   r = inr ga
   /\ snd (imcdf_read_global_attrs h s) = snd (get_the_global_attributes h s))
  /\ (validation_messages_fit (title ga) (format_description ga) (format_version ga) ->
      (r = inr ga
       <-> metadata_valid (title ga) (format_description ga) (format_version ga))
      /\ (strcasecmp (title ga) TITLE <> 0 ->
          r = inl ("Title of data incorrect: " +:+ title ga))
      /\ (strcasecmp (title ga) TITLE = 0 ->
          strcasecmp (format_description ga) FORMAT_DESCRIPTION <> 0 ->
          r = inl ("Description of data incorrect: " +:+ format_description ga))
      /\ (strcasecmp (title ga) TITLE = 0 ->
          strcasecmp (format_description ga) FORMAT_DESCRIPTION = 0 ->
          ~ 11 <= imcdf_version (format_version ga) <= 13 ->
          r = inl ("Format incorrect: " +:+ format_version ga))
      /\ (forall m, r = inl m -> String.prefix "Error reading global attribute" m = false)
      /\ snd (imcdf_read_global_attrs h s) = snd (get_the_global_attributes h s))
  /\ (forall h' s' m,
        fst (get_the_global_attributes h' s') = inl m ->
        fst (imcdf_read_global_attrs h' s') = inl m
        /\ String.prefix "Error reading global attribute" m = true)
  /\ imcdf_version <$> ["1.0"; "1.1"; "1.2"; "1.3"; "1.4"] = [10; 11; 12; 13; 14].
Proof.
  intros Hga r. subst r. rewrite read_global_attrs_run.
  destruct (get_the_global_attributes h s) as [[m | ga'] s1] eqn:Eg; cbn [fst] in Hga;
    [discriminate |].
  injection Hga as ->. cbn [fst snd].
  pose proof (check_metadata_valid ga s1) as Hvalid.
  rewrite check_metadata_run in *. cbn [fst] in *.
  split; [| split; [| split]].
  - intros Hm. apply Hvalid in Hm. rewrite Hm. split; reflexivity.
  - intros _. split; [| split; [| split; [| split; [| split]]]].
    + rewrite <- Hvalid.
      repeat match goal with
             | |- context [if ?b then _ else _] => destruct b
             end; split; intros Hx; congruence.
    + intros Ht. destruct (Z.eqb_spec (strcasecmp (title ga) TITLE) 0); [contradiction |].
      reflexivity.
    + intros Ht Hd. rewrite Ht. cbn [Z.eqb negb].
      destruct (Z.eqb_spec (strcasecmp (format_description ga) FORMAT_DESCRIPTION) 0);
        [contradiction | reflexivity].
    + intros Ht Hd Hver. rewrite Ht, Hd. cbn [Z.eqb negb].
      destruct (Z.ltb_spec (imcdf_version (format_version ga)) 11);
        destruct (Z.gtb_spec (imcdf_version (format_version ga)) 13);
        cbn [orb]; try reflexivity. lia.
    + intros m.
      repeat match goal with
             | |- context [if ?b then _ else _] => destruct b
             end; intros Hm; inversion Hm; reflexivity.
    + reflexivity.
  - intros h' s' m Hm. rewrite read_global_attrs_run.
    destruct (decide (valid_handle s' h')) as [Hv | Hv].
    + destruct (get_the_global_attributes_cases h' s' Hv)
        as [(m' & Hm' & Hp & _) | (ga' & Hga' & _)]; [| congruence].
      destruct (get_the_global_attributes h' s') as [[m'' | ga'] s2]; cbn [fst] in *;
        [| discriminate].
      split; congruence.
    + destruct (get_the_global_attributes_invalid h' s' Hv) as (m' & s2 & Hm' & Hp).
      rewrite Hm' in *. cbn [fst] in *. split; congruence.
  - vm_compute. reflexivity.
Qed.

Lemma read_global_attrs_validation_witness :
  fst (imcdf_read_global_attrs 0 (one_open (sample_cdf "1" "None" "1.3") 0))
    = inr (sample_attrs IMCDF_PUBLEVEL_1 IMCDF_STANDLEVEL_NONE "1.3")
  /\ fst (imcdf_read_global_attrs 0 (one_open (sample_cdf "1" "None" "1.4") 0))
     = inl "Format incorrect: 1.4".
Proof.
  split.
  - apply (proj1 (read_global_attrs_validation 0 (one_open (sample_cdf "1" "None" "1.3") 0)
                    (sample_attrs IMCDF_PUBLEVEL_1 IMCDF_STANDLEVEL_NONE "1.3")
                    ltac:(vm_compute; reflexivity))).
    vm_compute. repeat split; congruence.
  - destruct (proj1 (proj2 (read_global_attrs_validation 0
                              (one_open (sample_cdf "1" "None" "1.4") 0)
                              (sample_attrs IMCDF_PUBLEVEL_1 IMCDF_STANDLEVEL_NONE "1.4")
                              ltac:(vm_compute; reflexivity))))
      as (_ & _ & _ & Hversion & _).
    + repeat split; apply Nat.ltb_lt; reflexivity.
    + apply Hversion; [reflexivity | reflexivity |]. vm_compute. intros [_ Hle]. congruence.
Defined.

(** ** Required and optional attributes *)

Lemma not_found_read_string (id : CDFid) (name : string) :
  not_found id name 0 -> read_string id name 0 = None.
Proof. apply not_found_read_global. Qed.

(** C6: when one of the optional attributes VectorSensOrient, StandardName,
    StandardVersion, PartialStandDesc, TermsOfUse and UniqueIdentifier is
    not found, a read that is otherwise successful stays successful and
    leaves the field null; when one of the required attributes is not
    found, the read returns an error.  Whether a read succeeds depends on
    the required attributes and on the three checks only. *)
Theorem optional_attributes_absorbed (h : Z) (s : globals) :
  let id := id_at s h in
  let r := fst (imcdf_read_global_attrs h s) in
  (forall name,
      name ∈ required_strings ++ ["PublicationDate"] ++ required_doubles ->
      not_found id name 0 -> exists m, r = inl m)
  /\ (forall ga, r = inr ga ->
        (not_found id "VectorSensOrient" 0 -> vector_sens_orient ga = None)
        /\ (not_found id "StandardName" 0 -> standard_name ga = None)
        /\ (not_found id "StandardVersion" 0 -> standard_version ga = None)
        /\ (not_found id "PartialStandDesc" 0 -> partial_stand_desc ga = None)
        /\ (not_found id "TermsOfUse" 0 -> terms_of_use ga = None)
        /\ (not_found id "UniqueIdentifier" 0 -> unique_identifier ga = None))
  /\ (valid_handle s h ->
      required_present id ->
      (forall t d v,
          read_string id "Title" 0 = Some t ->
          read_string id "FormatDescription" 0 = Some d ->
          read_string id "FormatVersion" 0 = Some v ->
          metadata_valid t d v) ->
      exists ga, r = inr ga).
Proof.
  intros id r. subst id r. split; [| split].
  - intros name Hin Hnf.
    destruct (fst (imcdf_read_global_attrs h s)) as [m | ga] eqn:Er; [eauto |].
    exfalso. apply read_global_attrs_success in Er as (_ & Has & _).
    pose proof (not_found_read_global CDF_CHAR as_char _ _ _ Hnf) as Hs.
    pose proof (not_found_read_global CDF_DOUBLE as_double _ _ _ Hnf) as Hd.
    pose proof (not_found_read_global CDF_TIME_TT2000 as_tt2000 _ _ _ Hnf) as Ht.
    unfold assembled_from, read_string, read_double, read_tt2000 in Has.
    unfold required_strings, required_doubles in Hin. cbn [app] in Hin.
    repeat (apply elem_of_cons in Hin as [-> | Hin];
            [rewrite ?Hs, ?Hd, ?Ht in Has; cbn in Has;
             repeat match goal with
                    | H : _ /\ _ |- _ => destruct H
                    end; discriminate |]).
    inversion Hin.
  - intros ga Er. apply read_global_attrs_success in Er as (_ & Has & _).
    unfold assembled_from in Has.
    repeat match goal with
           | H : _ /\ _ |- _ => destruct H
           end.
    repeat split; intros Hnf; apply not_found_read_string in Hnf; congruence.
  - apply read_global_attrs_complete.
Qed.

Lemma optional_attributes_absorbed_witness :
  let s := one_open (sample_cdf "1" "None" "1.3") 0 in
  not_found (id_at s 0) "StandardName" 0
  /\ (exists ga, fst (imcdf_read_global_attrs 0 s) = inr ga /\ standard_name ga = None)
  /\ forall c, not_found (Some c) "Source" 0 ->
               exists m, fst (imcdf_read_global_attrs 0 (one_open c 0)) = inl m.
Proof.
  intros s.
  assert (Hnf : not_found (id_at s 0) "StandardName" 0) by (left; reflexivity).
  split; [exact Hnf |]. split.
  - exists (sample_attrs IMCDF_PUBLEVEL_1 IMCDF_STANDLEVEL_NONE "1.3").
    assert (Er : fst (imcdf_read_global_attrs 0 s)
                 = inr (sample_attrs IMCDF_PUBLEVEL_1 IMCDF_STANDLEVEL_NONE "1.3"))
      by (vm_compute; reflexivity).
    split; [exact Er |].
    exact (proj1 (proj2 (proj1 (proj2 (optional_attributes_absorbed 0 s)) _ Er)) Hnf).
  - intros c Hc.
    apply (proj1 (optional_attributes_absorbed 0 (one_open c 0)) "Source");
      [vm_compute; set_solver | exact Hc].
Defined.

(** ** Publication level and standard level *)

Lemma tolower_idempotent (c : ascii) : tolower (tolower c) = tolower c.
Proof. destruct c as [[] [] [] [] [] [] [] []]; reflexivity. Qed.

Lemma strcasecmp_tolower_r (a b : string) :
  strcasecmp a (strmap tolower b) = strcasecmp a b.
Proof.
  revert b. induction a as [| x a IH]; intros [| y b]; cbn [strcasecmp strmap];
    rewrite ?tolower_idempotent, ?IH; reflexivity.
Qed.

(** C9, as stated, fails: with the stored PublicationLevel "5" and the
    stored StandardLevel "Sometimes" the read reports nothing and stores
    publication level 1 and standard level None. *)
Lemma unrecognised_levels_read_as_defaults :
  fst (imcdf_read_global_attrs 0 (one_open (sample_cdf "5" "Sometimes" "1.3") 0))
  = inr (sample_attrs IMCDF_PUBLEVEL_1 IMCDF_STANDLEVEL_NONE "1.3").
Proof. vm_compute. reflexivity. Qed.

(** C9, amended: the violations that a read reports are those of the
    title, of the format description and of the format version: a CDF
    that has the required attributes and whose stored title, format
    description or format version does not pass the check is answered
    with one of the three validation messages (messages that fit the
    buffer of [format_error_message]).  The stored PublicationLevel and
    StandardLevel strings need only be present: when the three pass the
    check, the read succeeds whatever the two strings are, and stores the
    level that [imcdf_parse_pub_level_string] and
    [imcdf_parse_standard_level_string] return, which is publication
    level 1 for a string that is none of "1", "2", "3", "4" and standard
    level None for a string that is none of "Full", "Partial", "None"
    (without regard to case). *)
Theorem levels_default_silently (h : Z) (s : globals) (t d v pl sl : string) :
  valid_handle s h ->
  required_present (id_at s h) ->
  read_string (id_at s h) "Title" 0 = Some t ->
  read_string (id_at s h) "FormatDescription" 0 = Some d ->
  read_string (id_at s h) "FormatVersion" 0 = Some v ->
  read_string (id_at s h) "PublicationLevel" 0 = Some pl ->
  read_string (id_at s h) "StandardLevel" 0 = Some sl ->
  let r := fst (imcdf_read_global_attrs h s) in
  (validation_messages_fit t d v ->
   ~ metadata_valid t d v ->
   exists m,
     r = inl m
     /\ m ∈ ["Title of data incorrect: " +:+ t; "Description of data incorrect: " +:+ d;
             "Format incorrect: " +:+ v])
  /\ (metadata_valid t d v ->
      exists ga,
        r = inr ga
        /\ pub_level ga = imcdf_parse_pub_level_string pl
        /\ standard_level ga = imcdf_parse_standard_level_string sl
        /\ (Forall (fun x => strcasecmp pl x <> 0) ["1"; "2"; "3"; "4"] ->
            pub_level ga = IMCDF_PUBLEVEL_1)
        /\ (Forall (fun x => strcasecmp sl x <> 0) ["Full"; "Partial"; "None"] ->
            standard_level ga = IMCDF_STANDLEVEL_NONE)).
Proof.
  intros Hv Hreq Ht Hd Hfv Hpl Hsl r. subst r. rewrite read_global_attrs_run.
  destruct (get_the_global_attributes_cases h s Hv) as [(m & _ & _ & Hn) | (ga & Hga & Has)];
    [contradiction |].
  destruct (get_the_global_attributes h s) as [[m' | ga'] s1]; cbn [fst] in Hga;
    [discriminate |].
  injection Hga as ->. cbn [fst].
  destruct Has as (Hd' & Hfv' & Ht' & _ & _ & Hpl' & _ & _ & _ & _ & _ & _ & _ & Hsl' & _).
  rewrite Ht in Ht'. injection Ht' as ->.
  rewrite Hd in Hd'. injection Hd' as ->.
  rewrite Hfv in Hfv'. injection Hfv' as ->.
  rewrite Hpl in Hpl'. cbn in Hpl'. injection Hpl' as Epl.
  rewrite Hsl in Hsl'. cbn in Hsl'. injection Hsl' as Esl.
  pose proof (check_metadata_valid ga s1) as Hvalid.
  rewrite check_metadata_run in *. cbn [fst] in *.
  split.
  - intros _ Hnot. revert Hvalid.
    repeat match goal with
           | |- context [if ?b then _ else _] => destruct b
           end; intros Hvalid;
      try (eexists; split; [reflexivity |]; rewrite !elem_of_cons; tauto).
    destruct Hnot. now apply Hvalid.
  - intros Hm. apply Hvalid in Hm. rewrite Hm. exists ga.
    split; [reflexivity |]. split; [congruence |]. split; [congruence |]. split.
    + intros Hno. rewrite <- Epl. unfold imcdf_parse_pub_level_string.
      repeat (apply Forall_cons in Hno as [Hx Hno];
              apply Z.eqb_neq in Hx; rewrite Hx; clear Hx).
      reflexivity.
    + intros Hno. rewrite <- Esl. unfold imcdf_parse_standard_level_string.
      change "full" with (strmap tolower "Full").
      change "partial" with (strmap tolower "Partial").
      change "none" with (strmap tolower "None").
      rewrite !strcasecmp_tolower_r.
      repeat (apply Forall_cons in Hno as [Hx Hno];
              apply Z.eqb_neq in Hx; rewrite Hx; clear Hx).
      reflexivity.
Qed.

Lemma levels_default_silently_witness :
  let s := one_open (sample_cdf "5" "Sometimes" "1.3") 0 in
  exists ga,
    fst (imcdf_read_global_attrs 0 s) = inr ga
    /\ pub_level ga = IMCDF_PUBLEVEL_1
    /\ standard_level ga = IMCDF_STANDLEVEL_NONE.
Proof.
  intros s.
  destruct (levels_default_silently 0 s "Geomagnetic time series data"
              "INTERMAGNET CDF Format" "1.3" "5" "Sometimes") as (_ & Hread).
  - vm_compute. split; congruence.
  - unfold required_present, required_strings, required_doubles.
    repeat split;
      repeat (apply Forall_cons; split; [vm_compute; eexists; reflexivity |]);
      first [now apply Forall_nil | vm_compute; eexists; reflexivity].
  - vm_compute; reflexivity.
  - vm_compute; reflexivity.
  - vm_compute; reflexivity.
  - vm_compute; reflexivity.
  - vm_compute; reflexivity.
  - destruct Hread as (ga & Hr & _ & _ & Hpl & Hsl);
      [vm_compute; repeat split; congruence |].
    exists ga. split; [exact Hr |]. split.
    + apply Hpl. repeat (apply Forall_cons; split; [vm_compute; congruence |]).
      now apply Forall_nil.
    + apply Hsl. repeat (apply Forall_cons; split; [vm_compute; congruence |]).
      now apply Forall_nil.
Defined.

(** ** Numbering of attributes and variables *)

Lemma index_of_ext {A B : Type} (p : A -> bool) (q : B -> bool) (l : list A)
  (l' : list B) (i : Z) :
  p <$> l = q <$> l' -> index_of p l i = index_of q l' i.
Proof.
  revert l' i. induction l as [| x l IH]; intros [| y l'] i Heq; try discriminate Heq;
    [reflexivity |].
  cbn in Heq. injection Heq as Hxy Heq. cbn [index_of]. rewrite Hxy.
  destruct (q y); [reflexivity | apply IH, Heq].
Qed.

Lemma index_of_bounds {A : Type} (p : A -> bool) (l : list A) (i0 i : Z) :
  index_of p l i0 = Some i ->
  i0 <= i < i0 + Z.of_nat (length l)
  /\ exists x, l !! Z.to_nat (i - i0) = Some x /\ p x = true.
Proof.
  revert i0. induction l as [| x l IH]; intros i0 Hi; [discriminate |].
  cbn [index_of] in Hi. destruct (p x) eqn:Hp.
  - injection Hi as <-. split; [cbn [length]; lia |].
    rewrite Z.sub_diag. exists x. split; [reflexivity | exact Hp].
  - apply IH in Hi as (Hb & y & Hy & Hpy). split; [cbn [length]; lia |].
    exists y. split; [| exact Hpy].
    replace (Z.to_nat (i - i0)) with (S (Z.to_nat (i - (i0 + 1)))) by lia. exact Hy.
Qed.

Lemma index_of_app_l {A : Type} (p : A -> bool) (l l' : list A) (i0 i : Z) :
  index_of p l i0 = Some i -> index_of p (l ++ l') i0 = Some i.
Proof.
  revert i0. induction l as [| x l IH]; intros i0 Hi; [discriminate |].
  cbn [index_of app] in *. destruct (p x); [exact Hi | apply IH, Hi].
Qed.

Lemma index_of_app_new {A : Type} (p : A -> bool) (l : list A) (x : A) (i0 : Z) :
  index_of p l i0 = None -> p x = true ->
  index_of p (l ++ [x]) i0 = Some (i0 + Z.of_nat (length l)).
Proof.
  revert i0. induction l as [| y l IH]; intros i0 Hi Hx.
  - cbn. rewrite Hx. f_equal. lia.
  - cbn [index_of app] in *. destruct (p y); [discriminate |].
    rewrite IH by assumption. f_equal. cbn [length]. lia.
Qed.

Lemma index_of_app_other {A : Type} (p : A -> bool) (l : list A) (x : A) (i0 : Z) :
  p x = false -> index_of p (l ++ [x]) i0 = index_of p l i0.
Proof.
  revert i0. induction l as [| y l IH]; intros i0 Hx.
  - cbn. now rewrite Hx.
  - cbn [index_of app]. destruct (p y); [reflexivity | apply IH, Hx].
Qed.

Lemma index_of_insert {A : Type} (p : A -> bool) (l : list A) (k : nat) (x y : A)
  (i0 : Z) :
  l !! k = Some x -> p y = p x -> index_of p (<[k := y]> l) i0 = index_of p l i0.
Proof.
  intros Hk Hp. apply index_of_ext. rewrite list_fmap_insert, Hp.
  apply list_insert_id. now rewrite list_lookup_fmap, Hk.
Qed.

Lemma nth_at_Some {A : Type} (l : list A) (i : Z) (x : A) :
  nth_at l i = Some x <-> 0 <= i /\ l !! Z.to_nat i = Some x.
Proof.
  unfold nth_at. destruct (Z.ltb_spec i 0); split.
  - discriminate.
  - intros [? _]. lia.
  - intros Hx. split; [lia | exact Hx].
  - intros [_ Hx]. exact Hx.
Qed.

Lemma index_of_nth_at {A : Type} (p : A -> bool) (l : list A) (i : Z) :
  index_of p l 0 = Some i -> exists x, nth_at l i = Some x /\ p x = true.
Proof.
  intros Hi. apply index_of_bounds in Hi as (Hb & x & Hx & Hp).
  exists x. split; [| exact Hp]. apply nth_at_Some. split; [lia |].
  now rewrite Z.sub_0_r in Hx.
Qed.

(** ** Calls of the library on an open CDF *)

Lemma open_at_lookup (s : globals) (h : Z) (c : cdf) :
  open_at s h c -> 0 <= h /\ cdf_ids s !! Z.to_nat h = Some (Some c).
Proof.
  intros [[H0 _] Hid]. split; [exact H0 |].
  unfold id_at, nth_at in Hid. destruct (Z.ltb_spec h 0); [lia |].
  destruct (cdf_ids s !! Z.to_nat h) as [[c' |] |]; cbv [default from_option id] in Hid;
    [injection Hid as -> | discriminate Hid | discriminate Hid].
  reflexivity.
Qed.

Lemma open_at_with_cdf (s : globals) (h : Z) (c c' : cdf) (st : Z) :
  open_at s h c -> open_at (with_cdf s h c' st) h c'.
Proof.
  intros Ho. pose proof (open_at_lookup s h c Ho) as [H0 Hl]. destruct Ho as [Hv _].
  split; [exact Hv |].
  unfold id_at, nth_at, with_cdf. cbn [cdf_ids].
  destruct (Z.ltb_spec h 0); [lia |].
  rewrite list_lookup_insert_eq; [reflexivity |].
  apply lookup_lt_Some in Hl. exact Hl.
Qed.

Lemma open_at_with_status (s : globals) (h : Z) (c : cdf) (st : Z) :
  open_at s h c -> open_at (with_status s st) h c.
Proof. exact (fun H => H). Qed.

Lemma call_run {A : Type} (h : Z) (f : CDFid -> A * CDFid) (s : globals) (c c' : cdf)
  (a : A) :
  open_at s h c -> f (Some c) = (a, Some c') ->
  call h f s = (a, with_cdf s h c' (cdf_status s)).
Proof.
  intros Ho Hf. destruct (open_at_lookup s h c Ho) as [H0 _].
  unfold call. destruct Ho as [_ ->]. rewrite Hf.
  destruct (Z.ltb_spec h 0); [lia | reflexivity].
Qed.

Lemma ask_run {A : Type} (h : Z) (f : CDFid -> A) (s : globals) (c : cdf) :
  open_at s h c -> ask h f s = (f (Some c), s).
Proof. intros [_ Hid]. unfold ask. now rewrite Hid. Qed.

Lemma sanity_check_open (s : globals) (h : Z) (c : cdf) :
  open_at s h c -> sanity_check_handles h s = (0, s).
Proof. intros [Hv _]. apply sanity_check_valid, Hv. Qed.

(** ** Appending records *)

Lemma put_record_end (pad v : value) (recs : list value) :
  put_record pad (length recs) v recs = recs ++ [v].
Proof.
  unfold put_record. destruct (decide (length recs < length recs)%nat); [lia |].
  now rewrite Nat.sub_diag.
Qed.

Lemma put_records_run (h i : Z) (data : list value) :
  forall (s : globals) (c : cdf) (zv : zvariable),
    open_at s h c ->
    nth_at (zvariables c) i = Some zv ->
    exists s' c',
      put_records h i (Z.of_nat (length (zvar_recs zv))) data s = (0, s')
      /\ open_at s' h c'
      /\ attributes c' = attributes c
      /\ zvariables c'
         = <[Z.to_nat i := set_recs zv (zvar_recs zv ++ data)]> (zvariables c).
Proof.
  induction data as [| x data IH]; intros s c zv Ho Hzv.
  - exists s, c. split; [reflexivity |]. split; [exact Ho |]. split; [reflexivity |].
    rewrite app_nil_r. symmetry. apply list_insert_id.
    apply nth_at_Some in Hzv as [_ Hzv]. rewrite Hzv. f_equal. now destruct zv.
  - pose proof Hzv as Hzv'. apply nth_at_Some in Hzv' as [Hi Hl].
    set (zv1 := set_recs zv (zvar_recs zv ++ [x])).
    set (c1 := {| attributes := attributes c;
                  zvariables := <[Z.to_nat i := zv1]> (zvariables c) |}).
    assert (Hput : CDFputzVarRecordData i (Z.of_nat (length (zvar_recs zv))) x (Some c)
                   = (CDF_OK, Some c1)).
    { unfold CDFputzVarRecordData. rewrite Hzv.
      destruct (Z.ltb_spec (Z.of_nat (length (zvar_recs zv))) 0); [lia |].
      rewrite Nat2Z.id, put_record_end. reflexivity. }
    cbn [put_records]. step. rewrite (call_run _ _ _ _ _ _ Ho Hput). step.
    change (CDF_OK <? CDF_WARN) with false. cbv iota.
    assert (Ho1 : open_at (with_status (with_cdf s h c1 (cdf_status s)) CDF_OK) h c1)
      by (apply open_at_with_status, (open_at_with_cdf _ _ c), Ho).
    assert (Hzv1 : nth_at (zvariables c1) i = Some zv1).
    { apply nth_at_Some. split; [exact Hi |]. cbn [c1 zvariables].
      apply list_lookup_insert_eq. apply lookup_lt_Some in Hl. exact Hl. }
    destruct (IH _ c1 zv1 Ho1 Hzv1) as (s' & c' & Hrun & Ho' & Hattr & Hzvars).
    exists s', c'. split.
    + cbn [zv1 set_recs zvar_recs] in Hrun. rewrite length_app in Hrun.
      cbn [length] in Hrun.
      replace (Z.of_nat (length (zvar_recs zv)) + 1)
        with (Z.of_nat (length (zvar_recs zv) + 1)) by lia.
      exact Hrun.
    + split; [exact Ho' |]. split; [exact Hattr |].
      rewrite Hzvars. cbn [c1 zvariables zv1 set_recs zvar_name zvar_type zvar_recs].
      rewrite list_insert_insert_eq. unfold set_recs. now rewrite <- app_assoc.
Qed.

(** ** zVariables by name *)

Lemma CDFgetVarNum_index (c : cdf) (name : string) :
  CDFgetVarNum (Some c) name
  = match index_of (named name) (zvariables c) 0 with
    | Some i => i
    | None => NO_SUCH_VAR
    end.
Proof. reflexivity. Qed.

Lemma zvar_named_index (c : cdf) (name : string) :
  zvar_named c name = index_of (named name) (zvariables c) 0 ≫= nth_at (zvariables c).
Proof. reflexivity. Qed.

(** A zVariable is replaced by one of the same name: the numbering is
    kept, and only that variable changes. *)
Lemma zvars_insert_numbering (l : list zvariable) (i : Z) (zv zv' : zvariable)
  (name : string) :
  nth_at l i = Some zv -> zvar_name zv' = zvar_name zv ->
  index_of (named name) (<[Z.to_nat i := zv']> l) 0 = index_of (named name) l 0.
Proof.
  intros Hzv Hname. apply nth_at_Some in Hzv as [_ Hl].
  apply (index_of_insert _ _ _ zv); [exact Hl |]. unfold named. now rewrite Hname.
Qed.

Lemma zvar_named_insert_same (c c' : cdf) (i : Z) (zv zv' : zvariable) (name : string) :
  zvariables c' = <[Z.to_nat i := zv']> (zvariables c) ->
  nth_at (zvariables c) i = Some zv -> zvar_name zv' = zvar_name zv ->
  index_of (named name) (zvariables c) 0 = Some i ->
  zvar_named c' name = Some zv'.
Proof.
  intros Hz Hzv Hname Hi. rewrite zvar_named_index, Hz.
  rewrite (zvars_insert_numbering _ _ zv) by assumption. rewrite Hi. cbn.
  apply nth_at_Some in Hzv as [H0 Hl]. apply nth_at_Some. split; [exact H0 |].
  apply list_lookup_insert_eq. apply lookup_lt_Some in Hl. exact Hl.
Qed.

Lemma zvar_named_insert_other (c c' : cdf) (i : Z) (zv zv' : zvariable)
  (name : string) :
  zvariables c' = <[Z.to_nat i := zv']> (zvariables c) ->
  nth_at (zvariables c) i = Some zv -> zvar_name zv' = zvar_name zv ->
  index_of (named name) (zvariables c) 0 <> Some i ->
  zvar_named c' name = zvar_named c name.
Proof.
  intros Hz Hzv Hname Hi. rewrite !zvar_named_index, Hz.
  rewrite (zvars_insert_numbering _ _ zv) by assumption.
  destruct (index_of (named name) (zvariables c) 0) as [j |] eqn:Ej; [| reflexivity].
  cbn. unfold nth_at. destruct (Z.ltb_spec j 0); [reflexivity |].
  apply list_lookup_insert_ne. apply nth_at_Some in Hzv as [H0 _].
  intros E. apply Hi. f_equal. lia.
Qed.

(** A zVariable is added at the end. *)
Lemma zvar_named_new_other (l : list zvariable) (zv : zvariable) (name : string) :
  zvar_name zv <> name ->
  index_of (named name) (l ++ [zv]) 0 ≫= nth_at (l ++ [zv])
  = index_of (named name) l 0 ≫= nth_at l.
Proof.
  intros Hne. rewrite index_of_app_other by (now apply String.eqb_neq).
  destruct (index_of (named name) l 0) as [j |] eqn:Ej; [| reflexivity].
  cbn. apply index_of_bounds in Ej as (Hb & _).
  unfold nth_at. destruct (Z.ltb_spec j 0); [reflexivity |].
  apply lookup_app_l. lia.
Qed.

Lemma append_array_run (h : Z) (name : string) (data : list value) (len : Z)
  (s : globals) (c : cdf) (i : Z) (zv : zvariable) :
  open_at s h c ->
  index_of (named name) (zvariables c) 0 = Some i ->
  nth_at (zvariables c) i = Some zv ->
  exists s' c',
    append_array h name data len s = (0, s')
    /\ open_at s' h c'
    /\ attributes c' = attributes c
    /\ zvariables c'
       = <[Z.to_nat i := set_recs zv (zvar_recs zv ++ take (Z.to_nat len) data)]>
           (zvariables c).
Proof.
  intros Ho Hi Hzv. unfold append_array.
  rewrite bind_run, (sanity_check_open s h c Ho). cbn [fst snd Z.eqb negb].
  rewrite bind_run, (ask_run _ _ _ _ Ho). cbn [fst snd].
  rewrite CDFgetVarNum_index, Hi.
  pose proof (index_of_bounds _ _ _ _ Hi) as [Hb _].
  destruct (Z.ltb_spec i 0); [lia |].
  rewrite bind_run, (ask_run _ _ _ _ Ho). cbn [fst snd].
  unfold CDFgetzVarMaxWrittenRecNum. rewrite Hzv. step.
  change (negb (CDF_OK =? CDF_OK)) with false. cbv iota.
  replace (Z.of_nat (length (zvar_recs zv)) - 1 + 1)
    with (Z.of_nat (length (zvar_recs zv))) by lia.
  apply (put_records_run h i _ _ c zv); [| exact Hzv].
  apply open_at_with_status, Ho.
Qed.

Lemma named_name (name : string) (zv : zvariable) :
  named name zv = true <-> zvar_name zv = name.
Proof. apply String.eqb_eq. Qed.

Lemma create_array_run (ty h : Z) (name : string) (data : list value) (len : Z)
  (s : globals) (c : cdf) :
  open_at s h c ->
  exists s' c' zv,
    create_array ty h name data len s = (0, s')
    /\ open_at s' h c'
    /\ attributes c' = attributes c
    /\ zvar_named c' name = Some zv
    /\ zv = match zvar_named c name with
            | Some old => set_recs old (zvar_recs old ++ take (Z.to_nat len) data)
            | None => {| zvar_name := name; zvar_type := ty;
                         zvar_recs := take (Z.to_nat len) data |}
            end
    /\ (forall name', name' <> name -> zvar_named c' name' = zvar_named c name')
    /\ (forall name' j, index_of (named name') (zvariables c) 0 = Some j ->
                        index_of (named name') (zvariables c') 0 = Some j).
Proof.
  intros Ho. unfold create_array.
  rewrite bind_run, (sanity_check_open s h c Ho). cbn [fst snd Z.eqb negb].
  rewrite bind_run.
  destruct (index_of (named name) (zvariables c) 0) as [i |] eqn:Ei.
  - assert (Hcreate : CDFcreatezVar name ty (Some c) = (VAR_EXISTS, 0, Some c)).
    { unfold CDFcreatezVar. rewrite CDFgetVarNum_index, Ei.
      pose proof (index_of_bounds _ _ _ _ Ei) as [Hb _].
      destruct (Z.leb_spec 0 i); [reflexivity | lia]. }
    rewrite (call_run _ _ _ _ _ _ Ho Hcreate). step.
    change ((VAR_EXISTS <? CDF_WARN) && negb (VAR_EXISTS =? VAR_EXISTS)) with false.
    cbv iota.
    destruct (index_of_nth_at _ _ _ Ei) as (zv & Hzv & Hname).
    apply named_name in Hname.
    destruct (append_array_run h name data len _ c i zv
                (open_at_with_status _ _ _ VAR_EXISTS
                   (open_at_with_cdf _ _ _ c (cdf_status s) Ho)) Ei Hzv)
      as (s' & c' & Hrun & Ho' & Hattr & Hz).
    exists s', c', (set_recs zv (zvar_recs zv ++ take (Z.to_nat len) data)).
    split; [exact Hrun |]. split; [exact Ho' |]. split; [exact Hattr |].
    split; [| split; [| split]].
    + now apply (zvar_named_insert_same c c' i zv).
    + rewrite zvar_named_index, Ei. cbn. now rewrite Hzv.
    + intros name' Hne. apply (zvar_named_insert_other c c' i zv _ _ Hz Hzv eq_refl).
      intros Ej. destruct (index_of_nth_at _ _ _ Ej) as (zv' & Hzv' & Hname').
      apply named_name in Hname'. congruence.
    + intros name' j Hj. rewrite Hz.
      now rewrite (zvars_insert_numbering _ _ zv).
  - set (new := {| zvar_name := name; zvar_type := ty; zvar_recs := [] |}).
    set (c1 := {| attributes := attributes c; zvariables := zvariables c ++ [new] |}).
    assert (Hcreate : CDFcreatezVar name ty (Some c)
                      = (CDF_OK, Z.of_nat (length (zvariables c)), Some c1)).
    { unfold CDFcreatezVar. rewrite CDFgetVarNum_index, Ei. reflexivity. }
    rewrite (call_run _ _ _ _ _ _ Ho Hcreate). step.
    change ((CDF_OK <? CDF_WARN) && negb (CDF_OK =? VAR_EXISTS)) with false.
    cbv iota.
    assert (Hnew : named name new = true) by (apply named_name; reflexivity).
    pose proof (index_of_app_new _ _ new 0 Ei Hnew) as Ei1. rewrite Z.add_0_l in Ei1.
    assert (Hzv1 : nth_at (zvariables c1) (Z.of_nat (length (zvariables c))) = Some new).
    { apply nth_at_Some. split; [lia |]. rewrite Nat2Z.id. cbn [c1 zvariables].
      rewrite lookup_app_r by lia. now rewrite Nat.sub_diag. }
    destruct (append_array_run h name data len _ c1 _ new
                (open_at_with_status _ _ _ CDF_OK
                   (open_at_with_cdf _ _ _ c1 (cdf_status s) Ho)) Ei1 Hzv1)
      as (s' & c' & Hrun & Ho' & Hattr & Hz).
    exists s', c', (set_recs new (zvar_recs new ++ take (Z.to_nat len) data)).
    split; [exact Hrun |]. split; [exact Ho' |]. split; [exact Hattr |].
    split; [| split; [| split]].
    + now apply (zvar_named_insert_same c1 c' (Z.of_nat (length (zvariables c))) new).
    + rewrite zvar_named_index, Ei. reflexivity.
    + intros name' Hne.
      rewrite (zvar_named_insert_other c1 c' (Z.of_nat (length (zvariables c))) new
                 _ name' Hz Hzv1 eq_refl).
      * rewrite !zvar_named_index. cbn [c1 zvariables].
        apply zvar_named_new_other. cbn. congruence.
      * cbn [c1 zvariables]. rewrite index_of_app_other
          by (apply String.eqb_neq; cbn; congruence).
        intros Ej. apply index_of_bounds in Ej. lia.
    + intros name' j Hj. rewrite Hz.
      rewrite (zvars_insert_numbering _ _ new) by (exact Hzv1 || reflexivity).
      cbn [c1 zvariables]. now apply index_of_app_l.
Qed.

(** ** Time stamp arrays *)

Lemma write_time_stamps_run (h : Z) (s : globals) (c : cdf) (name : string)
  (stamps : list Z) :
  open_at s h c ->
  exists s1 c1,
    imcdf_write_time_stamps h
      {| var_name := name; time_stamps := stamps;
         ts_data_len := Z.of_nat (length stamps) |} s = (None, s1)
    /\ open_at s1 h c1
    /\ is_Some (zvar_named c1 name)
    /\ stored_records c1 name = stored_records c name ++ (V_tt2000 <$> stamps)
    /\ (zvar_named c name = None -> holds_time_stamps c1 name stamps)
    /\ (forall old, holds_time_stamps c name old ->
                    holds_time_stamps c1 name (old ++ stamps))
    /\ (forall name', name' <> name -> zvar_named c1 name' = zvar_named c name').
Proof.
  intros Ho. unfold imcdf_write_time_stamps, imcdf_create_time_stamp_array.
  cbn [var_name time_stamps ts_data_len].
  destruct (create_array_run CDF_TIME_TT2000 h name (V_tt2000 <$> stamps)
              (Z.of_nat (length stamps)) s c Ho)
    as (s1 & c1 & zv & Hrun & Ho1 & Hattr & Hzv & Hdef & Hother & _).
  rewrite Nat2Z.id, take_ge in Hdef by (rewrite length_fmap; lia).
  exists s1, c1. rewrite bind_run, Hrun. cbn [fst snd Z.eqb negb].
  split; [reflexivity |]. split; [exact Ho1 |]. split; [rewrite Hzv; eauto |].
  unfold holds_time_stamps, stored_records. rewrite Hzv, Hdef.
  split; [| split; [| split]].
  - destruct (zvar_named c name); reflexivity.
  - intros ->. reflexivity.
  - intros old ->. unfold set_recs. cbn [zvar_name zvar_type zvar_recs].
    now rewrite fmap_app.
  - exact Hother.
Qed.

Lemma get_records_run (h i : Z) (s : globals) (c : cdf) (zv : zvariable) (l : list Z) :
  forall (pre : list value) (s' : globals),
    open_at s' h c ->
    nth_at (zvariables c) i = Some zv ->
    zvar_recs zv = pre ++ (V_tt2000 <$> l) ->
    fst (get_records as_tt2000 h i (Z.of_nat (length pre)) (length l) s') = Some l.
Proof.
  induction l as [| x l IH]; intros pre s' Ho Hzv Hrecs; [reflexivity |].
  cbn [length get_records]. rewrite bind_run, (ask_run _ _ _ _ Ho). cbn [fst snd].
  assert (Hget : CDFgetzVarRecordData i (Z.of_nat (length pre)) (Some c)
                 = (CDF_OK, Some (V_tt2000 x))).
  { unfold CDFgetzVarRecordData. rewrite Hzv, Hrecs.
    assert (Hx : nth_at (pre ++ (V_tt2000 <$> x :: l)) (Z.of_nat (length pre))
                 = Some (V_tt2000 x)).
    { apply nth_at_Some. split; [lia |]. rewrite Nat2Z.id, lookup_app_r by lia.
      now rewrite Nat.sub_diag. }
    now rewrite Hx. }
  rewrite Hget. step. change (CDF_OK <? 0) with false. cbv iota.
  cbn [mbind option_bind as_tt2000]. step.
  specialize (IH (pre ++ [V_tt2000 x]) (with_status s' CDF_OK)
                (open_at_with_status _ _ _ _ Ho) Hzv).
  rewrite length_app in IH. cbn [length] in IH.
  replace (Z.of_nat (length pre) + 1) with (Z.of_nat (length pre + 1)) by lia.
  unfold with_status in IH. rewrite IH; [reflexivity |].
  rewrite Hrecs, <- app_assoc. reflexivity.
Qed.

Lemma read_time_stamps_run (h : Z) (s : globals) (c : cdf) (name : string) (l : list Z) :
  open_at s h c ->
  holds_time_stamps c name l ->
  fst (imcdf_read_time_stamps h name s)
  = inr {| var_name := name; time_stamps := l; ts_data_len := Z.of_nat (length l) |}.
Proof.
  intros Ho Hl. unfold holds_time_stamps in Hl. rewrite zvar_named_index in Hl.
  destruct (index_of (named name) (zvariables c) 0) as [i |] eqn:Ei; [| discriminate].
  cbn in Hl. pose proof (index_of_bounds _ _ _ _ Ei) as [Hb _].
  assert (Hget : exists s',
             imcdf_get_var_time_stamps h name s = (Some (l, Z.of_nat (length l)), s')).
  { unfold imcdf_get_var_time_stamps, get_var.
    rewrite bind_run, (sanity_check_open s h c Ho). cbn [fst snd Z.eqb negb].
    rewrite bind_run, (ask_run _ _ _ _ Ho). cbn [fst snd].
    rewrite CDFgetVarNum_index, Ei. destruct (Z.ltb_spec i 0); [lia |].
    rewrite bind_run, (ask_run _ _ _ _ Ho). cbn [fst snd].
    unfold CDFinquirezVar. rewrite Hl. cbn [zvar_type]. step.
    change (CDF_OK <? 0) with false. cbv iota.
    change (negb (CDF_TIME_TT2000 =? CDF_TIME_TT2000)) with false. cbv iota.
    change (negb (0 =? 0)) with false. cbv iota.
    unfold ask at 1. rewrite bind_run. cbn [fst snd].
    destruct Ho as [Hv Hid]. unfold id_at in Hid |- *. cbn [cdf_ids]. rewrite Hid.
    unfold CDFgetzVarNumRecsWritten. rewrite Hl. cbn [zvar_recs]. step.
    change (negb (CDF_OK =? CDF_OK)) with false. cbv iota.
    rewrite length_fmap, Nat2Z.id.
    pose proof (get_records_run h i s c _ l []
                  {| cdf_ids := cdf_ids s; cdf_index := cdf_index s;
                     cdf_status := CDF_OK |}
                  (conj Hv Hid) Hl eq_refl) as Hrec.
    cbn [length] in Hrec. change (Z.of_nat 0) with 0 in Hrec.
    rewrite bind_run. rewrite Hrec. step. eexists. reflexivity. }
  destruct Hget as [s' Hget]. unfold imcdf_read_time_stamps.
  rewrite (or_return_ok _ _ _ _ _ _ _ Hget). reflexivity.
Qed.

(** C5: [imcdf_write_time_stamps] creates the TT2000 array when the CDF has
    no variable of that name, and takes the status "already exists" of the
    creation, an error status, for a success; in both cases the samples are
    appended after the last record written.  Writing [first] and then
    [second] to one name leaves the variable holding the records that it
    held, then [first], then [second]: for a new name or for a TT2000
    array that is the sequence that a read returns.  No other variable is
    touched. *)
Theorem write_time_stamps_extends (h : Z) (s : globals) (c : cdf) (name : string)
  (first second : list Z) :
  open_at s h c ->
  exists s1 c1 s2 c2,
    imcdf_write_time_stamps h
      {| var_name := name; time_stamps := first;
         ts_data_len := Z.of_nat (length first) |} s = (None, s1)
    /\ open_at s1 h c1
    /\ stored_records c1 name = stored_records c name ++ (V_tt2000 <$> first)
    /\ fst (fst (CDFcreatezVar name CDF_TIME_TT2000 (Some c1))) = VAR_EXISTS
    /\ VAR_EXISTS < CDF_WARN
    /\ imcdf_write_time_stamps h
         {| var_name := name; time_stamps := second;
            ts_data_len := Z.of_nat (length second) |} s1 = (None, s2)
    /\ open_at s2 h c2
    /\ stored_records c2 name
       = stored_records c name ++ (V_tt2000 <$> first) ++ (V_tt2000 <$> second)
    /\ (forall old,
          (zvar_named c name = None /\ old = []) \/ holds_time_stamps c name old ->
          holds_time_stamps c2 name (old ++ first ++ second)
          /\ fst (imcdf_read_time_stamps h name s2)
             = inr {| var_name := name; time_stamps := old ++ first ++ second;
                      ts_data_len := Z.of_nat (length (old ++ first ++ second)) |})
    /\ (forall name', name' <> name -> zvar_named c2 name' = zvar_named c name').
Proof.
  intros Ho.
  destruct (write_time_stamps_run h s c name first Ho)
    as (s1 & c1 & Hw1 & Ho1 & Hex1 & Hrec1 & Hnew1 & Hold1 & Hother1).
  destruct (write_time_stamps_run h s1 c1 name second Ho1)
    as (s2 & c2 & Hw2 & Ho2 & _ & Hrec2 & _ & Hold2 & Hother2).
  exists s1, c1, s2, c2.
  split; [exact Hw1 |]. split; [exact Ho1 |]. split; [exact Hrec1 |].
  split.
  { unfold CDFcreatezVar. rewrite zvar_named_index in Hex1. rewrite CDFgetVarNum_index.
    destruct (index_of (named name) (zvariables c1) 0) as [i |] eqn:Ei;
      [| destruct Hex1; discriminate].
    pose proof (index_of_bounds _ _ _ _ Ei) as [Hb _].
    destruct (Z.leb_spec 0 i); [reflexivity | lia]. }
  split; [reflexivity |].
  split; [exact Hw2 |]. split; [exact Ho2 |].
  split; [rewrite Hrec2, Hrec1, <- app_assoc; reflexivity |].
  split.
  - intros old Hold.
    assert (Hh2 : holds_time_stamps c2 name (old ++ first ++ second)).
    { rewrite app_assoc. apply Hold2.
      destruct Hold as [[Hnone ->] | Hold]; [apply Hnew1, Hnone | apply Hold1, Hold]. }
    split; [exact Hh2 |]. now apply (read_time_stamps_run h s2 c2).
  - intros name' Hne. now rewrite Hother2, Hother1.
Qed.

Lemma write_time_stamps_extends_witness :
  exists s1 s2,
    imcdf_write_time_stamps 0
      {| var_name := "GeomagneticVectorTimes"; time_stamps := [1; 2; 3];
         ts_data_len := 3 |} (one_open empty_cdf 0) = (None, s1)
    /\ imcdf_write_time_stamps 0
         {| var_name := "GeomagneticVectorTimes"; time_stamps := [4; 5];
            ts_data_len := 2 |} s1 = (None, s2)
    /\ fst (imcdf_read_time_stamps 0 "GeomagneticVectorTimes" s2)
       = inr {| var_name := "GeomagneticVectorTimes"; time_stamps := [1; 2; 3; 4; 5];
                ts_data_len := 5 |}.
Proof.
  destruct (write_time_stamps_extends 0 (one_open empty_cdf 0) empty_cdf
              "GeomagneticVectorTimes" [1; 2; 3] [4; 5])
    as (s1 & c1 & s2 & c2 & Hw1 & _ & _ & _ & _ & Hw2 & _ & _ & Hread & _).
  - split; [vm_compute; split; congruence | reflexivity].
  - exists s1, s2. split; [exact Hw1 |]. split; [exact Hw2 |].
    apply (Hread []). left. split; reflexivity.
Defined.

(** ** Variable attributes *)

Lemma attr_named_index (c : cdf) (name : string) :
  attr_named c name = index_of (attr_is name) (attributes c) 0 ≫= nth_at (attributes c).
Proof. reflexivity. Qed.

Lemma CDFgetAttrNum_index (c : cdf) (name : string) :
  CDFgetAttrNum (Some c) name
  = match index_of (attr_is name) (attributes c) 0 with
    | Some i => i
    | None => NO_SUCH_ATTR
    end.
Proof. reflexivity. Qed.

Lemma find_variable_attribute_run (h : Z) (an : string) (s : globals) (c : cdf) :
  open_at s h c ->
  exists s1 c1 k a,
    find_variable_attribute h an s = (k, s1)
    /\ open_at s1 h c1
    /\ zvariables c1 = zvariables c
    /\ index_of (attr_is an) (attributes c1) 0 = Some k
    /\ nth_at (attributes c1) k = Some a
    /\ (forall an', an' <> an -> attr_named c1 an' = attr_named c an').
Proof.
  intros Ho. unfold find_variable_attribute.
  rewrite bind_run, (ask_run _ _ _ _ Ho). cbn [fst snd].
  rewrite CDFgetAttrNum_index.
  destruct (index_of (attr_is an) (attributes c) 0) as [k |] eqn:Ek.
  - pose proof (index_of_bounds _ _ _ _ Ek) as [Hb _].
    destruct (index_of_nth_at _ _ _ Ek) as (a & Ha & _).
    destruct (Z.ltb_spec k 0); [lia |].
    exists s, c, k, a. repeat split; try assumption; try reflexivity; apply Ho.
  - change (NO_SUCH_ATTR <? 0) with true. cbv iota.
    set (new := {| attr_name := an; attr_scope := VARIABLE_SCOPE;
                   g_entries := ∅; z_entries := ∅ |}).
    set (c1 := {| attributes := attributes c ++ [new]; zvariables := zvariables c |}).
    assert (Hcreate : CDFcreateAttr an VARIABLE_SCOPE (Some c)
                      = (CDF_OK, Z.of_nat (length (attributes c)), Some c1)).
    { unfold CDFcreateAttr. rewrite CDFgetAttrNum_index, Ek. reflexivity. }
    rewrite bind_run, (call_run _ _ _ _ _ _ Ho Hcreate). step.
    change (CDF_OK <? CDF_WARN) with false. cbv iota.
    assert (Hnew : attr_is an new = true) by (apply String.eqb_eq; reflexivity).
    pose proof (index_of_app_new _ _ new 0 Ek Hnew) as Ek1. rewrite Z.add_0_l in Ek1.
    eexists _, c1, _, new. split; [reflexivity |].
    split; [apply (open_at_with_status (with_cdf s h c1 (cdf_status s)) h c1 CDF_OK),
              (open_at_with_cdf _ _ c), Ho |].
    split; [reflexivity |].
    split; [exact Ek1 |]. split.
    + apply nth_at_Some. split; [lia |]. rewrite Nat2Z.id. cbn [c1 attributes].
      rewrite lookup_app_r by lia. now rewrite Nat.sub_diag.
    + intros an' Hne. rewrite !attr_named_index. cbn [c1 attributes].
      rewrite index_of_app_other by (apply String.eqb_neq; cbn; congruence).
      destruct (index_of (attr_is an') (attributes c) 0) as [j |] eqn:Ej; [| reflexivity].
      cbn. apply index_of_bounds in Ej as (Hb & _).
      unfold nth_at. destruct (Z.ltb_spec j 0); [reflexivity |].
      apply lookup_app_l. lia.
Qed.

Lemma add_variable_attr_run (h : Z) (an vn : string) (v : value) (s : globals)
  (c : cdf) (i : Z) :
  open_at s h c ->
  index_of (named vn) (zvariables c) 0 = Some i ->
  exists s' c',
    add_variable_attr h an vn v s = (0, s')
    /\ open_at s' h c'
    /\ zvariables c' = zvariables c
    /\ z_entry c' an vn = Some v
    /\ (forall an' vn', an' <> an -> z_entry c' an' vn' = z_entry c an' vn').
Proof.
  intros Ho Hi. unfold add_variable_attr.
  rewrite bind_run, (sanity_check_open s h c Ho). cbn [fst snd Z.eqb negb].
  destruct (find_variable_attribute_run h an s c Ho)
    as (s1 & c1 & k & a & Hfind & Ho1 & Hz1 & Hk & Ha & Hother1).
  rewrite bind_run, Hfind. cbn [fst snd].
  pose proof (index_of_bounds _ _ _ _ Hk) as [Hkb _].
  pose proof (index_of_bounds _ _ _ _ Hi) as [Hib _].
  destruct (Z.ltb_spec k 0); [lia |].
  rewrite bind_run, (ask_run _ _ _ _ Ho1). cbn [fst snd].
  rewrite CDFgetVarNum_index, Hz1, Hi.
  destruct (Z.ltb_spec i 0); [lia |].
  destruct (index_of_nth_at _ _ _ Hi) as (zv & Hzv & _).
  set (c2 := {| attributes := <[Z.to_nat k := put_entry false i v a]> (attributes c1);
                zvariables := zvariables c1 |}).
  assert (Hput : CDFputAttrzEntry k i v (Some c1) = (CDF_OK, Some c2)).
  { unfold CDFputAttrzEntry, put_attr_entry. rewrite <- Hz1 in Hzv.
    rewrite Hzv, Ha. reflexivity. }
  rewrite bind_run, (call_run _ _ _ _ _ _ Ho1 Hput). step.
  change (CDF_OK <? CDF_WARN) with false. cbv iota.
  eexists _, c2. split; [reflexivity |].
  split; [apply (open_at_with_status (with_cdf s1 h c2 (cdf_status s1)) h c2 CDF_OK),
            (open_at_with_cdf _ _ c1), Ho1 |].
  split; [exact Hz1 |].
  assert (Hnum : forall an', index_of (attr_is an') (attributes c2) 0
                             = index_of (attr_is an') (attributes c1) 0).
  { intros an'. cbn [c2 attributes]. apply nth_at_Some in Ha as [_ Hl].
    now apply (index_of_insert _ _ _ a). }
  split.
  - unfold z_entry. rewrite attr_named_index, Hnum, Hk. cbn [mbind option_bind].
    assert (Ha2 : nth_at (attributes c2) k = Some (put_entry false i v a)).
    { apply nth_at_Some in Ha as [Hk0 Hl]. apply nth_at_Some. split; [exact Hk0 |].
      cbn [c2 attributes]. apply list_lookup_insert_eq. apply lookup_lt_Some in Hl.
      exact Hl. }
    rewrite Ha2. cbn [mbind option_bind c2 zvariables]. rewrite Hz1, Hi.
    cbn [mbind option_bind put_entry z_entries]. apply lookup_insert_eq.
  - intros an' vn' Hne. unfold z_entry. rewrite <- (Hother1 an' Hne).
    rewrite !attr_named_index, Hnum. cbn [c2 zvariables]. rewrite Hz1.
    destruct (index_of (attr_is an') (attributes c1) 0) as [j |] eqn:Ej; [| reflexivity].
    cbn [mbind option_bind].
    assert (Hj : nth_at (attributes c2) j = nth_at (attributes c1) j).
    { unfold nth_at. destruct (Z.ltb_spec j 0); [reflexivity |].
      cbn [c2 attributes]. apply list_lookup_insert_ne.
      intros E. assert (j = k) as -> by lia.
      destruct (index_of_nth_at _ _ _ Ej) as (a' & Ha' & Hn').
      destruct (index_of_nth_at _ _ _ Hk) as (a'' & Ha'' & Hn'').
      apply String.eqb_eq in Hn', Hn''. congruence. }
    now rewrite Hj.
Qed.

Lemma get_variable_attribute_string_run (h : Z) (an vn d : string) (s : globals)
  (c : cdf) :
  open_at s h c ->
  z_entry c an vn = Some (V_char d) ->
  fst (imcdf_get_variable_attribute_string h an vn s) = Some d.
Proof.
  intros Ho Hz. unfold z_entry in Hz. rewrite attr_named_index in Hz.
  destruct (index_of (attr_is an) (attributes c) 0) as [k |] eqn:Ek; [| discriminate].
  cbn [mbind option_bind] in Hz.
  destruct (nth_at (attributes c) k) as [a |] eqn:Ha; [| discriminate].
  cbn [mbind option_bind] in Hz.
  destruct (index_of (named vn) (zvariables c) 0) as [i |] eqn:Ei; [| discriminate].
  cbn [mbind option_bind] in Hz.
  pose proof (index_of_bounds _ _ _ _ Ek) as [Hkb _].
  pose proof (index_of_bounds _ _ _ _ Ei) as [Hib _].
  unfold imcdf_get_variable_attribute_string, get_variable_attribute.
  rewrite bind_run, (sanity_check_open s h c Ho). cbn [fst snd Z.eqb negb].
  rewrite bind_run, (ask_run _ _ _ _ Ho). cbn [fst snd].
  rewrite CDFgetVarNum_index, Ei. destruct (Z.ltb_spec i 0); [lia |].
  rewrite bind_run, (ask_run _ _ _ _ Ho). cbn [fst snd].
  unfold CDFattrNum. rewrite CDFgetAttrNum_index, Ek. destruct (Z.ltb_spec k 0); [lia |].
  rewrite bind_run, (ask_run _ _ _ _ Ho). cbn [fst snd].
  unfold CDFinquireAttrzEntry, inquire_entry, get_entry. rewrite Ha, Hz.
  cbn [data_type_of num_elements_of]. step.
  change (CDF_OK <? 0) with false. cbv iota.
  change (negb (CDF_CHAR =? CDF_CHAR)) with false. cbv iota.
  unfold ask at 1. rewrite bind_run. cbn [fst snd].
  destruct Ho as [Hv Hid]. unfold id_at in Hid |- *. cbn [cdf_ids]. rewrite Hid.
  unfold CDFgetAttrzEntry, get_entry. rewrite Ha, Hz. step.
  reflexivity.
Qed.

(** ** Writing a variable *)

Lemma check_ok (call : M Z) (msg param : string) (rest : M (option string))
  (s s' : globals) :
  call s = (0, s') -> check call msg param rest s = rest s'.
Proof. intros Hc. unfold check. rewrite bind_run, Hc. reflexivity. Qed.

(** Whatever the call does, [check] returns a message that begins with
    [msg], or goes on. *)
Lemma check_elim (P : option string * globals -> Prop) (call : M Z)
  (msg param : string) (rest : M (option string)) (s : globals) :
  (forall s', P (rest s')) ->
  (forall m s', String.prefix msg m = true -> P (Some m, s')) ->
  P (check call msg param rest s).
Proof.
  intros Hrest Hfail. unfold check. rewrite bind_run.
  destruct (negb (fst (call s) =? 0)); [| apply Hrest].
  step.
  destruct (format_error_message_run msg (Some param) (cdf_status (snd (call s)))
              (snd (call s))) as (m & Hm & Hp).
  rewrite Hm. step. apply Hfail, Hp.
Qed.

Lemma create_data_array_run (h : Z) (vn : string) (data : list Double.double) (len : Z)
  (s : globals) (c : cdf) :
  open_at s h c ->
  exists s' c' i,
    imcdf_create_data_array h vn data len s = (0, s')
    /\ open_at s' h c'
    /\ attributes c' = attributes c
    /\ index_of (named vn) (zvariables c') 0 = Some i
    /\ is_Some (zvar_named c' vn).
Proof.
  intros Ho. unfold imcdf_create_data_array.
  destruct (create_array_run CDF_DOUBLE h vn (V_double <$> data) len s c Ho)
    as (s' & c' & zv & Hrun & Ho' & Hattr & Hzv & _).
  rewrite zvar_named_index in Hzv.
  destruct (index_of (named vn) (zvariables c') 0) as [i |] eqn:Ei; [| discriminate].
  exists s', c', i. split; [exact Hrun |]. split; [exact Ho' |].
  split; [exact Hattr |]. split; [exact Ei |].
  rewrite zvar_named_index, Ei. eauto.
Qed.

(** The eight attributes are written for an existing variable. *)
Lemma write_attributes_run (h : Z) (vn : string) (v : IMCDFVariable) (d lablaxis : string)
  (s : globals) (c : cdf) (i : Z) :
  open_at s h c ->
  index_of (named vn) (zvariables c) 0 = Some i ->
  let err := "Error writing variable attribute" in
  exists s' c',
    check (imcdf_add_variable_attr_string h "FIELDNAM" vn (field_nam v)) err "FIELDNAM" (
    check (imcdf_add_variable_attr_string h "UNITS" vn (units v)) err "UNITS" (
    check (imcdf_add_variable_attr_double h "FILLVAL" vn (fill_val v)) err "FILLVAL" (
    check (imcdf_add_variable_attr_double h "VALIDMIN" vn (valid_min v)) err "VALIDMIN" (
    check (imcdf_add_variable_attr_double h "VALIDMAX" vn (valid_max v)) err "VALIDMAX" (
    check (imcdf_add_variable_attr_string h "DEPEND_0" vn d) err "DEPEND_0" (
    check (imcdf_add_variable_attr_string h "DISPLAY_TYPE" vn "time_series")
      err "DISPLAY_TYPE" (
    check (imcdf_add_variable_attr_string h "LABLAXIS" vn lablaxis) err "LABLAXIS" (
    mret None)))))))) s = (None, s')
    /\ open_at s' h c'
    /\ zvariables c' = zvariables c
    /\ z_entry c' "DEPEND_0" vn = Some (V_char d)
    /\ z_entry c' "DISPLAY_TYPE" vn = Some (V_char "time_series")
    /\ z_entry c' "LABLAXIS" vn = Some (V_char lablaxis).
Proof.
  intros Ho Hi err.
  unfold imcdf_add_variable_attr_string, imcdf_add_variable_attr_double.
  destruct (add_variable_attr_run h "FIELDNAM" vn (V_char (field_nam v)) s c i Ho Hi)
    as (s1 & c1 & R1 & Ho1 & Hz1 & _ & _).
  rewrite (check_ok _ _ _ _ _ _ R1). rewrite <- Hz1 in Hi.
  destruct (add_variable_attr_run h "UNITS" vn (V_char (units v)) s1 c1 i Ho1 Hi)
    as (s2 & c2 & R2 & Ho2 & Hz2 & _ & _).
  rewrite (check_ok _ _ _ _ _ _ R2). rewrite <- Hz2 in Hi.
  destruct (add_variable_attr_run h "FILLVAL" vn (V_double (fill_val v)) s2 c2 i Ho2 Hi)
    as (s3 & c3 & R3 & Ho3 & Hz3 & _ & _).
  rewrite (check_ok _ _ _ _ _ _ R3). rewrite <- Hz3 in Hi.
  destruct (add_variable_attr_run h "VALIDMIN" vn (V_double (valid_min v)) s3 c3 i Ho3 Hi)
    as (s4 & c4 & R4 & Ho4 & Hz4 & _ & _).
  rewrite (check_ok _ _ _ _ _ _ R4). rewrite <- Hz4 in Hi.
  destruct (add_variable_attr_run h "VALIDMAX" vn (V_double (valid_max v)) s4 c4 i Ho4 Hi)
    as (s5 & c5 & R5 & Ho5 & Hz5 & _ & _).
  rewrite (check_ok _ _ _ _ _ _ R5). rewrite <- Hz5 in Hi.
  destruct (add_variable_attr_run h "DEPEND_0" vn (V_char d) s5 c5 i Ho5 Hi)
    as (s6 & c6 & R6 & Ho6 & Hz6 & Hd6 & _).
  rewrite (check_ok _ _ _ _ _ _ R6). rewrite <- Hz6 in Hi.
  destruct (add_variable_attr_run h "DISPLAY_TYPE" vn (V_char "time_series") s6 c6 i Ho6 Hi)
    as (s7 & c7 & R7 & Ho7 & Hz7 & Hd7 & Hk7).
  rewrite (check_ok _ _ _ _ _ _ R7). rewrite <- Hz7 in Hi.
  destruct (add_variable_attr_run h "LABLAXIS" vn (V_char lablaxis) s7 c7 i Ho7 Hi)
    as (s8 & c8 & R8 & Ho8 & Hz8 & Hd8 & Hk8).
  rewrite (check_ok _ _ _ _ _ _ R8).
  exists s8, c8. split; [reflexivity |]. split; [exact Ho8 |].
  split; [congruence |].
  split; [rewrite Hk8, Hk7 by discriminate; exact Hd6 |].
  split; [rewrite Hk8 by discriminate; exact Hd7 | exact Hd8].
Qed.

Lemma write_variable_run (h : Z) (v : IMCDFVariable) (ug : bool) (s : globals) (c : cdf)
  (vn : string) :
  open_at s h c ->
  create_var_name (var_type v) (elem_rec v) = Some vn ->
  match resolve_depend_0 v ug with
  | inl m => fst (imcdf_write_variable h v ug s) = Some m
  | inr d =>
      exists s' c',
        imcdf_write_variable h v ug s = (None, s')
        /\ open_at s' h c'
        /\ is_Some (zvar_named c' vn)
        /\ z_entry c' "DEPEND_0" vn = Some (V_char d)
        /\ fst (imcdf_get_variable_attribute_string h "DEPEND_0" vn s') = Some d
  end.
Proof.
  intros Ho Hvn. unfold imcdf_write_variable. rewrite Hvn.
  destruct (create_data_array_run h vn (data v) (data_len v) s c Ho)
    as (s1 & c1 & i & Hrun & Ho1 & _ & Hi & Hex).
  rewrite bind_run, Hrun. cbn [fst snd Z.eqb negb].
  destruct (resolve_depend_0 v ug) as [m | d]; [reflexivity |]. cbn zeta.
  destruct (write_attributes_run h vn v d
              (if decide (var_type v = IMCDF_VARTYPE_TEMPERATURE)
               then "Temperature " +:+ elem_rec v else elem_rec v) s1 c1 i Ho1 Hi)
    as (s' & c' & Hw & Ho' & Hz & Hd & _).
  exists s', c'. split; [exact Hw |]. split; [exact Ho' |].
  split; [| split; [exact Hd |]].
  - rewrite zvar_named_index, Hz, <- zvar_named_index. exact Hex.
  - now apply (get_variable_attribute_string_run h _ _ _ s' c').
Qed.

Lemma is_vector_true (t : IMCDFVariableType) (c : string) :
  negb (imcdf_is_vector_gm_data t c =? 0) = true
  <-> t = IMCDF_VARTYPE_GEOMAGNETIC_FIELD_ELEMENT /\ toupper (deref c) ∈ vector_codes.
Proof.
  rewrite is_vector_char. repeat case_decide; repeat case_bool_decide; cbn;
    split; intros Hx; try discriminate; try tauto; reflexivity.
Qed.

Lemma is_scalar_true (t : IMCDFVariableType) (c : string) :
  negb (imcdf_is_scalar_gm_data t c =? 0) = true
  <-> t = IMCDF_VARTYPE_GEOMAGNETIC_FIELD_ELEMENT /\ toupper (deref c) ∈ scalar_codes.
Proof.
  rewrite is_scalar_char. repeat case_decide; repeat case_bool_decide; cbn;
    split; intros Hx; try discriminate; try tauto; reflexivity.
Qed.

Lemma vector_not_scalar (x : ascii) : x ∈ vector_codes -> x ∈ scalar_codes -> False.
Proof.
  unfold vector_codes, scalar_codes. intros Hv Hs.
  repeat (apply elem_of_cons in Hv as [-> | Hv];
          [repeat (apply elem_of_cons in Hs as [Hs | Hs]; [discriminate Hs |]);
           inversion Hs |]).
  inversion Hv.
Qed.

(** C2: with [use_given_depend_0] false, [imcdf_write_variable] writes as
    DEPEND_0 "GeomagneticVectorTimes" for a GeomagneticFieldElement with a
    vector code, "GeomagneticScalarTimes" for one with a scalar code, and
    "Temperature<code>Times" for a Temperature variable; for every other
    combination of type and code the block that derives the value returns
    "Missing or invalid element code", the write returns that message
    whenever the variable has a name, and it returns an error in every
    case; with [use_given_depend_0] true the stored dependency string is
    written as it is.  The value written is the one that
    [imcdf_get_variable_attribute_string] reads back.  The variable is one
    that the routine and the CDF library can take: its code fits
    [elem_rec], the dependency written fits the 50 bytes of [depend_0],
    the strings written are not empty, [data_len] is the length of the
    data, and an attribute of the CDF with one of the eight names that are
    written is of variable scope. *)
Theorem depend_0_derivation (h : Z) (s : globals) (c : cdf) (v : IMCDFVariable) :
  open_at s h c ->
  let code := toupper (deref (elem_rec v)) in
  let written (use_given_depend_0 : bool) (vn d : string) :=
    writable v d ->
    Forall (variable_scope c) variable_attr_names ->
    exists s',
      imcdf_write_variable h v use_given_depend_0 s = (None, s')
      /\ fst (imcdf_get_variable_attribute_string h "DEPEND_0" vn s') = Some d in
  (var_type v = IMCDF_VARTYPE_GEOMAGNETIC_FIELD_ELEMENT -> code ∈ vector_codes ->
   written false ("GeomagneticField" +:+ elem_rec v) "GeomagneticVectorTimes")
  /\ (var_type v = IMCDF_VARTYPE_GEOMAGNETIC_FIELD_ELEMENT -> code ∈ scalar_codes ->
      written false ("GeomagneticField" +:+ elem_rec v) "GeomagneticScalarTimes")
  /\ (var_type v = IMCDF_VARTYPE_TEMPERATURE ->
      written false ("Temperature" +:+ elem_rec v)
        ("Temperature" +:+ elem_rec v +:+ "Times"))
  /\ (var_type v <> IMCDF_VARTYPE_TEMPERATURE ->
      ~ (var_type v = IMCDF_VARTYPE_GEOMAGNETIC_FIELD_ELEMENT
         /\ (code ∈ vector_codes \/ code ∈ scalar_codes)) ->
      fits ELEM_REC_SIZE (elem_rec v) ->
      data_len v = Z.of_nat (length (data v)) ->
      resolve_depend_0 v false = inl "Missing or invalid element code"
      /\ (forall vn, create_var_name (var_type v) (elem_rec v) = Some vn ->
                     fst (imcdf_write_variable h v false s)
                     = Some "Missing or invalid element code")
      /\ exists m, fst (imcdf_write_variable h v false s) = Some m)
  /\ (forall vn, create_var_name (var_type v) (elem_rec v) = Some vn ->
                 written true vn (depend_0 v)).
Proof.
  intros Ho code written.
  assert (Hwritten : forall ug vn d,
            create_var_name (var_type v) (elem_rec v) = Some vn ->
            resolve_depend_0 v ug = inr d -> written ug vn d).
  { intros ug vn d Hvn Hres _ _.
    pose proof (write_variable_run h v ug s c vn Ho Hvn) as Hrun. rewrite Hres in Hrun.
    destruct Hrun as (s' & c' & Hw & _ & _ & _ & Hget). exists s'. split; assumption. }
  split; [| split; [| split; [| split]]].
  - intros Ht Hcode. apply Hwritten; [rewrite Ht; reflexivity |].
    unfold resolve_depend_0.
    rewrite (proj2 (is_vector_true _ _) (conj Ht Hcode)). reflexivity.
  - intros Ht Hcode. apply Hwritten; [rewrite Ht; reflexivity |].
    unfold resolve_depend_0.
    destruct (negb (imcdf_is_vector_gm_data (var_type v) (elem_rec v) =? 0)) eqn:Ev.
    + apply is_vector_true in Ev as [_ Ev]. destruct (vector_not_scalar _ Ev Hcode).
    + rewrite (proj2 (is_scalar_true _ _) (conj Ht Hcode)). reflexivity.
  - intros Ht. apply Hwritten; [rewrite Ht; reflexivity |].
    unfold resolve_depend_0. rewrite is_vector_char, is_scalar_char, Ht. reflexivity.
  - intros Ht Hcode _ _.
    assert (Hres : resolve_depend_0 v false = inl "Missing or invalid element code").
    { unfold resolve_depend_0.
      destruct (negb (imcdf_is_vector_gm_data (var_type v) (elem_rec v) =? 0)) eqn:Ev;
        [apply is_vector_true in Ev; tauto |].
      destruct (negb (imcdf_is_scalar_gm_data (var_type v) (elem_rec v) =? 0)) eqn:Es;
        [apply is_scalar_true in Es; tauto |].
      destruct (decide (var_type v <> IMCDF_VARTYPE_TEMPERATURE)); [reflexivity | tauto]. }
    assert (Hvn : forall vn, create_var_name (var_type v) (elem_rec v) = Some vn ->
                             fst (imcdf_write_variable h v false s)
                             = Some "Missing or invalid element code").
    { intros vn Hvn.
      pose proof (write_variable_run h v false s c vn Ho Hvn) as Hrun.
      now rewrite Hres in Hrun. }
    split; [exact Hres |]. split; [exact Hvn |].
    destruct (create_var_name (var_type v) (elem_rec v)) as [vn |] eqn:Evn.
    + eexists. now apply (Hvn vn).
    + unfold imcdf_write_variable. rewrite Evn. eexists. reflexivity.
  - intros vn Hvn. now apply Hwritten.
Qed.

Ltac sample_is_writable :=
  split; [apply Nat.ltb_lt; reflexivity |];
  split; [apply Nat.ltb_lt; reflexivity |];
  split; [repeat split; discriminate | reflexivity].

Lemma depend_0_derivation_witness :
  let s := one_open empty_cdf 0 in
  (exists s',
     imcdf_write_variable 0
       (sample_variable IMCDF_VARTYPE_GEOMAGNETIC_FIELD_ELEMENT "D" EmptyString) false s = (None, s')
     /\ fst (imcdf_get_variable_attribute_string 0 "DEPEND_0" "GeomagneticFieldD" s')
        = Some "GeomagneticVectorTimes")
  /\ (exists s',
        imcdf_write_variable 0 (sample_variable IMCDF_VARTYPE_TEMPERATURE "2" EmptyString) false s
        = (None, s')
        /\ fst (imcdf_get_variable_attribute_string 0 "DEPEND_0" "Temperature2" s')
           = Some "Temperature2Times").
Proof.
  intros s.
  assert (Ho : open_at s 0 empty_cdf)
    by (split; [vm_compute; split; congruence | reflexivity]).
  assert (Hscope : Forall (variable_scope empty_cdf) variable_attr_names)
    by (repeat (constructor; [exact I |]); constructor).
  split.
  - apply (proj1 (depend_0_derivation 0 s empty_cdf
                    (sample_variable IMCDF_VARTYPE_GEOMAGNETIC_FIELD_ELEMENT "D" EmptyString) Ho));
      [reflexivity | vm_compute; repeat constructor | sample_is_writable | exact Hscope].
  - apply (proj1 (proj2 (proj2 (depend_0_derivation 0 s empty_cdf
                    (sample_variable IMCDF_VARTYPE_TEMPERATURE "2" EmptyString) Ho))));
      [reflexivity | sample_is_writable | exact Hscope].
Defined.

(** ** The name of a variable *)

Lemma length_append (a b : string) :
  String.length (a +:+ b) = (String.length a + String.length b)%nat.
Proof.
  induction a as [| x a IH]; [reflexivity |].
  change (String x a +:+ b) with (String x (a +:+ b)). cbn [String.length].
  now rewrite IH.
Qed.



(** * Further properties *)

(** ** Codes and their strings *)

Lemma code_tolower_inj (x y : ascii) :
  (code (tolower x) =? code (tolower y)) = true -> tolower x = tolower y.
Proof.
  intros E. apply Z.eqb_eq in E. unfold code in E.
  apply N2Z.inj in E. rewrite <- (ascii_N_embedding (tolower x)), E.
  apply ascii_N_embedding.
Qed.

Lemma code_tolower_zero (x : ascii) : code (tolower x) = 0 -> x = zero.
Proof. destruct x as [[] [] [] [] [] [] [] []]; vm_compute; first [discriminate | reflexivity]. Qed.

Lemma strcasecmp_zero (a b : string) :
  c_string a -> c_string b ->
  strcasecmp a b = 0 <-> strmap tolower a = strmap tolower b.
Proof.
  revert b. induction a as [| x a IH]; intros [| y b] Ha Hb; cbn [strcasecmp strmap].
  - tauto.
  - split; [| discriminate]. intros E. destruct Hb as [Hy _].
    destruct Hy. apply code_tolower_zero. lia.
  - split; [| discriminate]. intros E. destruct Ha as [Hx _].
    destruct Hx. now apply code_tolower_zero.
  - destruct Ha as [_ Ha], Hb as [_ Hb].
    destruct (code (tolower x) =? code (tolower y)) eqn:E.
    + apply code_tolower_inj in E. rewrite (IH b Ha Hb), E. split; [congruence |].
      intros Hx. now injection Hx.
    + split; [intros Hx; apply Z.eqb_neq in E; lia |].
      intros Hx. injection Hx as Hx _. rewrite Hx, Z.eqb_refl in E. discriminate.
Qed.

Lemma tolower_toupper (c : ascii) : tolower (toupper c) = tolower c.
Proof. destruct c as [[] [] [] [] [] [] [] []]; reflexivity. Qed.

Lemma strmap_strmap (f g : ascii -> ascii) (s : string) :
  strmap f (strmap g s) = strmap (fun c => f (g c)) s.
Proof. induction s as [| c s IH]; cbn [strmap]; [reflexivity | now rewrite IH]. Qed.

Lemma strmap_ext (f g : ascii -> ascii) (s : string) :
  (forall c, f c = g c) -> strmap f s = strmap g s.
Proof. intros E. induction s as [| c s IH]; cbn [strmap]; [reflexivity | now rewrite E, IH]. Qed.

Lemma strcasecmp_same_letters (a a' b : string) :
  strmap tolower a = strmap tolower a' -> strcasecmp a b = strcasecmp a' b.
Proof.
  revert a' b. induction a as [| x a IH]; intros [| x' a'] b E; cbn [strmap] in E;
    try discriminate E; [reflexivity |].
  injection E as Ex E. destruct b as [| y b]; cbn [strcasecmp]; rewrite Ex;
    [reflexivity |].
  now rewrite (IH a' b E).
Qed.

(** A character that is not a lower-case letter is the lower-case form of
    itself only. *)
Lemma tolower_inv (x y : ascii) : tolower x = y -> islower y = false -> x = y.
Proof.
  intros <-. destruct x as [[] [] [] [] [] [] [] []]; vm_compute;
    first [discriminate | reflexivity].
Qed.

Lemma isdigit_not_lower (d : ascii) : isdigit d = true -> islower d = false.
Proof. destruct d as [[] [] [] [] [] [] [] []]; vm_compute; first [discriminate | reflexivity]. Qed.

Lemma tolower_digit (a : string) (d : ascii) :
  isdigit d = true -> strmap tolower a = one_char d <-> a = one_char d.
Proof.
  intros Hd. pose proof (isdigit_not_lower d Hd) as Hl. split.
  - destruct a as [| x [| y r]]; cbn [strmap one_char]; intros E; try discriminate E.
    injection E as E. now rewrite (tolower_inv x d E Hl).
  - intros ->. cbn [strmap one_char]. f_equal. unfold tolower.
    destruct (isupper d) eqn:Hu; [| reflexivity].
    destruct d as [[] [] [] [] [] [] [] []]; vm_compute in Hd, Hu; congruence.
Qed.

(** X1: the strings that the three [..._code_tostring] routines give are
    parsed back to the code that they were made from; this is what lets a
    level that was written be read again. *)
Theorem codes_round_trip :
  (forall code, imcdf_parse_pub_level_string (imcdf_pub_level_code_tostring code) = code)
  /\ (forall code,
        imcdf_parse_standard_level_string (imcdf_standard_level_code_tostring code) = code)
  /\ (forall code, imcdf_parse_var_type_string (imcdf_var_type_code_tostring code) = code).
Proof. repeat split; intros []; reflexivity. Qed.

Lemma strcasecmp_lower (a w : string) :
  c_string a -> c_string w -> strmap tolower w = w ->
  (strcasecmp a w =? 0) = bool_decide (strmap tolower a = w).
Proof.
  intros Ha Hw Hl. pose proof (strcasecmp_zero a w Ha Hw) as Hz. rewrite Hl in Hz.
  destruct (Z.eqb_spec (strcasecmp a w) 0); case_bool_decide; tauto.
Qed.

Ltac c_string_literal := cbn; repeat split; discriminate.

Lemma parse_standard_level_cases (a : string) :
  c_string a ->
  imcdf_parse_standard_level_string a
  = if bool_decide (strmap tolower a = "full") then IMCDF_STANDLEVEL_FULL
    else if bool_decide (strmap tolower a = "partial") then IMCDF_STANDLEVEL_PARTIAL
    else IMCDF_STANDLEVEL_NONE.
Proof.
  intros Ha. unfold imcdf_parse_standard_level_string.
  rewrite !(strcasecmp_lower a) by (assumption || c_string_literal || reflexivity).
  repeat case_bool_decide; reflexivity.
Qed.

Lemma strcasecmp_same_letters_r (a b b' : string) :
  strmap tolower b = strmap tolower b' -> strcasecmp a b = strcasecmp a b'.
Proof.
  revert a b'. induction b as [| y b IH]; intros a [| y' b'] E; cbn [strmap] in E;
    try discriminate E; [reflexivity |].
  injection E as Ey E. destruct a as [| x a]; cbn [strcasecmp]; rewrite Ey;
    [reflexivity |].
  now rewrite (IH a b' E).
Qed.

Lemma parse_var_type_cases (a : string) :
  c_string a ->
  imcdf_parse_var_type_string a
  = if bool_decide (strmap tolower a = "geomagneticfieldelement")
    then IMCDF_VARTYPE_GEOMAGNETIC_FIELD_ELEMENT
    else if bool_decide (strmap tolower a = "temperature") then IMCDF_VARTYPE_TEMPERATURE
    else IMCDF_VARTYPE_ERROR.
Proof.
  intros Ha. unfold imcdf_parse_var_type_string.
  rewrite (strcasecmp_same_letters_r a "GeomagneticFieldElement" "geomagneticfieldelement")
    by reflexivity.
  rewrite (strcasecmp_same_letters_r a "Temperature" "temperature") by reflexivity.
  rewrite !(strcasecmp_lower a) by (assumption || c_string_literal || reflexivity).
  repeat case_bool_decide; reflexivity.
Qed.

Lemma parse_pub_level_cases (a : string) :
  c_string a ->
  imcdf_parse_pub_level_string a
  = if bool_decide (a = "2") then IMCDF_PUBLEVEL_2
    else if bool_decide (a = "3") then IMCDF_PUBLEVEL_3
    else if bool_decide (a = "4") then IMCDF_PUBLEVEL_4
    else IMCDF_PUBLEVEL_1.
Proof.
  intros Ha. unfold imcdf_parse_pub_level_string.
  rewrite !(strcasecmp_lower a) by (assumption || c_string_literal || reflexivity).
  pose proof (tolower_digit a "1" eq_refl) as H1.
  pose proof (tolower_digit a "2" eq_refl) as H2.
  pose proof (tolower_digit a "3" eq_refl) as H3.
  pose proof (tolower_digit a "4" eq_refl) as H4.
  unfold one_char in *.
  rewrite (bool_decide_ext _ _ H1), (bool_decide_ext _ _ H2), (bool_decide_ext _ _ H3),
    (bool_decide_ext _ _ H4).
  repeat case_bool_decide; subst; first [reflexivity | congruence].
Qed.

(** X2: the three parsers look at the letters of the string without their
    case: two strings that are equal once lower-cased are parsed alike, a
    string and its upper-case form in particular.  A C string is parsed to
    a value other than the default one exactly when its lower-case form is
    the name of that value. *)
Theorem parsers_ignore_case (a b : string) :
  (strmap tolower a = strmap tolower b ->
     imcdf_parse_pub_level_string a = imcdf_parse_pub_level_string b
     /\ imcdf_parse_standard_level_string a = imcdf_parse_standard_level_string b
     /\ imcdf_parse_var_type_string a = imcdf_parse_var_type_string b)
  /\ imcdf_parse_standard_level_string (strmap toupper a)
     = imcdf_parse_standard_level_string a
  /\ imcdf_parse_var_type_string (strmap toupper a) = imcdf_parse_var_type_string a
  /\ (c_string a ->
      (imcdf_parse_standard_level_string a = IMCDF_STANDLEVEL_FULL
       <-> strmap tolower a = "full")
      /\ (imcdf_parse_standard_level_string a = IMCDF_STANDLEVEL_PARTIAL
          <-> strmap tolower a = "partial")
      /\ (imcdf_parse_var_type_string a = IMCDF_VARTYPE_GEOMAGNETIC_FIELD_ELEMENT
          <-> strmap tolower a = "geomagneticfieldelement")
      /\ (imcdf_parse_var_type_string a = IMCDF_VARTYPE_TEMPERATURE
          <-> strmap tolower a = "temperature")
      /\ (imcdf_parse_pub_level_string a = IMCDF_PUBLEVEL_2 <-> a = "2")
      /\ (imcdf_parse_pub_level_string a = IMCDF_PUBLEVEL_3 <-> a = "3")
      /\ (imcdf_parse_pub_level_string a = IMCDF_PUBLEVEL_4 <-> a = "4")).
Proof.
  assert (Hup : strmap tolower (strmap toupper a) = strmap tolower a).
  { rewrite strmap_strmap. apply strmap_ext, tolower_toupper. }
  split; [| split; [| split]].
  - intros E. unfold imcdf_parse_pub_level_string, imcdf_parse_standard_level_string,
      imcdf_parse_var_type_string.
    now rewrite !(strcasecmp_same_letters a b _ E).
  - unfold imcdf_parse_standard_level_string.
    now rewrite !(strcasecmp_same_letters _ a _ Hup).
  - unfold imcdf_parse_var_type_string.
    now rewrite !(strcasecmp_same_letters _ a _ Hup).
  - intros Ha.
    rewrite (parse_standard_level_cases a Ha), (parse_var_type_cases a Ha),
      (parse_pub_level_cases a Ha).
    repeat split; repeat case_bool_decide; intros Hx;
      first [assumption | reflexivity | discriminate Hx | congruence].
Qed.

Lemma parsers_ignore_case_witness :
  imcdf_parse_standard_level_string "PARTIAL" = IMCDF_STANDLEVEL_PARTIAL
  /\ imcdf_parse_standard_level_string "pArTiAl" = imcdf_parse_standard_level_string "Partial".
Proof.
  pose proof (parsers_ignore_case "PARTIAL" "Partial") as (_ & _ & _ & Hc).
  specialize (Hc ltac:(c_string_literal)). destruct Hc as (_ & Hp & _).
  split; [apply Hp; reflexivity |].
  exact (proj1 (proj2 (proj1 (parsers_ignore_case "pArTiAl" "Partial") eq_refl))).
Defined.

(** X3: the name that [imcdf_get_var_name] makes for a geomagnetic element
    is never the name under which [imcdf_write_variable] and
    [imcdf_read_variable] keep a variable whose code has fewer than seven
    characters (one made of a single character in particular): it begins
    with "GeomagneticFieldElement", the name in the CDF with
    "GeomagneticField" followed by the code.  For a temperature the two
    names are the same. *)
Theorem get_var_name_is_another_name (element_code : ascii) (elem_rec : string) :
  ((String.length elem_rec < 7)%nat ->
   create_var_name IMCDF_VARTYPE_GEOMAGNETIC_FIELD_ELEMENT elem_rec
   <> Some (imcdf_get_var_name IMCDF_VARTYPE_GEOMAGNETIC_FIELD_ELEMENT element_code))
  /\ create_var_name IMCDF_VARTYPE_GEOMAGNETIC_FIELD_ELEMENT (one_char element_code)
     <> Some (imcdf_get_var_name IMCDF_VARTYPE_GEOMAGNETIC_FIELD_ELEMENT element_code)
  /\ (element_code <> zero ->
      create_var_name IMCDF_VARTYPE_TEMPERATURE (one_char element_code)
      = Some (imcdf_get_var_name IMCDF_VARTYPE_TEMPERATURE element_code))
  /\ imcdf_get_var_name IMCDF_VARTYPE_ERROR element_code
     = "Error" +:+ (if Ascii.eqb element_code zero then EmptyString
                    else one_char element_code).
Proof.
  assert (Hlen : forall e : string,
            (String.length e < 7)%nat ->
            create_var_name IMCDF_VARTYPE_GEOMAGNETIC_FIELD_ELEMENT e
            <> Some (imcdf_get_var_name IMCDF_VARTYPE_GEOMAGNETIC_FIELD_ELEMENT
                       element_code)).
  { intros e He E. cbn [create_var_name] in E. injection E as E.
    apply (f_equal String.length) in E. unfold imcdf_get_var_name in E.
    rewrite !length_append in E. cbn [imcdf_var_type_code_tostring] in E.
    simpl String.length in E. lia. }
  split; [apply Hlen |]. split; [apply Hlen; cbn; lia |]. split; [| reflexivity].
  intros Hc. unfold imcdf_get_var_name. cbn [create_var_name imcdf_var_type_code_tostring].
  destruct (Ascii.eqb_spec element_code zero); [contradiction | reflexivity].
Qed.

Lemma get_var_name_is_another_name_witness :
  create_var_name IMCDF_VARTYPE_GEOMAGNETIC_FIELD_ELEMENT "H"
  <> Some (imcdf_get_var_name IMCDF_VARTYPE_GEOMAGNETIC_FIELD_ELEMENT "H")
  /\ create_var_name IMCDF_VARTYPE_TEMPERATURE "1"
     = Some (imcdf_get_var_name IMCDF_VARTYPE_TEMPERATURE "1").
Proof.
  pose proof (get_var_name_is_another_name "H" "H") as (Hg & _).
  pose proof (get_var_name_is_another_name "1" "1") as (_ & _ & Ht & _).
  split; [apply Hg; cbn; lia | apply Ht; discriminate].
Defined.

Lemma dt_to_pub_level_char (dt : string) :
  imcdf_dt_to_pub_level dt
  = let c := toupper (deref dt) in
    if bool_decide (c ∈ ["P"; "A"]%char) then IMCDF_PUBLEVEL_2
    else if bool_decide (c = "Q"%char) then IMCDF_PUBLEVEL_3
    else if bool_decide (c = "D"%char) then IMCDF_PUBLEVEL_4
    else IMCDF_PUBLEVEL_1.
Proof.
  unfold imcdf_dt_to_pub_level.
  destruct (deref dt) as [[] [] [] [] [] [] [] []]; vm_compute; reflexivity.
Qed.

(** X4: [imcdf_dt_to_pub_level] looks at the first character of the data
    type only, without its case: level 2 for P or A, 3 for Q, 4 for D, and
    level 1 for every other string, the empty one and one that is no data
    type included; no string is refused. *)
Theorem dt_to_pub_level_first_char (dt : string) :
  imcdf_dt_to_pub_level dt = imcdf_dt_to_pub_level (one_char (toupper (deref dt)))
  /\ imcdf_dt_to_pub_level dt = imcdf_dt_to_pub_level (one_char (tolower (deref dt)))
  /\ (imcdf_dt_to_pub_level dt = IMCDF_PUBLEVEL_2
      <-> toupper (deref dt) = "P"%char \/ toupper (deref dt) = "A"%char)
  /\ (imcdf_dt_to_pub_level dt = IMCDF_PUBLEVEL_3 <-> toupper (deref dt) = "Q"%char)
  /\ (imcdf_dt_to_pub_level dt = IMCDF_PUBLEVEL_4 <-> toupper (deref dt) = "D"%char)
  /\ imcdf_dt_to_pub_level EmptyString = IMCDF_PUBLEVEL_1
  /\ imcdf_dt_to_pub_level
       <$> ["variation"; "Reported"; "provisional"; "ADJUSTED"; "quasi-definitive";
            "Definitive"; "unknown"]
     = [IMCDF_PUBLEVEL_1; IMCDF_PUBLEVEL_1; IMCDF_PUBLEVEL_2; IMCDF_PUBLEVEL_2;
        IMCDF_PUBLEVEL_3; IMCDF_PUBLEVEL_4; IMCDF_PUBLEVEL_1].
Proof.
  rewrite !dt_to_pub_level_char. cbn [deref one_char]. cbv zeta.
  assert (Hlu : toupper (tolower (deref dt)) = toupper (deref dt))
    by (destruct (deref dt) as [[] [] [] [] [] [] [] []]; reflexivity).
  rewrite toupper_idempotent, Hlu.
  split; [reflexivity |]. split; [reflexivity |].
  split; [| split; [| split; [| split; reflexivity]]].
  all: repeat case_bool_decide; set_unfold; split; intros Hx;
    first [reflexivity | discriminate Hx | intuition congruence].
Qed.

(** ** TT2000 arithmetic *)

Lemma wrap64_range (z : Z) : LLONG_MIN <= wrap64 z <= LLONG_MAX.
Proof.
  unfold wrap64, LLONG_MIN, LLONG_MAX.
  pose proof (Z.mod_pos_bound (z + 2 ^ 63) (2 ^ 64) ltac:(lia)). lia.
Qed.

Lemma tt2000_inc_wrap (tt2000 inc : Z) :
  imcdf_tt2000_inc tt2000 inc = wrap64 (tt2000 + inc * 1000000000).
Proof. unfold imcdf_tt2000_inc. apply wrap64_add_r. Qed.

(** X5: [imcdf_tt2000_inc] adds seconds modulo 2^64 nanoseconds: an
    increment of 0 leaves a time stamp as it is, two increments in a row
    are the increment by their sum, an increment followed by its opposite
    gives the time stamp back, even when the value in between left the
    range of TT2000 and wrapped around; within the range the result is the
    exact sum. *)
Theorem tt2000_inc_composes (tt2000 a b : Z) :
  LLONG_MIN <= tt2000 <= LLONG_MAX ->
  Double.INT_MIN <= a <= Double.INT_MAX ->
  Double.INT_MIN <= b <= Double.INT_MAX ->
  imcdf_tt2000_inc tt2000 0 = tt2000
  /\ (Double.INT_MIN <= a + b <= Double.INT_MAX ->
      imcdf_tt2000_inc (imcdf_tt2000_inc tt2000 a) b = imcdf_tt2000_inc tt2000 (a + b))
  /\ (a <> Double.INT_MIN -> imcdf_tt2000_inc (imcdf_tt2000_inc tt2000 a) (- a) = tt2000)
  /\ LLONG_MIN <= imcdf_tt2000_inc tt2000 a <= LLONG_MAX
  /\ (LLONG_MIN <= tt2000 + a * 1000000000 <= LLONG_MAX ->
      imcdf_tt2000_inc tt2000 a = tt2000 + a * 1000000000).
Proof.
  intros Ht Ha Hb. rewrite !tt2000_inc_wrap.
  split; [rewrite Z.add_0_r; now apply wrap64_id |].
  split; [| split; [| split]].
  - intros _. rewrite wrap64_add_l. f_equal. lia.
  - intros _. rewrite wrap64_add_l.
    replace (tt2000 + a * 1000000000 + - a * 1000000000) with tt2000 by lia.
    now apply wrap64_id.
  - apply wrap64_range.
  - apply wrap64_id.
Qed.

Lemma tt2000_inc_composes_witness :
  imcdf_tt2000_inc (imcdf_tt2000_inc 9223372036000000000 1) (-1) = 9223372036000000000
  /\ imcdf_tt2000_inc 9223372036000000000 1 = -9223372036709551616.
Proof.
  split; [| reflexivity].
  apply (tt2000_inc_composes 9223372036000000000 1 1); vm_compute;
    first [split; discriminate | discriminate].
Defined.

(** X6: [imcdf_calc_samp_per_from_tt2000] gives the difference of the
    first two time stamps in whole seconds, rounded towards zero, whatever
    follows them in the array: a spacing of less than a second gives the
    period 0, and two time stamps in descending order give a negative
    period. *)
Theorem calc_samp_per_truncates (t0 t1 : Z) (rest : list Z) :
  Z.abs (t1 - t0) <= LLONG_MAX ->
  Z.abs ((t1 - t0) ÷ 1000000000) <= Double.INT_MAX ->
  imcdf_calc_samp_per_from_tt2000 (t0 :: t1 :: rest) = Some ((t1 - t0) ÷ 1000000000)
  /\ imcdf_calc_samp_per_from_tt2000 (t1 :: t0 :: rest) = Some (- ((t1 - t0) ÷ 1000000000))
  /\ (Z.abs (t1 - t0) < 1000000000 ->
      imcdf_calc_samp_per_from_tt2000 (t0 :: t1 :: rest) = Some 0)
  /\ (forall k r, t1 - t0 = k * 1000000000 + r -> 0 <= k -> 0 <= r < 1000000000 ->
                  imcdf_calc_samp_per_from_tt2000 (t0 :: t1 :: rest) = Some k).
Proof.
  intros Hd Hq. cbn [imcdf_calc_samp_per_from_tt2000].
  assert (H1 : wrap64 (t1 - t0) = t1 - t0)
    by (apply wrap64_id; unfold LLONG_MIN, LLONG_MAX in *; lia).
  assert (H2 : wrap64 (t0 - t1) = - (t1 - t0)).
  { replace (t0 - t1) with (- (t1 - t0)) by lia.
    apply wrap64_id; unfold LLONG_MIN, LLONG_MAX in *; lia. }
  rewrite H1, H2, Z.quot_opp_l by lia.
  assert (H3 : wrap32 ((t1 - t0) ÷ 1000000000) = (t1 - t0) ÷ 1000000000)
    by (apply wrap32_id; unfold Double.INT_MIN, Double.INT_MAX in *; lia).
  assert (H4 : wrap32 (- ((t1 - t0) ÷ 1000000000)) = - ((t1 - t0) ÷ 1000000000))
    by (apply wrap32_id; unfold Double.INT_MIN, Double.INT_MAX in *; lia).
  rewrite H3, H4. split; [reflexivity |]. split; [reflexivity |]. split.
  - intros Hs. f_equal. apply Z.quot_small_iff; lia.
  - intros k r E Hk Hr. f_equal. rewrite E.
    rewrite Z.quot_div_nonneg by lia.
    symmetry. apply (Z.div_unique _ _ k r); lia.
Qed.

Lemma calc_samp_per_truncates_witness :
  imcdf_calc_samp_per_from_tt2000 [0; 999999999; 5] = Some 0
  /\ imcdf_calc_samp_per_from_tt2000 [60000000000; 0] = Some (-60).
Proof.
  split.
  - apply (calc_samp_per_truncates 0 999999999 [5]); vm_compute;
      first [discriminate | reflexivity].
  - apply (calc_samp_per_truncates 0 60000000000 []); vm_compute; discriminate.
Defined.

(** ** The table of handles, continued *)

Lemma sanity_check_run (s : globals) (h : Z) :
  sanity_check_handles h s
  = (if decide (valid_handle (initialised s) h) then 0 else -1, initialised s).
Proof.
  unfold sanity_check_handles, initialised, valid_handle. rewrite bind_run.
  destruct (initialise_cdf_ids s) as [[] s0]. step.
  destruct (Z.ltb_spec h 0); [case_decide; [lia | reflexivity] |].
  destruct (Z.geb_spec h (cdf_index s0)); case_decide; first [lia | reflexivity].
Qed.

Lemma initialised_started (s : globals) : 0 <= cdf_index s -> initialised s = s.
Proof.
  intros Hs. unfold initialised, initialise_cdf_ids.
  destruct (Z.ltb_spec (cdf_index s) 0); [lia | reflexivity].
Qed.

Lemma append_empty_r (a : string) : a +:+ EmptyString = a.
Proof.
  induction a as [| c a IH]; [reflexivity |].
  change (String c a +:+ EmptyString) with (String c (a +:+ EmptyString)). now rewrite IH.
Qed.

Lemma format_error_message_last (msg : string) (param : option string) (s : globals) :
  format_error_message msg param (cdf_status s) s
  = (match param with Some p => msg +:+ ": " +:+ p | None => msg end
       +:+ cdf_error_text (cdf_status s), s).
Proof.
  unfold format_error_message, cdf_error_text.
  destruct (cdf_status s =? CDF_OK); cbn [negb]; step.
  - destruct param; now rewrite append_empty_r.
  - destruct param; rewrite ?append_assoc; reflexivity.
Qed.

Lemma move_ids_down_lookup (n : nat) :
  forall (count : Z) (ids : list CDFid) (k : Z),
    1 <= count -> 0 <= k ->
    default None (nth_at (move_ids_down n count ids) k)
    = if decide (count - 1 <= k < count - 1 + Z.of_nat n)
      then default None (nth_at ids (k + 1))
      else default None (nth_at ids k).
Proof.
  induction n as [| n IH]; intros count ids k Hc Hk.
  - cbn [move_ids_down]. case_decide; [lia | reflexivity].
  - cbn [move_ids_down]. rewrite IH by lia.
    assert (Hins : forall j, 0 <= j ->
              default None
                (nth_at (<[Z.to_nat (count - 1) := default None (nth_at ids count)]> ids) j)
              = if decide (j = count - 1) then default None (nth_at ids count)
                else default None (nth_at ids j)).
    { intros j Hj. unfold nth_at.
      destruct (Z.ltb_spec j 0); [lia |]. destruct (Z.ltb_spec count 0); [lia |].
      case_decide as Hjc.
      - subst j. destruct (decide (Z.to_nat (count - 1) < length ids)%nat) as [Hl | Hl].
        + now rewrite list_lookup_insert_eq.
        + assert (Hge : (length ids <= Z.to_nat (count - 1))%nat) by lia.
          rewrite (list_insert_ge ids _ _ Hge).
          rewrite (lookup_ge_None_2 ids (Z.to_nat (count - 1)) Hge).
          now rewrite (lookup_ge_None_2 ids (Z.to_nat count)) by lia.
      - rewrite list_lookup_insert_ne by lia. reflexivity. }
    rewrite !Hins by lia.
    repeat case_decide; first [lia | reflexivity | (f_equal; f_equal; lia)].
Qed.

(** X7: [imcdf_close] on the handle of an open CDF returns 0, and sorts
    out the table of identifiers by moving those behind the closed one
    down by one place: the handles below the closed one keep their CDF,
    the CDF that answered to handle [k + 1] now answers to handle [k], and
    the largest handle is no longer accepted.  The handles that the caller
    holds for the CDFs opened later do not designate them any more.  When
    the identifier designates no CDF the call fails with the status of the
    library and the table is left as it was. *)
Theorem close_moves_handles_down (h : Z) (s : globals) :
  valid_handle s h ->
  (is_Some (id_at s h) ->
   exists s',
     imcdf_close h s = (0, s')
     /\ imcdf_close2 h s = (None, s')
     /\ cdf_index s' = cdf_index s - 1
     /\ cdf_status s' = CDF_OK
     /\ (forall k, 0 <= k < h -> id_at s' k = id_at s k)
     /\ (forall k, h <= k < cdf_index s - 1 -> id_at s' k = id_at s (k + 1))
     /\ ~ valid_handle s' (cdf_index s - 1))
  /\ (id_at s h = None ->
      imcdf_close h s = (-1, with_status s BAD_CDF_ID)
      /\ imcdf_close2 h s
         = (Some ("Error closing CDF file" +:+ cdf_error_text BAD_CDF_ID),
            with_status s BAD_CDF_ID)).
Proof.
  intros Hv.
  assert (Hrun : imcdf_close h s
                 = match id_at s h with
                   | Some _ =>
                       (0, {| cdf_ids := move_ids_down (Z.to_nat (cdf_index s - (h + 1)))
                                           (h + 1) (cdf_ids s);
                              cdf_index := cdf_index s - 1;
                              cdf_status := CDF_OK |})
                   | None => (-1, with_status s BAD_CDF_ID)
                   end).
  { unfold imcdf_close. rewrite bind_run, (sanity_check_valid s h Hv).
    cbn [fst snd Z.eqb negb]. step. destruct (id_at s h); reflexivity. }
  unfold imcdf_close2. rewrite bind_run, Hrun. split.
  - intros [c Hc]. rewrite Hc. cbn [fst snd Z.eqb negb]. eexists.
    split; [reflexivity |]. split; [reflexivity |]. split; [reflexivity |].
    split; [reflexivity |]. destruct Hv as [H0 H1].
    split; [| split].
    + intros k Hk. unfold id_at. cbn [cdf_ids].
      rewrite move_ids_down_lookup by lia. case_decide; [lia | reflexivity].
    + intros k Hk. unfold id_at. cbn [cdf_ids].
      rewrite move_ids_down_lookup by lia. case_decide; [reflexivity | lia].
    + unfold valid_handle. cbn [cdf_index]. lia.
  - intros Hc. rewrite Hc. split; [reflexivity |]. cbn [fst snd Z.eqb negb]. step.
    unfold with_status at 1 2. cbn [cdf_status].
    rewrite (format_error_message_last "Error closing CDF file" None
               (with_status s BAD_CDF_ID)).
    reflexivity.
Qed.

Lemma close_moves_handles_down_witness :
  let c1 := {| attributes := []; zvariables := [] |} in
  let c2 := {| attributes := [g_attr "Title" (V_char "second")]; zvariables := [] |} in
  let s := {| cdf_ids := Some c1 :: Some c2 :: replicate 8 None; cdf_index := 2;
              cdf_status := CDF_OK |} in
  exists s', imcdf_close 0 s = (0, s') /\ id_at s' 0 = Some c2 /\ ~ valid_handle s' 1.
Proof.
  intros c1 c2 s.
  destruct (close_moves_handles_down 0 s) as [Hopen _]; [vm_compute; split; congruence |].
  destruct Hopen as (s' & Hrun & _ & _ & _ & _ & Hdown & Hlast); [eexists; reflexivity |].
  exists s'. split; [exact Hrun |]. split; [| exact Hlast].
  now rewrite (Hdown 0) by (cbn; lia).
Defined.

(** X8: on an open handle [imcdf_is_var_exist] returns 0 exactly for the
    names of the variables of the CDF, and leaves the state as it is; for
    another name it returns -1 and the last status is [NO_SUCH_VAR].  After
    [imcdf_write_time_stamps] the name of the time stamps is found. *)
Theorem is_var_exist_agrees (h : Z) (s : globals) (c : cdf) (name : string) :
  open_at s h c ->
  (is_Some (zvar_named c name) -> imcdf_is_var_exist h name s = (0, s))
  /\ (zvar_named c name = None ->
      imcdf_is_var_exist h name s = (-1, with_status s NO_SUCH_VAR))
  /\ (forall stamps,
        fst (imcdf_is_var_exist h name
               (snd (imcdf_write_time_stamps h
                       {| var_name := name; time_stamps := stamps;
                          ts_data_len := Z.of_nat (length stamps) |} s))) = 0).
Proof.
  intros Ho.
  assert (Hrun : forall s' c', open_at s' h c' ->
            imcdf_is_var_exist h name s'
            = if decide (is_Some (zvar_named c' name)) then (0, s')
              else (-1, with_status s' NO_SUCH_VAR)).
  { intros s' c' Ho'. unfold imcdf_is_var_exist.
    rewrite bind_run, (ask_run _ _ _ _ Ho'). cbn [fst snd].
    rewrite CDFgetVarNum_index, zvar_named_index.
    destruct (index_of (named name) (zvariables c') 0) as [i |] eqn:Ei.
    - destruct (index_of_nth_at _ _ _ Ei) as (zv & Hzv & _).
      pose proof (index_of_bounds _ _ _ _ Ei) as [Hb _].
      destruct (Z.ltb_spec i 0); [lia |]. cbn [mbind option_bind]. rewrite Hzv.
      case_decide as Hs; [reflexivity | destruct Hs; eauto].
    - change (NO_SUCH_VAR <? 0) with true. cbv iota. step. cbn [mbind option_bind].
      case_decide as Hs; [destruct Hs; discriminate | reflexivity]. }
  split; [| split].
  - intros Hs. rewrite (Hrun s c Ho). now case_decide.
  - intros Hn. rewrite (Hrun s c Ho), Hn. case_decide as Hs; [| reflexivity].
    destruct Hs; discriminate.
  - intros stamps.
    destruct (write_time_stamps_run h s c name stamps Ho)
      as (s1 & c1 & Hw & Ho1 & Hex & _).
    rewrite Hw. cbn [snd]. rewrite (Hrun s1 c1 Ho1). now case_decide.
Qed.

Lemma is_var_exist_agrees_witness :
  imcdf_is_var_exist 0 "GeomagneticVectorTimes" (one_open empty_cdf CDF_OK)
  = (-1, one_open empty_cdf NO_SUCH_VAR).
Proof.
  apply (is_var_exist_agrees 0 (one_open empty_cdf CDF_OK) empty_cdf).
  - split; [vm_compute; split; congruence | reflexivity].
  - reflexivity.
Defined.

(** ** Global attributes *)

Lemma attr_named_None (c : cdf) (name : string) :
  attr_named c name = None <-> index_of (attr_is name) (attributes c) 0 = None.
Proof.
  rewrite attr_named_index.
  destruct (index_of (attr_is name) (attributes c) 0) as [i |] eqn:Ei; [| tauto].
  destruct (index_of_nth_at _ _ _ Ei) as (a & Ha & _). cbn [mbind option_bind].
  rewrite Ha. split; discriminate.
Qed.

Lemma attr_named_name (c : cdf) (name : string) (a : attribute) :
  attr_named c name = Some a -> attr_name a = name.
Proof.
  rewrite attr_named_index.
  destruct (index_of (attr_is name) (attributes c) 0) as [i |] eqn:Ei; [| discriminate].
  destruct (index_of_nth_at _ _ _ Ei) as (a' & Ha & Hn). cbn [mbind option_bind].
  rewrite Ha. intros E. injection E as <-. now apply String.eqb_eq.
Qed.

(** What a routine [imcdf_get_global_attribute_...] returns is a function
    of the attribute of that name. *)
Lemma read_global_attr_named {A : Type} (ty : Z) (dec : value -> option A) (c : cdf)
  (name : string) (e : Z) :
  fst (read_global ty dec (Some c) name e)
  = match attr_named c name ≫= (fun a => g_entries a !! e) with
    | Some v => if data_type_of v =? ty then dec v else None
    | None => None
    end.
Proof.
  unfold read_global, CDFattrNum. rewrite CDFgetAttrNum_index, attr_named_index.
  destruct (index_of (attr_is name) (attributes c) 0) as [i |] eqn:Ei; [| reflexivity].
  pose proof (index_of_bounds _ _ _ _ Ei) as [Hb _].
  destruct (index_of_nth_at _ _ _ Ei) as (a & Ha & _).
  destruct (Z.ltb_spec i 0); [lia |]. cbn [mbind option_bind].
  unfold CDFinquireAttrgEntry, inquire_entry, CDFgetAttrgEntry, get_entry.
  rewrite Ha. cbn [mbind option_bind].
  destruct (g_entries a !! e) as [v |]; [| reflexivity].
  change (CDF_OK <? 0) with false. cbv iota.
  destruct (data_type_of v =? ty); reflexivity.
Qed.

(** The CDF with one more attribute. *)
Lemma attr_named_added (c : cdf) (a : attribute) (name : string) :
  attr_named c (attr_name a) = None ->
  attr_named {| attributes := attributes c ++ [a]; zvariables := zvariables c |} name
  = if decide (name = attr_name a) then Some a else attr_named c name.
Proof.
  intros Habs. apply attr_named_None in Habs.
  rewrite !attr_named_index. cbn [attributes].
  case_decide as Hn.
  - subst name. rewrite (index_of_app_new _ _ a 0 Habs) by (now apply String.eqb_eq).
    cbn [mbind option_bind]. apply nth_at_Some. split; [lia |].
    rewrite Z.add_0_l, Nat2Z.id, lookup_app_r by lia. now rewrite Nat.sub_diag.
  - rewrite index_of_app_other by (apply String.eqb_neq; congruence).
    destruct (index_of (attr_is name) (attributes c) 0) as [j |] eqn:Ej; [| reflexivity].
    cbn [mbind option_bind]. apply index_of_bounds in Ej as (Hb & _).
    unfold nth_at. destruct (Z.ltb_spec j 0); [reflexivity |].
    apply lookup_app_l. lia.
Qed.

Lemma with_cdf_same (s : globals) (h : Z) (c : cdf) (st : Z) :
  open_at s h c -> with_cdf s h c st = with_status s st.
Proof.
  intros Ho. destruct (open_at_lookup s h c Ho) as [_ Hl].
  unfold with_cdf, with_status. f_equal. now apply list_insert_id.
Qed.

Lemma add_global_attr_new (h : Z) (name : string) (e : Z) (v : value) (s : globals)
  (c : cdf) :
  open_at s h c -> attr_named c name = None ->
  let a := {| attr_name := name; attr_scope := GLOBAL_SCOPE;
              g_entries := {[ e := v ]}; z_entries := ∅ |} in
  let c' := {| attributes := attributes c ++ [a]; zvariables := zvariables c |} in
  exists s',
    add_global_attr h name e (Some v) s = (0, s')
    /\ open_at s' h c'
    /\ cdf_status s' = CDF_OK.
Proof.
  intros Ho Habs a c'. unfold add_global_attr.
  rewrite bind_run, (sanity_check_open s h c Ho). cbn [fst snd Z.eqb negb].
  pose proof Habs as Hidx. apply attr_named_None in Hidx.
  set (new := {| attr_name := name; attr_scope := GLOBAL_SCOPE;
                 g_entries := ∅; z_entries := ∅ |}).
  set (c1 := {| attributes := attributes c ++ [new]; zvariables := zvariables c |}).
  assert (Hcreate : CDFcreateAttr name GLOBAL_SCOPE (Some c)
                    = (CDF_OK, Z.of_nat (length (attributes c)), Some c1)).
  { unfold CDFcreateAttr. rewrite CDFgetAttrNum_index, Hidx. reflexivity. }
  rewrite bind_run, (call_run _ _ _ _ _ _ Ho Hcreate). step.
  change (CDF_OK <? CDF_WARN) with false. cbv iota.
  assert (Ho1 : open_at (with_status (with_cdf s h c1 (cdf_status s)) CDF_OK) h c1)
    by (apply open_at_with_status, (open_at_with_cdf _ _ c), Ho).
  assert (Hput : CDFputAttrgEntry (Z.of_nat (length (attributes c))) e v (Some c1)
                 = (CDF_OK, Some c')).
  { unfold CDFputAttrgEntry, put_attr_entry.
    assert (Hn : nth_at (attributes c1) (Z.of_nat (length (attributes c))) = Some new).
    { apply nth_at_Some. split; [lia |]. rewrite Nat2Z.id. cbn [c1 attributes].
      rewrite lookup_app_r by lia. now rewrite Nat.sub_diag. }
    rewrite Hn. do 2 f_equal. unfold c'. f_equal. cbn [c1 attributes].
    rewrite Nat2Z.id.
    replace (length (attributes c)) with (length (attributes c) + 0)%nat at 1 by lia.
    rewrite insert_app_r. reflexivity. }
  unfold with_status in Ho1.
  rewrite bind_run, (call_run _ _ _ _ _ _ Ho1 Hput). step.
  change (CDF_OK <? CDF_WARN) with false. cbv iota.
  eexists. split; [reflexivity |]. split; [| reflexivity].
  apply (open_at_with_status (with_cdf _ h c' _) h c' CDF_OK).
  apply (open_at_with_cdf _ _ c1). exact Ho1.
Qed.

Lemma add_global_attr_exists (h : Z) (name : string) (e : Z) (v : value) (s : globals)
  (c : cdf) :
  open_at s h c -> is_Some (attr_named c name) ->
  add_global_attr h name e (Some v) s = (-1, with_status s ATTR_EXISTS).
Proof.
  intros Ho [a Ha]. unfold add_global_attr.
  rewrite bind_run, (sanity_check_open s h c Ho). cbn [fst snd Z.eqb negb].
  assert (Hcreate : CDFcreateAttr name GLOBAL_SCOPE (Some c) = (ATTR_EXISTS, 0, Some c)).
  { unfold CDFcreateAttr. rewrite CDFgetAttrNum_index.
    rewrite attr_named_index in Ha.
    destruct (index_of (attr_is name) (attributes c) 0) as [i |] eqn:Ei; [| discriminate].
    pose proof (index_of_bounds _ _ _ _ Ei) as [Hb _].
    destruct (Z.leb_spec 0 i); [reflexivity | lia]. }
  rewrite bind_run, (call_run _ _ _ _ _ _ Ho Hcreate). step.
  change (ATTR_EXISTS <? CDF_WARN) with true. cbv iota.
  rewrite (with_cdf_same s h c _ Ho). reflexivity.
Qed.

(** A call of [add_global_attr] that returns 0 for a value was made on an
    open CDF in which the attribute did not exist. *)
Lemma add_global_attr_succeeded (h : Z) (name : string) (e : Z) (v : value)
  (s s1 : globals) :
  add_global_attr h name e (Some v) s = (0, s1) ->
  exists c c1,
    open_at (initialised s) h c /\ attr_named c name = None
    /\ open_at s1 h c1 /\ is_Some (attr_named c1 name).
Proof.
  intros Hrun.
  assert (Hinit : add_global_attr h name e (Some v) s
                  = add_global_attr h name e (Some v) (initialised s)).
  { unfold add_global_attr. rewrite !bind_run, !sanity_check_run.
    assert (Hii : initialised (initialised s) = initialised s).
    { unfold initialised, initialise_cdf_ids.
      destruct (Z.ltb_spec (cdf_index s) 0); cbn [snd cdf_index]; [reflexivity |].
      destruct (Z.ltb_spec (cdf_index s) 0); [lia | reflexivity]. }
    now rewrite Hii. }
  rewrite Hinit in Hrun. clear Hinit. set (s0 := initialised s) in *.
  destruct (decide (valid_handle s0 h)) as [Hv | Hv].
  - destruct (id_at s0 h) as [c |] eqn:Hid.
    + assert (Ho : open_at s0 h c) by (split; assumption).
      destruct (attr_named c name) as [a |] eqn:Ha.
      * rewrite (add_global_attr_exists h name e v s0 c Ho) in Hrun by eauto.
        discriminate Hrun.
      * destruct (add_global_attr_new h name e v s0 c Ho Ha) as (s' & Hr & Ho' & _).
        rewrite Hr in Hrun. injection Hrun as <-.
        eexists c, _. split; [exact Ho |]. split; [exact Ha |]. split; [exact Ho' |].
        rewrite attr_named_added by exact Ha. cbn [attr_name]. case_decide; [eauto | congruence].
    + exfalso. unfold add_global_attr in Hrun.
      rewrite bind_run, (sanity_check_valid s0 h Hv) in Hrun.
      cbn [fst snd Z.eqb negb] in Hrun. rewrite bind_run in Hrun.
      unfold call at 1 in Hrun. rewrite Hid in Hrun. cbn [CDFcreateAttr] in Hrun.
      cbn [fst snd] in Hrun. revert Hrun. step.
      change (BAD_CDF_ID <? CDF_WARN) with true. cbv iota. discriminate.
  - exfalso. unfold add_global_attr in Hrun. subst s0.
    rewrite bind_run, sanity_check_run in Hrun.
    destruct (decide (valid_handle (initialised (initialised s)) h)) as [Hv' | Hv'].
    + apply Hv. revert Hv'. unfold initialised at 1, initialise_cdf_ids.
      destruct (Z.ltb_spec (cdf_index (initialised s)) 0) as [Hlt | Hge]; [| tauto].
      exfalso. revert Hlt. unfold initialised, initialise_cdf_ids.
      destruct (Z.ltb_spec (cdf_index s) 0); cbn [snd cdf_index]; lia.
    + cbn [fst snd Z.eqb negb] in Hrun. discriminate Hrun.
Qed.

(** X9: on an open CDF that has no attribute of that name, each of the
    three routines [imcdf_add_global_attr_...] returns 0 and the value is
    the one that the routine [imcdf_get_global_attribute_...] of the same
    type reads back from that entry; the routines of the other types and
    the other entries of the attribute give nothing.  A null string is
    accepted and nothing is written for it.  The entry number is not
    negative and a string written is not empty, as the CDF library
    requires of an entry. *)
Theorem global_attr_round_trip (h : Z) (s : globals) (c : cdf) (name : string) (e : Z) :
  open_at s h c ->
  attr_named c name = None ->
  0 <= e ->
  (forall v : string,
      v <> EmptyString ->
      exists s',
        imcdf_add_global_attr_string h name e (Some v) s = (0, s')
        /\ fst (imcdf_get_global_attribute_string h name e s') = Some v
        /\ fst (imcdf_get_global_attribute_double h name e s') = None
        /\ fst (imcdf_get_global_attribute_tt2000 h name e s') = None
        /\ (forall e', e' <> e -> fst (imcdf_get_global_attribute_string h name e' s') = None))
  /\ (forall d : Double.double,
        exists s',
          imcdf_add_global_attr_double h name e d s = (0, s')
          /\ fst (imcdf_get_global_attribute_double h name e s') = Some d
          /\ fst (imcdf_get_global_attribute_string h name e s') = None)
  /\ (forall t : Z,
        exists s',
          imcdf_add_global_attr_tt2000 h name e t s = (0, s')
          /\ fst (imcdf_get_global_attribute_tt2000 h name e s') = Some t
          /\ fst (imcdf_get_global_attribute_double h name e s') = None)
  /\ imcdf_add_global_attr_string h name e None s = (0, s).
Proof.
  intros Ho Habs He.
  assert (Hread : forall (v : value) (s' : globals) (c' : cdf),
            open_at s' h c' ->
            c' = {| attributes := attributes c ++
                      [ {| attr_name := name; attr_scope := GLOBAL_SCOPE;
                           g_entries := {[ e := v ]}; z_entries := ∅ |} ];
                    zvariables := zvariables c |} ->
            forall (A : Type) (ty : Z) (dec : value -> option A) (e' : Z),
              fst (get_global_attribute ty dec h name e' s')
              = if decide (e' = e)
                then (if data_type_of v =? ty then dec v else None)
                else None).
  { intros v s' c' Ho' -> A ty dec e'.
    rewrite (get_global_attribute_run ty dec h name e' s' (proj1 Ho')). cbn [fst].
    rewrite (proj2 Ho'), read_global_attr_named, attr_named_added by exact Habs.
    cbn [attr_name]. case_decide as Hn; [| congruence]. cbn [mbind option_bind g_entries].
    case_decide as He'.
    - subst e'. now rewrite lookup_singleton_eq.
    - now rewrite lookup_singleton_ne by congruence. }
  unfold imcdf_add_global_attr_string, imcdf_add_global_attr_double,
    imcdf_add_global_attr_tt2000, imcdf_get_global_attribute_string,
    imcdf_get_global_attribute_double, imcdf_get_global_attribute_tt2000.
  split; [| split; [| split]].
  - intros v _. cbn [fmap option_fmap option_map].
    destruct (add_global_attr_new h name e (V_char v) s c Ho Habs) as (s' & Hr & Ho' & _).
    exists s'. split; [exact Hr |].
    rewrite !(Hread _ _ _ Ho' eq_refl), !decide_True by reflexivity.
    split; [reflexivity |]. split; [reflexivity |]. split; [reflexivity |].
    intros e' He'. rewrite (Hread _ _ _ Ho' eq_refl). now rewrite decide_False.
  - intros d.
    destruct (add_global_attr_new h name e (V_double d) s c Ho Habs) as (s' & Hr & Ho' & _).
    exists s'. split; [exact Hr |].
    rewrite !(Hread _ _ _ Ho' eq_refl), !decide_True by reflexivity.
    split; reflexivity.
  - intros t.
    destruct (add_global_attr_new h name e (V_tt2000 t) s c Ho Habs) as (s' & Hr & Ho' & _).
    exists s'. split; [exact Hr |].
    rewrite !(Hread _ _ _ Ho' eq_refl), !decide_True by reflexivity.
    split; reflexivity.
  - cbn [fmap option_fmap option_map]. unfold add_global_attr.
    rewrite bind_run, (sanity_check_open s h c Ho). reflexivity.
Qed.

Lemma global_attr_round_trip_witness :
  exists s',
    imcdf_add_global_attr_string 0 "IagaCode" 0 (Some "AFO") (one_open empty_cdf CDF_OK)
    = (0, s')
    /\ fst (imcdf_get_global_attribute_string 0 "IagaCode" 0 s') = Some "AFO".
Proof.
  destruct (global_attr_round_trip 0 (one_open empty_cdf CDF_OK) empty_cdf "IagaCode" 0)
    as (Hs & _).
  - split; [vm_compute; split; congruence | reflexivity].
  - reflexivity.
  - lia.
  - destruct (Hs "AFO") as (s' & Hadd & Hget & _); [discriminate |].
    exists s'. split; assumption.
Defined.

(** X10: a global attribute cannot be given a second entry through these
    routines.  Each of them first creates the attribute, and the creation of
    an attribute that exists is an error of the CDF library: once a call
    has returned 0 for an attribute, every later call for that attribute on
    the same handle returns -1, whatever the entry number, the type and the
    value, with the last status [ATTR_EXISTS], and writes nothing. *)
Theorem global_attr_second_entry_refused (h : Z) (name : string) (e1 e2 : Z)
  (v1 v2 : value) (s s1 : globals) :
  add_global_attr h name e1 (Some v1) s = (0, s1) ->
  add_global_attr h name e2 (Some v2) s1 = (-1, with_status s1 ATTR_EXISTS)
  /\ (forall x : string,
        imcdf_add_global_attr_string h name e2 (Some x) s1
        = (-1, with_status s1 ATTR_EXISTS))
  /\ (forall d, imcdf_add_global_attr_double h name e2 d s1
                = (-1, with_status s1 ATTR_EXISTS))
  /\ (forall t, imcdf_add_global_attr_tt2000 h name e2 t s1
                = (-1, with_status s1 ATTR_EXISTS)).
Proof.
  intros Hrun.
  destruct (add_global_attr_succeeded h name e1 v1 s s1 Hrun) as (c & c1 & _ & _ & Ho1 & Hex).
  unfold imcdf_add_global_attr_string, imcdf_add_global_attr_double,
    imcdf_add_global_attr_tt2000.
  repeat split; intros; now apply (add_global_attr_exists h name e2 _ s1 c1).
Qed.

Lemma global_attr_second_entry_refused_witness :
  let s1 := snd (imcdf_add_global_attr_string 0 "ParentIdentifiers" 0 (Some "first")
                   (one_open empty_cdf CDF_OK)) in
  imcdf_add_global_attr_string 0 "ParentIdentifiers" 1 (Some "second") s1
  = (-1, with_status s1 ATTR_EXISTS).
Proof.
  intros s1.
  apply (global_attr_second_entry_refused 0 "ParentIdentifiers" 0 1 (V_char "first")
           (V_char "second") (one_open empty_cdf CDF_OK) s1).
  reflexivity.
Defined.

(** ** Writing the global attributes *)

Lemma check_fail (call : M Z) (msg param : string) (rest : M (option string))
  (s s1 : globals) (rc : Z) :
  call s = (rc, s1) -> rc <> 0 ->
  check call msg param rest s
  = (Some (msg +:+ ": " +:+ param +:+ cdf_error_text (cdf_status s1)), s1).
Proof.
  intros Hc Hrc. unfold check. rewrite bind_run, Hc. cbn [fst snd].
  destruct (Z.eqb_spec rc 0); [contradiction |]. cbn [negb]. step.
  rewrite (format_error_message_last msg (Some param) s1). step.
  now rewrite !append_assoc.
Qed.

(** Two strings for one attribute: the second one is refused. *)
Lemma add_global_attr_entries_two (h : Z) (name : string) (count : Z) (x1 x2 : string)
  (l : list string) (rest : M (option string)) (s : globals) :
  exists m s',
    add_global_attr_entries h name count (x1 :: x2 :: l) rest s = (Some m, s')
    /\ String.prefix "Error writing global attribute" m = true
    /\ (fst (imcdf_add_global_attr_string h name count (Some x1) s) = 0 ->
        m = "Error writing global attribute: " +:+ name +:+ cdf_error_text ATTR_EXISTS
        /\ cdf_status s' = ATTR_EXISTS).
Proof.
  cbn [add_global_attr_entries].
  destruct (imcdf_add_global_attr_string h name count (Some x1) s) as [rc s1] eqn:E1.
  destruct (Z.eq_dec rc 0) as [-> | Hrc].
  - rewrite (check_ok _ _ _ _ _ _ E1).
    assert (E2 : imcdf_add_global_attr_string h name (count + 1) (Some x2) s1
                 = (-1, with_status s1 ATTR_EXISTS)).
    { unfold imcdf_add_global_attr_string in *. cbn [fmap option_fmap option_map] in *.
      destruct (add_global_attr_succeeded h name count _ s s1 E1)
        as (c & c1 & _ & _ & Ho1 & Hex).
      now apply (add_global_attr_exists h name _ _ s1 c1). }
    rewrite (check_fail _ _ _ _ _ _ _ E2) by discriminate.
    eexists _, _. split; [reflexivity |]. split; [apply prefix_append |].
    intros _. split; reflexivity.
  - rewrite (check_fail _ _ _ _ _ _ _ E1 Hrc).
    eexists _, _. split; [reflexivity |]. split; [apply prefix_append |].
    cbn [fst]. intros E. contradiction.
Qed.

Lemma add_global_attr_entries_elim (P : option string * globals -> Prop) (h : Z)
  (name : string) (l : list string) (rest : M (option string)) :
  (forall s', P (rest s')) ->
  (forall m s', String.prefix "Error writing global attribute" m = true -> P (Some m, s')) ->
  forall count s, P (add_global_attr_entries h name count l rest s).
Proof.
  intros Hrest Hfail. induction l as [| x l IH]; intros count s; cbn [add_global_attr_entries].
  - apply Hrest.
  - apply check_elim; [intros s'; apply IH | exact Hfail].
Qed.

Lemma take_two {A : Type} (n : Z) (l : list A) :
  2 <= n -> (2 <= length l)%nat ->
  exists x1 x2 l', take (Z.to_nat n) l = x1 :: x2 :: l'.
Proof.
  intros Hn Hl. destruct l as [| x1 [| x2 l]]; cbn [length] in Hl; try lia.
  replace (Z.to_nat n) with (S (S (Z.to_nat (n - 2)))) by lia. cbn [take]. eauto.
Qed.

(** X11: [imcdf_write_global_attrs] cannot write a structure that holds two
    or more parent identifiers, or two or more reference links: whatever
    the state and the handle, it returns an error message that begins with
    "Error writing global attribute".  The second string of such a list is
    written as a second entry of the attribute, which
    [imcdf_add_global_attr_string] refuses. *)
Theorem repeated_attributes_refused (h : Z) (ga : IMCDFGlobalAttr) (s : globals) :
  (2 <= n_parent_identifiers ga /\ (2 <= length (parent_identifiers ga))%nat)
  \/ (2 <= n_reference_links ga /\ (2 <= length (reference_links ga))%nat) ->
  exists m,
    fst (fst (imcdf_write_global_attrs h ga s)) = Some m
    /\ String.prefix "Error writing global attribute" m = true.
Proof.
  intros Htwo. unfold imcdf_write_global_attrs. cbn zeta. rewrite fmap_run. cbn [fst].
  set (P := fun r : option string * globals =>
              exists m, fst r = Some m
                        /\ String.prefix "Error writing global attribute" m = true).
  assert (Hfail : forall m s', String.prefix "Error writing global attribute" m = true ->
                               P (Some m, s'))
    by (intros m s' Hm; exists m; split; [reflexivity | exact Hm]).
  match goal with |- exists m, fst ?r = Some m /\ _ => change (P r) end.
  do 20 (apply check_elim; [clear s; intros s | exact Hfail]).
  cbn [parent_identifiers n_parent_identifiers reference_links n_reference_links
       default_values].
  destruct Htwo as [[Hn Hl] | [Hn Hl]].
  - destruct (take_two _ _ Hn Hl) as (x1 & x2 & l' & ->).
    destruct (add_global_attr_entries_two h "ParentIdentifiers" 0 x1 x2 l'
                (add_global_attr_entries h "ReferenceLinks" 0
                   (take (Z.to_nat (n_reference_links ga)) (reference_links ga))
                   (mret None)) s) as (m & s' & -> & Hp & _).
    now apply Hfail.
  - apply add_global_attr_entries_elim; [clear s; intros s | exact Hfail].
    destruct (take_two _ _ Hn Hl) as (x1 & x2 & l' & ->).
    destruct (add_global_attr_entries_two h "ReferenceLinks" 0 x1 x2 l' (mret None) s)
      as (m & s' & -> & Hp & _).
    now apply Hfail.
Qed.

Lemma repeated_attributes_refused_witness :
  let ga := {| format_description := EmptyString; format_version := EmptyString;
               title := EmptyString; iaga_code := "AFO"; elements_recorded := "HDZS";
               pub_level := IMCDF_PUBLEVEL_1; pub_date := 0;
               observatory_name := "A Fake Observatory";
               latitude := S754_zero false; longitude := S754_zero false;
               elevation := S754_zero false; institution := "INTERMAGNET";
               vector_sens_orient := None; standard_level := IMCDF_STANDLEVEL_NONE;
               standard_name := None; standard_version := None;
               partial_stand_desc := None; source := "INTERMAGNET";
               terms_of_use := None; unique_identifier := None;
               parent_identifiers := ["first"; "second"]; n_parent_identifiers := 2;
               reference_links := []; n_reference_links := 0 |} in
  fst (fst (imcdf_write_global_attrs 0 ga (one_open empty_cdf CDF_OK)))
  = Some ("Error writing global attribute: ParentIdentifiers"
            +:+ cdf_error_text ATTR_EXISTS).
Proof.
  intros ga.
  destruct (repeated_attributes_refused 0 ga (one_open empty_cdf CDF_OK)) as (m & Hm & _).
  - left. cbn. split; lia.
  - rewrite Hm. vm_compute in Hm. injection Hm as <-. reflexivity.
Defined.

(** One write of [imcdf_write_global_attrs] on an open CDF that has no
    attribute of that name. *)
Lemma add_global_attr_step (P : option string * globals -> Prop) (h : Z) (name : string)
  (v : option value) (msg : string) (rest : M (option string)) (s : globals) (c : cdf) :
  open_at s h c -> attr_named c name = None ->
  (forall s' c',
      open_at s' h c' -> zvariables c' = zvariables c ->
      (forall n, attr_named c' n
                 = if decide (n = name) then g_attr name <$> v else attr_named c n) ->
      P (rest s')) ->
  P (check (add_global_attr h name 0 v) msg name rest s).
Proof.
  intros Ho Habs Hrest. destruct v as [v |].
  - destruct (add_global_attr_new h name 0 v s c Ho Habs) as (s' & Hr & Ho' & _).
    rewrite (check_ok _ _ _ _ _ _ Hr). apply (Hrest _ _ Ho'); [reflexivity |].
    intros n. exact (attr_named_added c (g_attr name v) n Habs).
  - assert (Hr : add_global_attr h name 0 None s = (0, s)).
    { unfold add_global_attr. rewrite bind_run, (sanity_check_open s h c Ho). reflexivity. }
    rewrite (check_ok _ _ _ _ _ _ Hr). apply (Hrest _ _ Ho); [reflexivity |].
    intros n. case_decide; [subst n; exact Habs | reflexivity].
Qed.

Lemma add_global_attr_entries_step (P : option string * globals -> Prop) (h : Z)
  (name : string) (l : list string) (rest : M (option string)) (s : globals) (c : cdf) :
  open_at s h c -> attr_named c name = None -> (length l <= 1)%nat ->
  (forall s' c',
      open_at s' h c' -> zvariables c' = zvariables c ->
      (forall n, attr_named c' n
                 = if decide (n = name) then g_attr name <$> (V_char <$> head l)
                   else attr_named c n) ->
      P (rest s')) ->
  P (add_global_attr_entries h name 0 l rest s).
Proof.
  intros Ho Habs Hl Hrest. destruct l as [| x [| y l]]; cbn [length] in Hl; [| | lia].
  - cbn [add_global_attr_entries]. apply (Hrest _ _ Ho); [reflexivity |].
    intros n. case_decide; [subst n; exact Habs | reflexivity].
  - cbn [add_global_attr_entries]. unfold imcdf_add_global_attr_string.
    now apply (add_global_attr_step P h name (V_char <$> Some x) _ _ s c).
Qed.

(** The steps of the write, taken one after the other. *)
Ltac attr_lookup :=
  repeat match goal with
         | H : forall n : string, attr_named ?c n = @?f n |- context [attr_named ?c ?x] =>
             rewrite (H x);
             first [ rewrite decide_True by reflexivity
                   | rewrite decide_False by discriminate ]
         end.

Ltac write_step P :=
  match goal with
  | Ho : open_at ?s ?h ?c |- _ (check (add_global_attr ?h ?name 0 ?v) ?msg _ ?rest ?s) =>
      apply (add_global_attr_step P h name v msg rest s c Ho);
      [ attr_lookup; assumption | clear Ho; intros ? ? Ho ? ? ]
  | Ho : open_at ?s ?h ?c |- _ (add_global_attr_entries ?h ?name 0 ?l ?rest ?s) =>
      apply (add_global_attr_entries_step P h name l rest s c Ho);
      [ attr_lookup; assumption | assumption | clear Ho; intros ? ? Ho ? ? ]
  end.

Lemma write_global_attrs_run (h : Z) (s : globals) (c : cdf) (ga : IMCDFGlobalAttr) :
  open_at s h c ->
  Forall (fun n => attr_named c n = None) global_attr_names ->
  n_parent_identifiers ga = Z.of_nat (length (parent_identifiers ga)) ->
  (length (parent_identifiers ga) <= 1)%nat ->
  n_reference_links ga = Z.of_nat (length (reference_links ga)) ->
  (length (reference_links ga) <= 1)%nat ->
  exists s' c',
    imcdf_write_global_attrs h ga s = ((None, default_values ga), s')
    /\ open_at s' h c'
    /\ zvariables c' = zvariables c
    /\ Forall (fun r => attr_named c' (fst r) = g_attr (fst r) <$> snd r)
         (written_global_attrs (default_values ga))
    /\ (forall n, n ∉ global_attr_names -> attr_named c' n = attr_named c n).
Proof.
  intros Ho Habs Hnp Hlp Hnr Hlr.
  unfold imcdf_write_global_attrs. cbn zeta. rewrite fmap_run.
  set (ga' := default_values ga).
  set (P := fun r : option string * globals =>
              exists s' c',
                r = (None, s')
                /\ open_at s' h c'
                /\ zvariables c' = zvariables c
                /\ Forall (fun r => attr_named c' (fst r) = g_attr (fst r) <$> snd r)
                     (written_global_attrs ga')
                /\ (forall n, n ∉ global_attr_names -> attr_named c' n = attr_named c n)).
  match goal with
  | |- context [snd (?m s)] => assert (HP : P (m s))
  end.
  2: { destruct HP as (s' & c' & E & HP). exists s', c'. rewrite E.
       split; [reflexivity | exact HP]. }
  unfold global_attr_names in Habs.
  repeat match goal with
         | H : Forall _ (_ :: _) |- _ => apply Forall_cons in H as [? H]
         end.
  clear Habs.
  assert (Htp : take (Z.to_nat (n_parent_identifiers ga')) (parent_identifiers ga')
                = parent_identifiers ga)
    by (cbn [ga' default_values n_parent_identifiers parent_identifiers];
        rewrite Hnp, Nat2Z.id; apply firstn_all).
  assert (Htr : take (Z.to_nat (n_reference_links ga')) (reference_links ga')
                = reference_links ga)
    by (cbn [ga' default_values n_reference_links reference_links];
        rewrite Hnr, Nat2Z.id; apply firstn_all).
  rewrite Htp, Htr.
  unfold imcdf_add_global_attr_string, imcdf_add_global_attr_double,
    imcdf_add_global_attr_tt2000.
  do 22 write_step P.
  eexists _, _. split; [reflexivity |]. split; [eassumption |].
  split; [congruence |]. split.
  - unfold written_global_attrs. repeat constructor; cbn [fst snd]; attr_lookup;
      reflexivity.
  - intros n Hn.
    assert (Hne : Forall (fun x => n <> x) global_attr_names)
      by (apply Forall_forall; intros x Hx ->; contradiction).
    unfold global_attr_names in Hne.
    repeat match goal with
           | H : Forall _ (_ :: _) |- _ => apply Forall_cons in H as [? H]
           end.
    repeat match goal with
           | H : forall n : string, attr_named ?c n = @?f n |- context [attr_named ?c n] =>
               rewrite (H n), decide_False by assumption
           end.
    reflexivity.
Qed.

(** ** Reading back what was written *)

Lemma read_global_g_attr {A : Type} (ty : Z) (dec : value -> option A) (c : cdf)
  (name : string) (v : option value) (e : Z) :
  attr_named c name = g_attr name <$> v ->
  fst (read_global ty dec (Some c) name e)
  = if decide (e = 0)
    then v ≫= (fun x => if data_type_of x =? ty then dec x else None)
    else None.
Proof.
  intros Ha. rewrite read_global_attr_named, Ha.
  destruct v as [x |]; cbn [fmap option_fmap option_map mbind option_bind g_attr g_entries];
    [| now case_decide].
  case_decide as He.
  - subst e. now rewrite lookup_singleton_eq.
  - now rewrite lookup_singleton_ne by congruence.
Qed.

Lemma read_string_g_attr (c : cdf) (name : string) (x : option string) :
  attr_named c name = g_attr name <$> (V_char <$> x) ->
  read_string (Some c) name 0 = x
  /\ forall e, e <> 0 -> read_string (Some c) name e = None.
Proof.
  intros Ha. unfold read_string. split.
  - rewrite (read_global_g_attr _ _ _ _ _ _ Ha). now destruct x.
  - intros e He. rewrite (read_global_g_attr _ _ _ _ _ _ Ha). now rewrite decide_False.
Qed.

Lemma probed_unique (id : CDFid) (name : string) (l p : list string) (n : Z) :
  probed id name l n ->
  (forall i : nat, (i < length p)%nat -> read_string id name (Z.of_nat i) = p !! i) ->
  read_string id name (Z.of_nat (length p)) = None ->
  l = p /\ n = Z.of_nat (length p).
Proof.
  intros (Hn & Hl & Hend) Hp Hpend. subst n.
  assert (Hlen : length l = length p).
  { destruct (Nat.lt_trichotomy (length l) (length p)) as [Hlt | [Heq | Hgt]];
      [| exact Heq |]; exfalso.
    - rewrite (Hp _ Hlt) in Hend. apply lookup_lt_is_Some in Hlt.
      destruct Hlt as [x Hx]. congruence.
    - rewrite (Hl _ Hgt) in Hpend. apply lookup_lt_is_Some in Hgt.
      destruct Hgt as [x Hx]. congruence. }
  split; [| now rewrite Hlen].
  apply list_eq. intros i. destruct (decide (i < length l)%nat) as [Hi | Hi].
  - rewrite <- (Hl i Hi). apply Hp. lia.
  - rewrite !lookup_ge_None_2 by lia. reflexivity.
Qed.

Lemma parse_pub_level_tostring (code : IMCDFPubLevel) :
  imcdf_parse_pub_level_string (imcdf_pub_level_code_tostring code) = code.
Proof. now destruct code. Qed.

Lemma parse_standard_level_tostring (code : IMCDFStandardLevel) :
  imcdf_parse_standard_level_string (imcdf_standard_level_code_tostring code) = code.
Proof. now destruct code. Qed.

Lemma read_double_g_attr (c : cdf) (name : string) (d : Double.double) :
  attr_named c name = g_attr name <$> Some (V_double d) ->
  read_double (Some c) name = Some d.
Proof. intros Ha. unfold read_double. now rewrite (read_global_g_attr _ _ _ _ _ _ Ha). Qed.

Lemma read_tt2000_g_attr (c : cdf) (name : string) (t : Z) :
  attr_named c name = g_attr name <$> Some (V_tt2000 t) ->
  read_tt2000 (Some c) name = Some t.
Proof. intros Ha. unfold read_tt2000. now rewrite (read_global_g_attr _ _ _ _ _ _ Ha). Qed.

(** The entries of a repeatable attribute that holds one string at
    most. *)
Lemma probed_head (id : CDFid) (name : string) (l p : list string) (n : Z) :
  probed id name l n ->
  (length p <= 1)%nat ->
  read_string id name 0 = head p ->
  (forall e, e <> 0 -> read_string id name e = None) ->
  l = p /\ n = Z.of_nat (length p).
Proof.
  intros Hpr Hlen H0 Hother. apply (probed_unique id name l p n Hpr).
  - intros i Hi. assert (i = 0%nat) as -> by lia. change (Z.of_nat 0) with 0.
    now rewrite H0, head_lookup.
  - destruct p as [| x [| y p]]; cbn [length] in *; [exact H0 | | lia].
    now apply Hother.
Qed.

Lemma global_attrs_read_back (h : Z) (s : globals) (c : cdf) (ga : IMCDFGlobalAttr) :
  open_at s h c ->
  Forall (fun r => attr_named c (fst r) = g_attr (fst r) <$> snd r)
    (written_global_attrs ga) ->
  n_parent_identifiers ga = Z.of_nat (length (parent_identifiers ga)) ->
  (length (parent_identifiers ga) <= 1)%nat ->
  n_reference_links ga = Z.of_nat (length (reference_links ga)) ->
  (length (reference_links ga) <= 1)%nat ->
  metadata_valid (title ga) (format_description ga) (format_version ga) ->
  fst (imcdf_read_global_attrs h s) = inr ga.
Proof.
  intros [Hv Hid] Hw Hnp Hlp Hnr Hlr Hvalid. unfold written_global_attrs in Hw.
  repeat match goal with
         | H : Forall _ (_ :: _) |- _ => apply Forall_cons in H as [? H]
         end.
  clear Hw. cbn [fst snd] in *.
  repeat match goal with
         | H : attr_named c ?n = g_attr ?n <$> (V_char <$> ?x) |- _ =>
             apply read_string_g_attr in H as [? ?]
         | H : attr_named c ?n = g_attr ?n <$> Some (V_char ?x) |- _ =>
             apply (read_string_g_attr c n (Some x)) in H as [? ?]
         | H : attr_named c ?n = g_attr ?n <$> Some (V_double ?d) |- _ =>
             apply read_double_g_attr in H
         | H : attr_named c ?n = g_attr ?n <$> Some (V_tt2000 ?t) |- _ =>
             apply read_tt2000_g_attr in H
         end.
  destruct (read_global_attrs_complete h s Hv) as [ga' Er].
  - rewrite Hid. unfold required_present, required_strings, required_doubles.
    repeat split; repeat constructor;
      match goal with
      | H : ?x = Some _ |- is_Some ?x => rewrite H; eauto
      end.
  - rewrite Hid. intros t d v Ht Hd Hfv.
    replace t with (title ga) by congruence.
    replace d with (format_description ga) by congruence.
    replace v with (format_version ga) by congruence.
    exact Hvalid.
  - rewrite Er. f_equal.
    apply read_global_attrs_success in Er as (_ & Has & _). rewrite Hid in Has.
    unfold assembled_from in Has.
    destruct Has as (A1 & A2 & A3 & A4 & A5 & A6 & A7 & A8 & A9 & A10 & A11 & A12 & A13
                     & A14 & A15 & A16 & A17 & A18 & A19 & A20 & A21 & A22).
    destruct (probed_head _ _ _ (parent_identifiers ga) _ A21) as [Ep1 Ep2];
      [assumption .. |].
    destruct (probed_head _ _ _ (reference_links ga) _ A22) as [Er1 Er2];
      [assumption .. |].
    assert (Epl : pub_level ga' = pub_level ga).
    { match goal with
      | H : read_string _ "PublicationLevel" 0 = _ |- _ => rewrite H in A6
      end.
      cbn in A6. rewrite parse_pub_level_tostring in A6. congruence. }
    assert (Esl : standard_level ga' = standard_level ga).
    { match goal with
      | H : read_string _ "StandardLevel" 0 = _ |- _ => rewrite H in A14
      end.
      cbn in A14. rewrite parse_standard_level_tostring in A14. congruence. }
    destruct ga' as [a1 a2 a3 a4 a5 a6 a7 a8 a9 a10 a11 a12 a13 a14 a15 a16 a17 a18 a19 a20 a21 a22 a23 a24].
    destruct ga as [b1 b2 b3 b4 b5 b6 b7 b8 b9 b10 b11 b12 b13 b14 b15 b16 b17 b18 b19 b20 b21 b22 b23 b24].
    cbn [format_description format_version title iaga_code
      elements_recorded pub_level pub_date observatory_name latitude longitude elevation
      institution vector_sens_orient standard_level standard_name standard_version
      partial_stand_desc source terms_of_use unique_identifier parent_identifiers
      n_parent_identifiers reference_links n_reference_links] in *.
    f_equal; congruence.
Qed.

(** X12: on an open CDF that has none of the global attributes of
    ImagCDF, a CDF that has just been created for instance,
    [imcdf_write_global_attrs] returns null for every structure with at
    most one parent identifier and one reference link, and leaves to its
    caller the structure with the default values of a blank title, format
    description, format version and terms of use.  That structure is the
    one that [imcdf_read_global_attrs] then reads from the CDF, whenever
    its title, format description and format version pass the check of the
    read; they do when the three were left blank.  The counts of the two
    lists are their lengths and no string written is empty; the variables
    of the CDF are left as they were. *)
Theorem global_attrs_round_trip (h : Z) (s : globals) (c : cdf) (ga : IMCDFGlobalAttr) :
  open_at s h c ->
  Forall (fun n => attr_named c n = None) global_attr_names ->
  n_parent_identifiers ga = Z.of_nat (length (parent_identifiers ga)) ->
  (length (parent_identifiers ga) <= 1)%nat ->
  n_reference_links ga = Z.of_nat (length (reference_links ga)) ->
  (length (reference_links ga) <= 1)%nat ->
  entries_not_empty ga ->
  let ga' := default_values ga in
  exists s',
    imcdf_write_global_attrs h ga s = ((None, ga'), s')
    /\ (metadata_valid (title ga') (format_description ga') (format_version ga') ->
        fst (imcdf_read_global_attrs h s') = inr ga')
    /\ (is_blank (Some (title ga)) = 1 -> is_blank (Some (format_description ga)) = 1 ->
        is_blank (Some (format_version ga)) = 1 ->
        fst (imcdf_read_global_attrs h s') = inr ga')
    /\ (forall name, fst (imcdf_is_var_exist h name s') = fst (imcdf_is_var_exist h name s)).
Proof.
  intros Ho Habs Hnp Hlp Hnr Hlr _ ga'.
  destruct (write_global_attrs_run h s c ga Ho Habs Hnp Hlp Hnr Hlr)
    as (s' & c' & Hw & Ho' & Hz & Hattrs & _).
  exists s'. split; [exact Hw |].
  assert (Hback : metadata_valid (title ga') (format_description ga') (format_version ga') ->
                  fst (imcdf_read_global_attrs h s') = inr ga')
    by (intros Hvalid; now apply (global_attrs_read_back h s' c' ga')).
  split; [exact Hback |]. split.
  - intros Ht Hd Hv. apply Hback. unfold ga', default_values.
    cbn [title format_description format_version]. rewrite Ht, Hd, Hv.
    vm_compute. repeat split; congruence.
  - intros name. unfold imcdf_is_var_exist.
    rewrite !bind_run, (ask_run _ _ _ _ Ho), (ask_run _ _ _ _ Ho'). cbn [fst snd].
    rewrite !CDFgetVarNum_index, Hz.
    destruct (index_of (named name) (zvariables c) 0); [| reflexivity].
    destruct (z <? 0); reflexivity.
Qed.

Lemma global_attrs_round_trip_witness :
  let ga := {| format_description := EmptyString; format_version := EmptyString;
               title := EmptyString; iaga_code := "AFO"; elements_recorded := "HDZS";
               pub_level := IMCDF_PUBLEVEL_3; pub_date := 0;
               observatory_name := "A Fake Observatory";
               latitude := S754_zero false; longitude := S754_zero false;
               elevation := S754_zero false; institution := "INTERMAGNET";
               vector_sens_orient := Some "HDZ"; standard_level := IMCDF_STANDLEVEL_PARTIAL;
               standard_name := None; standard_version := None;
               partial_stand_desc := None; source := "INTERMAGNET";
               terms_of_use := None; unique_identifier := None;
               parent_identifiers := ["parent"]; n_parent_identifiers := 1;
               reference_links := []; n_reference_links := 0 |} in
  exists s',
    imcdf_write_global_attrs 0 ga (one_open empty_cdf CDF_OK) = ((None, default_values ga), s')
    /\ fst (imcdf_read_global_attrs 0 s') = inr (default_values ga)
    /\ format_version (default_values ga) = "1.3"
    /\ terms_of_use (default_values ga) = Some getINTERMAGNETTermsOfUse.
Proof.
  intros ga.
  destruct (global_attrs_round_trip 0 (one_open empty_cdf CDF_OK) empty_cdf ga)
    as (s' & Hw & _ & Hr & _).
  - split; [vm_compute; split; congruence | reflexivity].
  - repeat constructor.
  - reflexivity.
  - cbn; lia.
  - reflexivity.
  - cbn; lia.
  - split; repeat constructor; discriminate.
  - exists s'. split; [exact Hw |]. split; [apply Hr; reflexivity |].
    split; reflexivity.
Defined.

(** ** Variable attributes, entry by entry *)

Lemma index_of_None_named (c : cdf) (name : string) :
  zvar_named c name = None <-> index_of (named name) (zvariables c) 0 = None.
Proof.
  rewrite zvar_named_index.
  destruct (index_of (named name) (zvariables c) 0) as [i |] eqn:Ei; [| tauto].
  destruct (index_of_nth_at _ _ _ Ei) as (a & Ha & _). cbn [mbind option_bind].
  rewrite Ha. split; discriminate.
Qed.

Lemma index_of_named_inj (l : list zvariable) (a b : string) (i : Z) :
  index_of (named a) l 0 = Some i -> index_of (named b) l 0 = Some i -> a = b.
Proof.
  intros Ha Hb. destruct (index_of_nth_at _ _ _ Ha) as (x & Hx & Hnx).
  destruct (index_of_nth_at _ _ _ Hb) as (y & Hy & Hny).
  apply named_name in Hnx, Hny. congruence.
Qed.

Lemma find_variable_attribute_keeps (h : Z) (an : string) (s : globals) (c : cdf) :
  open_at s h c ->
  exists s1 c1 k a,
    find_variable_attribute h an s = (k, s1)
    /\ open_at s1 h c1
    /\ zvariables c1 = zvariables c
    /\ index_of (attr_is an) (attributes c1) 0 = Some k
    /\ nth_at (attributes c1) k = Some a
    /\ (forall an', an' <> an -> attr_named c1 an' = attr_named c an')
    /\ z_entries a = match attr_named c an with
                     | Some a0 => z_entries a0
                     | None => ∅
                     end
    /\ attr_named c1 an = Some a
    /\ (is_Some (attr_named c an) -> s1 = s /\ c1 = c).
Proof.
  intros Ho. unfold find_variable_attribute.
  rewrite bind_run, (ask_run _ _ _ _ Ho). cbn [fst snd].
  rewrite CDFgetAttrNum_index.
  destruct (index_of (attr_is an) (attributes c) 0) as [k |] eqn:Ek.
  - pose proof (index_of_bounds _ _ _ _ Ek) as [Hb _].
    destruct (index_of_nth_at _ _ _ Ek) as (a & Ha & _).
    destruct (Z.ltb_spec k 0); [lia |].
    assert (Hn : attr_named c an = Some a)
      by (rewrite attr_named_index, Ek; exact Ha).
    exists s, c, k, a. rewrite Hn.
    repeat match goal with |- _ /\ _ => split end;
      try assumption; try reflexivity; intros; split; reflexivity.
  - change (NO_SUCH_ATTR <? 0) with true. cbv iota.
    set (new := {| attr_name := an; attr_scope := VARIABLE_SCOPE;
                   g_entries := ∅; z_entries := ∅ |}).
    set (c1 := {| attributes := attributes c ++ [new]; zvariables := zvariables c |}).
    assert (Hcreate : CDFcreateAttr an VARIABLE_SCOPE (Some c)
                      = (CDF_OK, Z.of_nat (length (attributes c)), Some c1)).
    { unfold CDFcreateAttr. rewrite CDFgetAttrNum_index, Ek. reflexivity. }
    rewrite bind_run, (call_run _ _ _ _ _ _ Ho Hcreate). step.
    change (CDF_OK <? CDF_WARN) with false. cbv iota.
    assert (Habs : attr_named c (attr_name new) = None) by (now apply attr_named_None).
    assert (Hnew : attr_is an new = true) by (apply String.eqb_eq; reflexivity).
    pose proof (index_of_app_new _ _ new 0 Ek Hnew) as Ek1. rewrite Z.add_0_l in Ek1.
    assert (Hn1 : nth_at (attributes c1) (Z.of_nat (length (attributes c))) = Some new).
    { apply nth_at_Some. split; [lia |]. rewrite Nat2Z.id. cbn [c1 attributes].
      rewrite lookup_app_r by lia. now rewrite Nat.sub_diag. }
    eexists _, c1, _, new. split; [reflexivity |].
    split; [apply (open_at_with_status (with_cdf s h c1 (cdf_status s)) h c1 CDF_OK),
              (open_at_with_cdf _ _ c), Ho |].
    split; [reflexivity |]. split; [exact Ek1 |]. split; [exact Hn1 |].
    split; [| split; [| split]].
    + intros an' Hne. unfold c1. rewrite (attr_named_added c new an' Habs).
      cbn [attr_name new]. now rewrite decide_False.
    + cbn [attr_name new] in Habs. now rewrite Habs.
    + rewrite attr_named_index. cbn [c1 attributes]. rewrite Ek1. exact Hn1.
    + cbn [attr_name new] in Habs. rewrite Habs. intros [? E]. discriminate E.
Qed.

Lemma add_variable_attr_entries (h : Z) (an vn : string) (v : value) (s : globals)
  (c : cdf) (i : Z) :
  open_at s h c ->
  index_of (named vn) (zvariables c) 0 = Some i ->
  exists s' c',
    add_variable_attr h an vn v s = (0, s')
    /\ open_at s' h c'
    /\ cdf_status s' = CDF_OK
    /\ zvariables c' = zvariables c
    /\ (forall an' vn',
          z_entry c' an' vn'
          = if decide (an' = an /\ vn' = vn) then Some v else z_entry c an' vn').
Proof.
  intros Ho Hi. unfold add_variable_attr.
  rewrite bind_run, (sanity_check_open s h c Ho). cbn [fst snd Z.eqb negb].
  destruct (find_variable_attribute_keeps h an s c Ho)
    as (s1 & c1 & k & a & Hfind & Ho1 & Hz1 & Hk & Ha & Hother1 & Hza & Hna & _).
  rewrite bind_run, Hfind. cbn [fst snd].
  pose proof (index_of_bounds _ _ _ _ Hk) as [Hkb _].
  pose proof (index_of_bounds _ _ _ _ Hi) as [Hib _].
  destruct (Z.ltb_spec k 0); [lia |].
  rewrite bind_run, (ask_run _ _ _ _ Ho1). cbn [fst snd].
  rewrite CDFgetVarNum_index, Hz1, Hi.
  destruct (Z.ltb_spec i 0); [lia |].
  destruct (index_of_nth_at _ _ _ Hi) as (zv & Hzv & _).
  set (c2 := {| attributes := <[Z.to_nat k := put_entry false i v a]> (attributes c1);
                zvariables := zvariables c1 |}).
  assert (Hput : CDFputAttrzEntry k i v (Some c1) = (CDF_OK, Some c2)).
  { unfold CDFputAttrzEntry, put_attr_entry. rewrite <- Hz1 in Hzv.
    rewrite Hzv, Ha. reflexivity. }
  rewrite bind_run, (call_run _ _ _ _ _ _ Ho1 Hput). step.
  change (CDF_OK <? CDF_WARN) with false. cbv iota.
  eexists _, c2. split; [reflexivity |].
  split; [apply (open_at_with_status (with_cdf s1 h c2 (cdf_status s1)) h c2 CDF_OK),
            (open_at_with_cdf _ _ c1), Ho1 |].
  split; [reflexivity |]. split; [exact Hz1 |].
  assert (Hnum : forall an', index_of (attr_is an') (attributes c2) 0
                             = index_of (attr_is an') (attributes c1) 0).
  { intros an'. cbn [c2 attributes]. apply nth_at_Some in Ha as [_ Hl].
    now apply (index_of_insert _ _ _ a). }
  assert (Ha2 : attr_named c2 an = Some (put_entry false i v a)).
  { rewrite attr_named_index, Hnum, Hk. cbn [mbind option_bind].
    apply nth_at_Some in Ha as [Hk0 Hl]. apply nth_at_Some. split; [exact Hk0 |].
    cbn [c2 attributes]. apply list_lookup_insert_eq. apply lookup_lt_Some in Hl.
    exact Hl. }
  intros an' vn'. unfold z_entry. cbn [c2 zvariables]. rewrite Hz1.
  destruct (decide (an' = an)) as [-> | Hne].
  - rewrite Ha2. cbn [mbind option_bind put_entry z_entries].
    destruct (index_of (named vn') (zvariables c) 0) as [j |] eqn:Ej.
    + cbn [mbind option_bind]. destruct (decide (j = i)) as [-> | Hji].
      * rewrite (index_of_named_inj _ _ _ _ Ej Hi), lookup_insert_eq.
        now rewrite decide_True.
      * rewrite lookup_insert_ne by congruence. rewrite Hza.
        rewrite decide_False; [| intros [_ ->]; congruence].
        destruct (attr_named c an); reflexivity.
    + cbn [mbind option_bind]. rewrite decide_False; [| intros [_ ->]; congruence].
      destruct (attr_named c an); reflexivity.
  - rewrite decide_False by tauto. rewrite <- (Hother1 an' Hne).
    rewrite !attr_named_index, Hnum.
    destruct (index_of (attr_is an') (attributes c1) 0) as [j |] eqn:Ej; [| reflexivity].
    cbn [mbind option_bind].
    assert (Hj : nth_at (attributes c2) j = nth_at (attributes c1) j).
    { unfold nth_at. destruct (Z.ltb_spec j 0); [reflexivity |].
      cbn [c2 attributes]. apply list_lookup_insert_ne.
      intros E. assert (j = k) as -> by lia.
      destruct (index_of_nth_at _ _ _ Ej) as (a' & Ha' & Hn').
      destruct (index_of_nth_at _ _ _ Hk) as (a'' & Ha'' & Hn'').
      apply String.eqb_eq in Hn', Hn''. congruence. }
    now rewrite Hj.
Qed.

(** What a routine [imcdf_get_variable_attribute_...] returns and the
    state that it leaves, on an open CDF. *)
Lemma get_variable_attribute_run {A : Type} (ty : Z) (dec : value -> option A) (h : Z)
  (an vn : string) (s : globals) (c : cdf) :
  open_at s h c ->
  get_variable_attribute ty dec h an vn s
  = match index_of (named vn) (zvariables c) 0 with
    | None => (None, s)
    | Some i =>
        match attr_named c an with
        | None => (None, with_status s NO_SUCH_ATTR)
        | Some a =>
            match z_entries a !! i with
            | None => (None, with_status s NO_SUCH_ENTRY)
            | Some v => (if data_type_of v =? ty then dec v else None, with_status s CDF_OK)
            end
        end
    end.
Proof.
  intros Ho. unfold get_variable_attribute.
  rewrite bind_run, (sanity_check_open s h c Ho). cbn [fst snd Z.eqb negb].
  rewrite bind_run, (ask_run _ _ _ _ Ho). cbn [fst snd].
  rewrite CDFgetVarNum_index.
  destruct (index_of (named vn) (zvariables c) 0) as [i |] eqn:Ei; [| reflexivity].
  pose proof (index_of_bounds _ _ _ _ Ei) as [Hib _].
  destruct (Z.ltb_spec i 0); [lia |].
  rewrite bind_run, (ask_run _ _ _ _ Ho). cbn [fst snd].
  unfold CDFattrNum. rewrite CDFgetAttrNum_index, attr_named_index.
  destruct (index_of (attr_is an) (attributes c) 0) as [k |] eqn:Ek; [| reflexivity].
  pose proof (index_of_bounds _ _ _ _ Ek) as [Hkb _].
  destruct (index_of_nth_at _ _ _ Ek) as (a & Ha & _).
  destruct (Z.ltb_spec k 0); [lia |]. cbn [mbind option_bind]. rewrite Ha.
  rewrite bind_run, (ask_run _ _ _ _ Ho). cbn [fst snd].
  unfold CDFinquireAttrzEntry, inquire_entry, get_entry. rewrite Ha.
  destruct (z_entries a !! i) as [v |] eqn:Ev; [| reflexivity].
  step. change (CDF_OK <? 0) with false. cbv iota.
  destruct (data_type_of v =? ty); cbn [negb]; [| reflexivity].
  rewrite bind_run. unfold ask at 1. cbn [fst snd].
  rewrite (id_at_status _ _ _ s h eq_refl), (proj2 Ho).
  unfold CDFgetAttrzEntry, get_entry. rewrite Ha, Ev. step. reflexivity.
Qed.

Lemma get_variable_attribute_z_entry {A : Type} (ty : Z) (dec : value -> option A) (h : Z)
  (an vn : string) (s : globals) (c : cdf) (v : value) :
  open_at s h c ->
  z_entry c an vn = Some v ->
  get_variable_attribute ty dec h an vn s
  = (if data_type_of v =? ty then dec v else None, with_status s CDF_OK).
Proof.
  intros Ho Hz. rewrite (get_variable_attribute_run ty dec h an vn s c Ho).
  unfold z_entry in Hz.
  destruct (attr_named c an) as [a |]; [| discriminate Hz]. cbn [mbind option_bind] in Hz.
  destruct (index_of (named vn) (zvariables c) 0) as [i |]; [| discriminate Hz].
  cbn [mbind option_bind] in Hz. now rewrite Hz.
Qed.

(** An attribute that is read was there. *)
Lemma get_variable_attribute_inv {A : Type} (ty : Z) (dec : value -> option A) (h : Z)
  (an vn : string) (s : globals) (c : cdf) (x : A) :
  open_at s h c ->
  fst (get_variable_attribute ty dec h an vn s) = Some x ->
  exists v, z_entry c an vn = Some v /\ data_type_of v = ty /\ dec v = Some x
            /\ snd (get_variable_attribute ty dec h an vn s) = with_status s CDF_OK.
Proof.
  intros Ho. rewrite (get_variable_attribute_run ty dec h an vn s c Ho). unfold z_entry.
  destruct (index_of (named vn) (zvariables c) 0) as [i |]; [| discriminate].
  destruct (attr_named c an) as [a |]; [| discriminate]. cbn [mbind option_bind].
  destruct (z_entries a !! i) as [v |]; [| discriminate]. cbn [fst snd].
  destruct (Z.eqb_spec (data_type_of v) ty); [| discriminate].
  intros Hx. exists v. auto.
Qed.

(** ** Records of a variable *)

Lemma get_records_typed {A : Type} (dec : value -> option A) (enc : A -> value)
  (h i : Z) (c : cdf) (zv : zvariable) (l : list A) :
  (forall x, dec (enc x) = Some x) ->
  forall (pre : list value) (s : globals),
    open_at s h c ->
    nth_at (zvariables c) i = Some zv ->
    zvar_recs zv = pre ++ (enc <$> l) ->
    get_records dec h i (Z.of_nat (length pre)) (length l) s
    = (Some l, match l with [] => s | _ => with_status s CDF_OK end).
Proof.
  intros Hdec. induction l as [| x l IH]; intros pre s Ho Hzv Hrecs; [reflexivity |].
  cbn [length get_records]. rewrite bind_run, (ask_run _ _ _ _ Ho). cbn [fst snd].
  assert (Hget : CDFgetzVarRecordData i (Z.of_nat (length pre)) (Some c)
                 = (CDF_OK, Some (enc x))).
  { unfold CDFgetzVarRecordData. rewrite Hzv, Hrecs.
    assert (Hx : nth_at (pre ++ (enc <$> x :: l)) (Z.of_nat (length pre)) = Some (enc x)).
    { apply nth_at_Some. split; [lia |]. rewrite Nat2Z.id, lookup_app_r by lia.
      now rewrite Nat.sub_diag. }
    now rewrite Hx. }
  rewrite Hget. step. change (CDF_OK <? 0) with false. cbv iota.
  cbn [mbind option_bind]. rewrite Hdec. step.
  specialize (IH (pre ++ [enc x]) (with_status s CDF_OK)
                (open_at_with_status _ _ _ _ Ho) Hzv).
  rewrite length_app in IH. cbn [length] in IH.
  replace (Z.of_nat (length pre) + 1) with (Z.of_nat (length pre + 1)) by lia.
  unfold with_status in IH |- *. rewrite IH by (rewrite Hrecs, <- app_assoc; reflexivity).
  cbn [fst snd]. destruct l; reflexivity.
Qed.

(** The records that are read are those of the variable. *)
Lemma get_records_inv {A : Type} (dec : value -> option A) (enc : A -> value)
  (h i : Z) (c : cdf) (zv : zvariable) :
  (forall v x, dec v = Some x -> v = enc x) ->
  forall (n : nat) (pre : list value) (s : globals) (l : list A),
    open_at s h c ->
    nth_at (zvariables c) i = Some zv ->
    length (zvar_recs zv) = (length pre + n)%nat ->
    take (length pre) (zvar_recs zv) = pre ->
    fst (get_records dec h i (Z.of_nat (length pre)) n s) = Some l ->
    zvar_recs zv = pre ++ (enc <$> l).
Proof.
  intros Hdec. induction n as [| n IH]; intros pre s l Ho Hzv Hlen Hpre.
  - cbn [get_records]. intros E. injection E as <-. cbn. rewrite app_nil_r.
    rewrite <- Hpre. symmetry. apply take_ge. lia.
  - cbn [get_records]. rewrite bind_run, (ask_run _ _ _ _ Ho). cbn [fst snd].
    unfold CDFgetzVarRecordData. rewrite Hzv.
    destruct (nth_at (zvar_recs zv) (Z.of_nat (length pre))) as [v |] eqn:Ev;
      [| step; discriminate].
    step. change (CDF_OK <? 0) with false. cbv iota. cbn [mbind option_bind].
    destruct (dec v) as [x |] eqn:Ex; [| step; discriminate].
    rewrite bind_run. step.
    apply nth_at_Some in Ev as [_ Ev]. rewrite Nat2Z.id in Ev.
    specialize (IH (pre ++ [v]) (with_status s CDF_OK)).
    rewrite length_app in IH. cbn [length] in IH.
    replace (Z.of_nat (length pre) + 1) with (Z.of_nat (length pre + 1)) by lia.
    unfold with_status in IH.
    destruct (fst (get_records dec h i (Z.of_nat (length pre + 1)) n _)) as [l' |] eqn:El;
      [| discriminate].
    cbn. intros E. injection E as <-.
    assert (Htake : take (length pre + 1) (zvar_recs zv) = pre ++ [v])
      by (rewrite Nat.add_1_r, (take_S_r _ _ v Ev), Hpre; reflexivity).
    rewrite (IH l' (open_at_with_status _ _ _ _ Ho) Hzv ltac:(lia) Htake eq_refl).
    rewrite <- app_assoc. cbn. now rewrite (Hdec v x Ex).
Qed.

Lemma get_var_missing {A : Type} (ty : Z) (dec : value -> option A) (h : Z) (vn : string)
  (s : globals) (c : cdf) :
  open_at s h c -> zvar_named c vn = None -> get_var ty dec h vn s = (None, s).
Proof.
  intros Ho Hn. apply index_of_None_named in Hn. unfold get_var.
  rewrite bind_run, (sanity_check_open s h c Ho). cbn [fst snd Z.eqb negb].
  rewrite bind_run, (ask_run _ _ _ _ Ho). cbn [fst snd].
  now rewrite CDFgetVarNum_index, Hn.
Qed.

(** The part of [get_var] that follows the look-up of the variable. *)
Lemma get_var_found {A : Type} (ty : Z) (dec : value -> option A) (h : Z) (vn : string)
  (s : globals) (c : cdf) (i : Z) (zv : zvariable) :
  open_at s h c ->
  index_of (named vn) (zvariables c) 0 = Some i ->
  nth_at (zvariables c) i = Some zv ->
  get_var ty dec h vn s
  = if zvar_type zv =? ty
    then (let r := get_records dec h i 0 (length (zvar_recs zv)) (with_status s CDF_OK) in
          ((fun l => (l, Z.of_nat (length (zvar_recs zv)))) <$> fst r, snd r))
    else (None, with_status s CDF_OK).
Proof.
  intros Ho Hi Hzv. unfold get_var.
  rewrite bind_run, (sanity_check_open s h c Ho). cbn [fst snd Z.eqb negb].
  rewrite bind_run, (ask_run _ _ _ _ Ho). cbn [fst snd].
  rewrite CDFgetVarNum_index, Hi. pose proof (index_of_bounds _ _ _ _ Hi) as [Hb _].
  destruct (Z.ltb_spec i 0); [lia |].
  rewrite bind_run, (ask_run _ _ _ _ Ho). cbn [fst snd].
  unfold CDFinquirezVar. rewrite Hzv. step.
  change (CDF_OK <? 0) with false. cbv iota.
  destruct (zvar_type zv =? ty); cbn [negb]; [| reflexivity].
  change (negb (0 =? 0)) with false. cbv iota.
  rewrite bind_run. unfold ask at 1. cbn [fst snd].
  rewrite (id_at_status _ _ _ s h eq_refl), (proj2 Ho).
  unfold CDFgetzVarNumRecsWritten. rewrite Hzv. step.
  change (negb (CDF_OK =? CDF_OK)) with false. cbv iota.
  rewrite bind_run, Nat2Z.id. step. reflexivity.
Qed.

Lemma zvar_named_found (c : cdf) (vn : string) (zv : zvariable) :
  zvar_named c vn = Some zv ->
  exists i, index_of (named vn) (zvariables c) 0 = Some i
            /\ nth_at (zvariables c) i = Some zv.
Proof.
  rewrite zvar_named_index.
  destruct (index_of (named vn) (zvariables c) 0) as [i |]; [| discriminate].
  cbn [mbind option_bind]. eauto.
Qed.

Lemma get_var_typed {A : Type} (ty : Z) (dec : value -> option A) (enc : A -> value)
  (h : Z) (vn : string) (s : globals) (c : cdf) (zv : zvariable) (l : list A) :
  (forall x, dec (enc x) = Some x) ->
  open_at s h c ->
  zvar_named c vn = Some zv ->
  zvar_type zv = ty ->
  zvar_recs zv = enc <$> l ->
  get_var ty dec h vn s = (Some (l, Z.of_nat (length l)), with_status s CDF_OK).
Proof.
  intros Hdec Ho Hzv Hty Hrecs. destruct (zvar_named_found _ _ _ Hzv) as (i & Hi & Hn).
  rewrite (get_var_found ty dec h vn s c i zv Ho Hi Hn), Hty, Z.eqb_refl. cbv zeta.
  rewrite Hrecs, length_fmap.
  pose proof (get_records_typed dec enc h i c zv l Hdec [] (with_status s CDF_OK)
                (open_at_with_status _ _ _ _ Ho) Hn Hrecs) as Hrec.
  cbn [length] in Hrec. change (Z.of_nat 0) with 0 in Hrec. rewrite Hrec.
  cbn [fst snd fmap option_fmap option_map]. destruct l; reflexivity.
Qed.

Lemma get_var_mismatch {A : Type} (ty : Z) (dec : value -> option A) (h : Z) (vn : string)
  (s : globals) (c : cdf) (zv : zvariable) :
  open_at s h c ->
  zvar_named c vn = Some zv ->
  zvar_type zv <> ty ->
  get_var ty dec h vn s = (None, with_status s CDF_OK).
Proof.
  intros Ho Hzv Hty. destruct (zvar_named_found _ _ _ Hzv) as (i & Hi & Hn).
  rewrite (get_var_found ty dec h vn s c i zv Ho Hi Hn).
  destruct (Z.eqb_spec (zvar_type zv) ty); [contradiction | reflexivity].
Qed.

Lemma get_var_inv {A : Type} (ty : Z) (dec : value -> option A) (enc : A -> value)
  (h : Z) (vn : string) (s : globals) (c : cdf) (l : list A) (n : Z) :
  (forall v x, dec v = Some x -> v = enc x) ->
  open_at s h c ->
  fst (get_var ty dec h vn s) = Some (l, n) ->
  exists zv, zvar_named c vn = Some zv /\ zvar_type zv = ty
             /\ zvar_recs zv = enc <$> l /\ n = Z.of_nat (length l).
Proof.
  intros Hdec Ho Hr.
  destruct (zvar_named c vn) as [zv |] eqn:Hzv;
    [| rewrite (get_var_missing ty dec h vn s c Ho Hzv) in Hr; discriminate Hr].
  destruct (zvar_named_found _ _ _ Hzv) as (i & Hi & Hn).
  rewrite (get_var_found ty dec h vn s c i zv Ho Hi Hn) in Hr.
  destruct (Z.eqb_spec (zvar_type zv) ty); [| discriminate Hr]. cbv zeta in Hr.
  cbn [fst] in Hr.
  destruct (fst (get_records dec h i 0 (length (zvar_recs zv)) (with_status s CDF_OK)))
    as [l' |] eqn:El; [| discriminate Hr].
  cbn in Hr. injection Hr as -> <-.
  pose proof (get_records_inv dec enc h i c zv Hdec (length (zvar_recs zv)) []
                (with_status s CDF_OK) l (open_at_with_status _ _ _ _ Ho) Hn
                eq_refl eq_refl El) as Hrecs.
  cbn [app] in Hrecs.
  exists zv. split; [reflexivity |]. split; [assumption |]. split; [exact Hrecs |].
  rewrite Hrecs at 1. now rewrite length_fmap.
Qed.

(** ** Reading a variable *)

Lemma or_return_inr {A R : Type} (call : M (option A)) (msg param : string)
  (rest : A -> M (string + R)) (s : globals) (r : R) :
  fst (or_return call msg param rest s) = inr r ->
  exists v, fst (call s) = Some v /\ fst (rest v (snd (call s))) = inr r.
Proof.
  unfold or_return. rewrite bind_run. destruct (fst (call s)) as [v |]; [eauto |].
  step.
  destruct (format_error_message_run msg (Some param) (cdf_status (snd (call s)))
              (snd (call s))) as (m & Hm & _).
  rewrite Hm. step. discriminate.
Qed.

Lemma or_return_none {A R : Type} (call : M (option A)) (msg param : string)
  (rest : A -> M (string + R)) (s s1 : globals) :
  call s = (None, s1) ->
  or_return call msg param rest s
  = (inl (msg +:+ ": " +:+ param +:+ cdf_error_text (cdf_status s1)), s1).
Proof.
  intros Hc. unfold or_return. rewrite bind_run, Hc. step.
  rewrite (format_error_message_last msg (Some param) s1). step.
  now rewrite !append_assoc.
Qed.

Lemma as_char_inv (v : value) (x : string) : as_char v = Some x -> v = V_char x.
Proof. destruct v; cbn; congruence. Qed.

Lemma as_double_inv (v : value) (x : Double.double) : as_double v = Some x -> v = V_double x.
Proof. destruct v; cbn; congruence. Qed.

Lemma as_tt2000_inv (v : value) (x : Z) : as_tt2000 v = Some x -> v = V_tt2000 x.
Proof. destruct v; cbn; congruence. Qed.

Lemma zvar_named_name (c : cdf) (vn : string) (zv : zvariable) :
  zvar_named c vn = Some zv -> zvar_name zv = vn.
Proof.
  intros Hzv. destruct (zvar_named_found _ _ _ Hzv) as (i & Hi & Hn).
  destruct (index_of_nth_at _ _ _ Hi) as (zv' & Hzv' & Hname).
  apply named_name in Hname. congruence.
Qed.

Lemma get_variable_attribute_string_entry (h : Z) (an vn : string) (s : globals) (c : cdf)
  (x : string) :
  open_at s h c -> z_entry c an vn = Some (V_char x) ->
  imcdf_get_variable_attribute_string h an vn s = (Some x, with_status s CDF_OK).
Proof.
  intros Ho Hz. unfold imcdf_get_variable_attribute_string.
  now rewrite (get_variable_attribute_z_entry _ _ _ _ _ _ _ _ Ho Hz).
Qed.

Lemma get_variable_attribute_double_entry (h : Z) (an vn : string) (s : globals) (c : cdf)
  (x : Double.double) :
  open_at s h c -> z_entry c an vn = Some (V_double x) ->
  imcdf_get_variable_attribute_double h an vn s = (Some x, with_status s CDF_OK).
Proof.
  intros Ho Hz. unfold imcdf_get_variable_attribute_double.
  now rewrite (get_variable_attribute_z_entry _ _ _ _ _ _ _ _ Ho Hz).
Qed.

(** [imcdf_read_variable] returns a variable exactly when the CDF holds
    it. *)
Lemma read_variable_iff (h : Z) (t : IMCDFVariableType) (e vn : string) (s : globals)
  (c : cdf) (x : IMCDFVariable) :
  open_at s h c ->
  create_var_name t e = Some vn ->
  fst (imcdf_read_variable h t e s) = inr x
  <-> var_type x = t /\ elem_rec x = e /\ holds_variable c vn x.
Proof.
  intros Ho Hvn. unfold imcdf_read_variable. rewrite Hvn. cbn zeta.
  pose proof (open_at_with_status s h c CDF_OK Ho) as Ho1.
  split.
  - unfold imcdf_get_variable_attribute_string, imcdf_get_variable_attribute_double,
      imcdf_get_var_data.
    intros Hr.
    apply or_return_inr in Hr as (v1 & E1 & Hr).
    destruct (get_variable_attribute_inv _ _ _ _ _ _ _ _ Ho E1) as (w1 & Z1 & _ & D1 & S1).
    rewrite S1 in Hr. clear S1 E1.
    change (with_status (with_status s CDF_OK) CDF_OK) with (with_status s CDF_OK) in Hr.
    apply or_return_inr in Hr as (v2 & E2 & Hr).
    destruct (get_variable_attribute_inv _ _ _ _ _ _ _ _ Ho1 E2) as (w2 & Z2 & _ & D2 & S2).
    rewrite S2 in Hr. clear S2 E2.
    change (with_status (with_status s CDF_OK) CDF_OK) with (with_status s CDF_OK) in Hr.
    apply or_return_inr in Hr as (v3 & E3 & Hr).
    destruct (get_variable_attribute_inv _ _ _ _ _ _ _ _ Ho1 E3) as (w3 & Z3 & _ & D3 & S3).
    rewrite S3 in Hr. clear S3 E3.
    change (with_status (with_status s CDF_OK) CDF_OK) with (with_status s CDF_OK) in Hr.
    apply or_return_inr in Hr as (v4 & E4 & Hr).
    destruct (get_variable_attribute_inv _ _ _ _ _ _ _ _ Ho1 E4) as (w4 & Z4 & _ & D4 & S4).
    rewrite S4 in Hr. clear S4 E4.
    change (with_status (with_status s CDF_OK) CDF_OK) with (with_status s CDF_OK) in Hr.
    apply or_return_inr in Hr as (v5 & E5 & Hr).
    destruct (get_variable_attribute_inv _ _ _ _ _ _ _ _ Ho1 E5) as (w5 & Z5 & _ & D5 & S5).
    rewrite S5 in Hr. clear S5 E5.
    change (with_status (with_status s CDF_OK) CDF_OK) with (with_status s CDF_OK) in Hr.
    apply or_return_inr in Hr as (v6 & E6 & Hr).
    destruct (get_variable_attribute_inv _ _ _ _ _ _ _ _ Ho1 E6) as (w6 & Z6 & _ & D6 & S6).
    rewrite S6 in Hr. clear S6 E6.
    change (with_status (with_status s CDF_OK) CDF_OK) with (with_status s CDF_OK) in Hr.
    apply or_return_inr in Hr as ([l n] & E7 & Hr).
    destruct (get_var_inv CDF_DOUBLE as_double V_double h vn _ c l n as_double_inv Ho1 E7)
      as (zv & Hzv & Hty & Hrecs & Hn).
    apply as_char_inv in D1, D2, D6. apply as_double_inv in D3, D4, D5. subst.
    cbn in Hr. injection Hr as <-.
    cbn [var_type elem_rec field_nam units fill_val valid_min valid_max depend_0 data
         data_len].
    unfold holds_variable.
    cbn [var_type elem_rec field_nam units fill_val valid_min valid_max depend_0 data
         data_len].
    repeat match goal with |- _ /\ _ => split end; try assumption; try reflexivity.
    rewrite Hzv. f_equal. pose proof (zvar_named_name _ _ _ Hzv) as Hname.
    destruct zv; cbn in *; congruence.
  - intros (Ht & He & Z1 & Z2 & Z3 & Z4 & Z5 & Z6 & Hzv & Hn).
    rewrite (or_return_ok _ _ _ _ _ _ _
               (get_variable_attribute_string_entry _ _ _ _ _ _ Ho Z1)).
    rewrite (or_return_ok _ _ _ _ _ _ _
               (get_variable_attribute_string_entry _ _ _ _ _ _ Ho1 Z2)).
    change (with_status (with_status s CDF_OK) CDF_OK) with (with_status s CDF_OK).
    rewrite (or_return_ok _ _ _ _ _ _ _
               (get_variable_attribute_double_entry _ _ _ _ _ _ Ho1 Z3)).
    change (with_status (with_status s CDF_OK) CDF_OK) with (with_status s CDF_OK).
    rewrite (or_return_ok _ _ _ _ _ _ _
               (get_variable_attribute_double_entry _ _ _ _ _ _ Ho1 Z4)).
    change (with_status (with_status s CDF_OK) CDF_OK) with (with_status s CDF_OK).
    rewrite (or_return_ok _ _ _ _ _ _ _
               (get_variable_attribute_double_entry _ _ _ _ _ _ Ho1 Z5)).
    change (with_status (with_status s CDF_OK) CDF_OK) with (with_status s CDF_OK).
    rewrite (or_return_ok _ _ _ _ _ _ _
               (get_variable_attribute_string_entry _ _ _ _ _ _ Ho1 Z6)).
    change (with_status (with_status s CDF_OK) CDF_OK) with (with_status s CDF_OK).
    unfold imcdf_get_var_data.
    rewrite (or_return_ok _ _ _ _ _ _ _
               (get_var_typed CDF_DOUBLE as_double V_double h vn _ c _ (data x)
                  (fun d => eq_refl) Ho1 Hzv eq_refl eq_refl)).
    cbn [fst mret M_ret]. f_equal. destruct x; cbn in *; congruence.
Qed.

(** ** Writing a variable *)

Lemma z_entry_same_tables (c c' : cdf) (an vn : string) :
  attributes c' = attributes c ->
  index_of (named vn) (zvariables c') 0 = index_of (named vn) (zvariables c) 0 ->
  z_entry c' an vn = z_entry c an vn.
Proof.
  intros Ha Hi. unfold z_entry. rewrite !attr_named_index, Ha, Hi. reflexivity.
Qed.

Lemma index_of_named_None (c : cdf) (name : string) :
  index_of (named name) (zvariables c) 0 = None -> zvar_named c name = None.
Proof. intros H. rewrite zvar_named_index, H. reflexivity. Qed.

(** The state after the creation of the data array. *)
Lemma create_data_array_frame (h : Z) (vn : string) (l : list Double.double) (len : Z)
  (s : globals) (c : cdf) :
  open_at s h c ->
  exists s' c' i,
    imcdf_create_data_array h vn l len s = (0, s')
    /\ open_at s' h c'
    /\ attributes c' = attributes c
    /\ index_of (named vn) (zvariables c') 0 = Some i
    /\ zvar_named c' vn
       = Some match zvar_named c vn with
              | Some old =>
                  set_recs old (zvar_recs old ++ take (Z.to_nat len) (V_double <$> l))
              | None => {| zvar_name := vn; zvar_type := CDF_DOUBLE;
                           zvar_recs := take (Z.to_nat len) (V_double <$> l) |}
              end
    /\ (forall vn', vn' <> vn -> zvar_named c' vn' = zvar_named c vn')
    /\ (forall an vn', vn' <> vn -> z_entry c' an vn' = z_entry c an vn').
Proof.
  intros Ho. unfold imcdf_create_data_array.
  destruct (create_array_run CDF_DOUBLE h vn (V_double <$> l) len s c Ho)
    as (s' & c' & zv & Hrun & Ho' & Hattr & Hzv & -> & Hother & Hidx).
  destruct (zvar_named_found _ _ _ Hzv) as (i & Hi & _).
  exists s', c', i. split; [exact Hrun |]. split; [exact Ho' |].
  split; [exact Hattr |]. split; [exact Hi |]. split; [exact Hzv |].
  split; [exact Hother |].
  intros an vn' Hne. apply z_entry_same_tables; [exact Hattr |].
  destruct (index_of (named vn') (zvariables c) 0) as [j |] eqn:Ej.
  - apply (Hidx vn' j Ej).
  - apply index_of_None_named. rewrite (Hother vn' Hne).
    now apply index_of_named_None.
Qed.

Ltac entry_frame H :=
  rewrite H;
  first [ rewrite decide_True by (split; reflexivity)
        | rewrite decide_False by (intros [E _]; discriminate E) ].

(** The eight attributes that [imcdf_write_variable] writes, and what it
    leaves alone. *)
Lemma write_variable_attributes (h : Z) (vn : string) (v : IMCDFVariable) (d : string)
  (s : globals) (c : cdf) (i : Z) :
  open_at s h c ->
  index_of (named vn) (zvariables c) 0 = Some i ->
  let err := "Error writing variable attribute" in
  exists s' c',
    check (imcdf_add_variable_attr_string h "FIELDNAM" vn (field_nam v)) err "FIELDNAM" (
    check (imcdf_add_variable_attr_string h "UNITS" vn (units v)) err "UNITS" (
    check (imcdf_add_variable_attr_double h "FILLVAL" vn (fill_val v)) err "FILLVAL" (
    check (imcdf_add_variable_attr_double h "VALIDMIN" vn (valid_min v)) err "VALIDMIN" (
    check (imcdf_add_variable_attr_double h "VALIDMAX" vn (valid_max v)) err "VALIDMAX" (
    check (imcdf_add_variable_attr_string h "DEPEND_0" vn d) err "DEPEND_0" (
    check (imcdf_add_variable_attr_string h "DISPLAY_TYPE" vn "time_series")
      err "DISPLAY_TYPE" (
    check (imcdf_add_variable_attr_string h "LABLAXIS" vn (lablaxis_of v)) err "LABLAXIS" (
    mret None)))))))) s = (None, s')
    /\ open_at s' h c'
    /\ cdf_status s' = CDF_OK
    /\ zvariables c' = zvariables c
    /\ z_entry c' "FIELDNAM" vn = Some (V_char (field_nam v))
    /\ z_entry c' "UNITS" vn = Some (V_char (units v))
    /\ z_entry c' "FILLVAL" vn = Some (V_double (fill_val v))
    /\ z_entry c' "VALIDMIN" vn = Some (V_double (valid_min v))
    /\ z_entry c' "VALIDMAX" vn = Some (V_double (valid_max v))
    /\ z_entry c' "DEPEND_0" vn = Some (V_char d)
    /\ z_entry c' "DISPLAY_TYPE" vn = Some (V_char "time_series")
    /\ z_entry c' "LABLAXIS" vn = Some (V_char (lablaxis_of v))
    /\ (forall an vn', vn' <> vn -> z_entry c' an vn' = z_entry c an vn').
Proof.
  intros Ho Hi err.
  unfold imcdf_add_variable_attr_string, imcdf_add_variable_attr_double.
  destruct (add_variable_attr_entries h "FIELDNAM" vn (V_char (field_nam v)) s c i Ho Hi)
    as (s1 & c1 & R1 & Ho1 & _ & Hz1 & Hk1).
  rewrite (check_ok _ _ _ _ _ _ R1). rewrite <- Hz1 in Hi.
  destruct (add_variable_attr_entries h "UNITS" vn (V_char (units v)) s1 c1 i Ho1 Hi)
    as (s2 & c2 & R2 & Ho2 & _ & Hz2 & Hk2).
  rewrite (check_ok _ _ _ _ _ _ R2). rewrite <- Hz2 in Hi.
  destruct (add_variable_attr_entries h "FILLVAL" vn (V_double (fill_val v)) s2 c2 i Ho2 Hi)
    as (s3 & c3 & R3 & Ho3 & _ & Hz3 & Hk3).
  rewrite (check_ok _ _ _ _ _ _ R3). rewrite <- Hz3 in Hi.
  destruct (add_variable_attr_entries h "VALIDMIN" vn (V_double (valid_min v)) s3 c3 i Ho3 Hi)
    as (s4 & c4 & R4 & Ho4 & _ & Hz4 & Hk4).
  rewrite (check_ok _ _ _ _ _ _ R4). rewrite <- Hz4 in Hi.
  destruct (add_variable_attr_entries h "VALIDMAX" vn (V_double (valid_max v)) s4 c4 i Ho4 Hi)
    as (s5 & c5 & R5 & Ho5 & _ & Hz5 & Hk5).
  rewrite (check_ok _ _ _ _ _ _ R5). rewrite <- Hz5 in Hi.
  destruct (add_variable_attr_entries h "DEPEND_0" vn (V_char d) s5 c5 i Ho5 Hi)
    as (s6 & c6 & R6 & Ho6 & _ & Hz6 & Hk6).
  rewrite (check_ok _ _ _ _ _ _ R6). rewrite <- Hz6 in Hi.
  destruct (add_variable_attr_entries h "DISPLAY_TYPE" vn (V_char "time_series") s6 c6 i
              Ho6 Hi) as (s7 & c7 & R7 & Ho7 & _ & Hz7 & Hk7).
  rewrite (check_ok _ _ _ _ _ _ R7). rewrite <- Hz7 in Hi.
  destruct (add_variable_attr_entries h "LABLAXIS" vn (V_char (lablaxis_of v)) s7 c7 i
              Ho7 Hi) as (s8 & c8 & R8 & Ho8 & Hst & Hz8 & Hk8).
  rewrite (check_ok _ _ _ _ _ _ R8).
  exists s8, c8. split; [reflexivity |]. split; [exact Ho8 |]. split; [exact Hst |].
  split; [congruence |].
  split; [entry_frame Hk8; entry_frame Hk7; entry_frame Hk6; entry_frame Hk5;
          entry_frame Hk4; entry_frame Hk3; entry_frame Hk2; entry_frame Hk1;
          reflexivity |].
  split; [entry_frame Hk8; entry_frame Hk7; entry_frame Hk6; entry_frame Hk5;
          entry_frame Hk4; entry_frame Hk3; entry_frame Hk2; reflexivity |].
  split; [entry_frame Hk8; entry_frame Hk7; entry_frame Hk6; entry_frame Hk5;
          entry_frame Hk4; entry_frame Hk3; reflexivity |].
  split; [entry_frame Hk8; entry_frame Hk7; entry_frame Hk6; entry_frame Hk5;
          entry_frame Hk4; reflexivity |].
  split; [entry_frame Hk8; entry_frame Hk7; entry_frame Hk6; entry_frame Hk5;
          reflexivity |].
  split; [entry_frame Hk8; entry_frame Hk7; entry_frame Hk6; reflexivity |].
  split; [entry_frame Hk8; entry_frame Hk7; reflexivity |].
  split; [entry_frame Hk8; reflexivity |].
  intros an vn' Hne.
  rewrite Hk8, Hk7, Hk6, Hk5, Hk4, Hk3, Hk2, Hk1.
  rewrite !decide_False by (intros [_ E]; contradiction). reflexivity.
Qed.

(** The state after a write that is not refused. *)
Lemma write_variable_state (h : Z) (v : IMCDFVariable) (ug : bool) (s : globals)
  (c : cdf) (vn d : string) :
  open_at s h c ->
  create_var_name (var_type v) (elem_rec v) = Some vn ->
  resolve_depend_0 v ug = inr d ->
  exists s' c',
    imcdf_write_variable h v ug s = (None, s')
    /\ open_at s' h c'
    /\ cdf_status s' = CDF_OK
    /\ zvar_named c' vn
       = Some match zvar_named c vn with
              | Some old =>
                  set_recs old (zvar_recs old
                                ++ take (Z.to_nat (data_len v)) (V_double <$> data v))
              | None => {| zvar_name := vn; zvar_type := CDF_DOUBLE;
                           zvar_recs := take (Z.to_nat (data_len v))
                                          (V_double <$> data v) |}
              end
    /\ z_entry c' "FIELDNAM" vn = Some (V_char (field_nam v))
    /\ z_entry c' "UNITS" vn = Some (V_char (units v))
    /\ z_entry c' "FILLVAL" vn = Some (V_double (fill_val v))
    /\ z_entry c' "VALIDMIN" vn = Some (V_double (valid_min v))
    /\ z_entry c' "VALIDMAX" vn = Some (V_double (valid_max v))
    /\ z_entry c' "DEPEND_0" vn = Some (V_char d)
    /\ z_entry c' "DISPLAY_TYPE" vn = Some (V_char "time_series")
    /\ z_entry c' "LABLAXIS" vn = Some (V_char (lablaxis_of v))
    /\ (forall vn', vn' <> vn -> zvar_named c' vn' = zvar_named c vn')
    /\ (forall an vn', vn' <> vn -> z_entry c' an vn' = z_entry c an vn').
Proof.
  intros Ho Hvn Hd. unfold imcdf_write_variable. rewrite Hvn.
  destruct (create_data_array_frame h vn (data v) (data_len v) s c Ho)
    as (s1 & c1 & i & Hrun & Ho1 & _ & Hi & Hzv & Hother & Hframe).
  rewrite bind_run, Hrun. cbn [fst snd Z.eqb negb]. rewrite Hd. cbn zeta.
  destruct (write_variable_attributes h vn v d s1 c1 i Ho1 Hi)
    as (s' & c' & Hw & Ho' & Hst & Hz & E1 & E2 & E3 & E4 & E5 & E6 & E7 & E8 & Hf).
  exists s', c'. split; [exact Hw |]. split; [exact Ho' |]. split; [exact Hst |].
  split; [rewrite zvar_named_index, Hz, <- zvar_named_index; exact Hzv |].
  do 8 (split; [assumption |]).
  split.
  - intros vn' Hne. rewrite zvar_named_index, Hz, <- zvar_named_index. now apply Hother.
  - intros an vn' Hne. rewrite (Hf an vn' Hne). now apply Hframe.
Qed.

Lemma fmap_take_all {A B : Type} (f : A -> B) (l : list A) :
  take (Z.to_nat (Z.of_nat (length l))) (f <$> l) = f <$> l.
Proof. rewrite Nat2Z.id. apply take_ge. now rewrite length_fmap. Qed.

Lemma write_then_read (h : Z) (v : IMCDFVariable) (ug : bool) (s : globals)
  (c : cdf) (vn d : string) :
  open_at s h c ->
  create_var_name (var_type v) (elem_rec v) = Some vn ->
  zvar_named c vn = None ->
  resolve_depend_0 v ug = inr d ->
  data_len v = Z.of_nat (length (data v)) ->
  exists s' c',
    imcdf_write_variable h v ug s = (None, s')
    /\ open_at s' h c'
    /\ fst (imcdf_read_variable h (var_type v) (elem_rec v) s') = inr (with_depend_0 v d)
    /\ (forall vn', vn' <> vn -> zvar_named c' vn' = zvar_named c vn').
Proof.
  intros Ho Hvn Hnew Hd Hlen.
  destruct (write_variable_state h v ug s c vn d Ho Hvn Hd)
    as (s' & c' & Hw & Ho' & _ & Hzv & E1 & E2 & E3 & E4 & E5 & E6 & _ & _ & Hother & _).
  exists s', c'. split; [exact Hw |]. split; [exact Ho' |]. split; [| exact Hother].
  apply (read_variable_iff h (var_type v) (elem_rec v) vn s' c' _ Ho' Hvn).
  split; [reflexivity |]. split; [reflexivity |].
  unfold holds_variable, with_depend_0. cbn.
  do 6 (split; [assumption |]).
  split; [| exact Hlen].
  rewrite Hzv, Hnew, Hlen, fmap_take_all. reflexivity.
Qed.

(** X13: a variable written to an open CDF that has no variable of its name is
    read back as it was written, with the dependency string that
    [imcdf_write_variable] has chosen.  The variable has a name and is
    one that can be written: its code and its dependency fit their
    buffers, its [data_len] is the length of its data, which are not
    empty, and the strings written are not empty; an attribute of the CDF
    with one of the eight names that the routine writes is of variable
    scope. *)
Theorem variable_round_trip (h : Z) (v : IMCDFVariable) (ug : bool) (s : globals)
  (c : cdf) (vn d : string) :
  open_at s h c ->
  create_var_name (var_type v) (elem_rec v) = Some vn ->
  zvar_named c vn = None ->
  Forall (variable_scope c) variable_attr_names ->
  resolve_depend_0 v ug = inr d ->
  writable v d ->
  0 < data_len v ->
  exists s',
    imcdf_write_variable h v ug s = (None, s')
    /\ fst (imcdf_read_variable h (var_type v) (elem_rec v) s') = inr (with_depend_0 v d).
Proof.
  intros Ho Hvn Hnew _ Hd (_ & _ & _ & Hlen) _.
  destruct (write_then_read h v ug s c vn d Ho Hvn Hnew Hd Hlen)
    as (s' & c' & Hw & _ & Hr & _).
  exists s'. split; [exact Hw | exact Hr].
Qed.

Lemma variable_round_trip_witness :
  let v := sample_variable IMCDF_VARTYPE_GEOMAGNETIC_FIELD_ELEMENT "H" EmptyString in
  exists s',
    imcdf_write_variable 0 v false (one_open empty_cdf 0) = (None, s')
    /\ fst (imcdf_read_variable 0 IMCDF_VARTYPE_GEOMAGNETIC_FIELD_ELEMENT "H" s')
       = inr (with_depend_0 v "GeomagneticVectorTimes").
Proof.
  intros v.
  apply (variable_round_trip 0 v false (one_open empty_cdf 0) empty_cdf
           "GeomagneticFieldH" "GeomagneticVectorTimes").
  - split; [vm_compute; split; congruence | reflexivity].
  - reflexivity.
  - reflexivity.
  - repeat (constructor; [exact I |]). constructor.
  - reflexivity.
  - split; [apply Nat.ltb_lt; reflexivity |].
    split; [apply Nat.ltb_lt; reflexivity |].
    split; [repeat split; discriminate | reflexivity].
  - reflexivity.
Defined.

(** X14: [imcdf_write_variable] on a variable that the CDF already holds adds
    the data to the end of the data stored and replaces the attributes:
    what is read afterwards is the variable written with the old data
    followed by the new.  The variable is one that can be written: its
    code and its dependency fit their buffers, the new data and the
    strings written are not empty, [data_len] is the length of the data,
    and an attribute with one of the eight names is of variable scope. *)
Theorem write_variable_appends (h : Z) (v x : IMCDFVariable) (ug : bool) (s : globals)
  (c : cdf) (vn d : string) :
  open_at s h c ->
  create_var_name (var_type v) (elem_rec v) = Some vn ->
  fst (imcdf_read_variable h (var_type v) (elem_rec v) s) = inr x ->
  Forall (variable_scope c) variable_attr_names ->
  resolve_depend_0 v ug = inr d ->
  writable v d ->
  0 < data_len v ->
  exists s',
    imcdf_write_variable h v ug s = (None, s')
    /\ fst (imcdf_read_variable h (var_type v) (elem_rec v) s')
       = inr (with_data (with_depend_0 v d) (data x ++ data v)).
Proof.
  intros Ho Hvn Hx _ Hd (_ & _ & _ & Hlen) _.
  apply (read_variable_iff h _ _ vn s c x Ho Hvn) in Hx.
  destruct Hx as (_ & _ & _ & _ & _ & _ & _ & _ & Hold & _).
  destruct (write_variable_state h v ug s c vn d Ho Hvn Hd)
    as (s' & c' & Hw & Ho' & _ & Hzv & E1 & E2 & E3 & E4 & E5 & E6 & _).
  exists s'. split; [exact Hw |].
  apply (read_variable_iff h (var_type v) (elem_rec v) vn s' c' _ Ho' Hvn).
  split; [reflexivity |]. split; [reflexivity |].
  unfold holds_variable, with_data, with_depend_0. cbn.
  do 6 (split; [assumption |]).
  split; [| reflexivity].
  rewrite Hzv, Hold, Hlen, fmap_take_all. unfold set_recs. cbn.
  now rewrite fmap_app.
Qed.

Lemma write_variable_appends_witness :
  let v := sample_variable IMCDF_VARTYPE_GEOMAGNETIC_FIELD_ELEMENT "H" EmptyString in
  let s := snd (imcdf_write_variable 0 v false (one_open empty_cdf 0)) in
  exists s',
    imcdf_write_variable 0 v false s = (None, s')
    /\ fst (imcdf_read_variable 0 IMCDF_VARTYPE_GEOMAGNETIC_FIELD_ELEMENT "H" s')
       = inr (with_data (with_depend_0 v "GeomagneticVectorTimes")
                [Double.of_Z 20000; Double.of_Z 20001; Double.of_Z 20000;
                 Double.of_Z 20001]).
Proof.
  intros v s.
  apply (write_variable_appends 0 v (with_depend_0 v "GeomagneticVectorTimes") false s
           (default empty_cdf (id_at s 0)) "GeomagneticFieldH" "GeomagneticVectorTimes").
  - split; [vm_compute; split; congruence | vm_compute; reflexivity].
  - reflexivity.
  - vm_compute; reflexivity.
  - repeat (constructor; [vm_compute; reflexivity |]). constructor.
  - reflexivity.
  - split; [apply Nat.ltb_lt; reflexivity |].
    split; [apply Nat.ltb_lt; reflexivity |].
    split; [repeat split; discriminate | reflexivity].
  - reflexivity.
Defined.

(** ** Reading what is not there *)

(** X15: reading a variable or a time stamp array that the CDF does not
    hold fails without a call of the CDF library that sets the status: the
    state is unchanged, and the message ends with the text of the status
    that an earlier call has left, or with nothing when that status is
    [CDF_OK].  For a variable the message names the first attribute,
    FIELDNAM.  The element code fits [elem_rec], and the message with the
    name of the time stamps fits the buffer of the messages. *)
Theorem read_missing_variable (h : Z) (s : globals) (c : cdf) :
  open_at s h c ->
  (forall t e vn,
      fits ELEM_REC_SIZE e ->
      create_var_name t e = Some vn -> zvar_named c vn = None ->
      imcdf_read_variable h t e s
      = (inl ("Error reading variable attribute: FIELDNAM"
              +:+ cdf_error_text (cdf_status s)), s))
  /\ (forall name,
        let m := "Error reading time stamps: " +:+ name
                 +:+ cdf_error_text (cdf_status s) in
        fits MESSAGE_SIZE m ->
        zvar_named c name = None ->
        imcdf_read_time_stamps h name s = (inl m, s)).
Proof.
  intros Ho. split.
  - intros t e vn _ Hvn Hn. unfold imcdf_read_variable. rewrite Hvn. cbv zeta.
    rewrite (or_return_none _ _ _ _ s s); [reflexivity |].
    unfold imcdf_get_variable_attribute_string.
    rewrite (get_variable_attribute_run _ _ _ _ _ _ c Ho).
    apply index_of_None_named in Hn. now rewrite Hn.
  - intros name m _ Hn. unfold imcdf_read_time_stamps.
    rewrite (or_return_none _ _ _ _ s s); [reflexivity |].
    now apply (get_var_missing _ _ _ _ _ c).
Qed.

Lemma read_missing_variable_witness :
  imcdf_read_variable 0 IMCDF_VARTYPE_TEMPERATURE "1" (one_open empty_cdf NO_SUCH_ATTR)
  = (inl ("Error reading variable attribute: FIELDNAM [CDF error: ]"
          +:+ imcdf_status_code_tostring NO_SUCH_ATTR),
     one_open empty_cdf NO_SUCH_ATTR).
Proof.
  apply (proj1 (read_missing_variable 0 (one_open empty_cdf NO_SUCH_ATTR) empty_cdf
                  ltac:(split; [vm_compute; split; congruence | reflexivity]))
           IMCDF_VARTYPE_TEMPERATURE "1" "Temperature1");
    [apply Nat.ltb_lt; reflexivity | reflexivity | reflexivity].
Defined.

(** X16: [imcdf_read_time_stamps] on the name of a variable that is not of
    type [CDF_TIME_TT2000], the data of a geomagnetic element for example,
    fails with the last status [CDF_OK], so that the message carries no
    text of the CDF library.  The message fits the buffer of the
    messages. *)
Theorem read_time_stamps_of_data (h : Z) (s : globals) (c : cdf) (name : string)
  (zv : zvariable) :
  open_at s h c ->
  zvar_named c name = Some zv ->
  zvar_type zv <> CDF_TIME_TT2000 ->
  fits MESSAGE_SIZE ("Error reading time stamps: " +:+ name) ->
  imcdf_read_time_stamps h name s
  = (inl ("Error reading time stamps: " +:+ name), with_status s CDF_OK).
Proof.
  intros Ho Hzv Hty _. unfold imcdf_read_time_stamps.
  rewrite (or_return_none _ _ _ _ s (with_status s CDF_OK)).
  - cbn [cdf_status with_status]. unfold cdf_error_text.
    change (CDF_OK =? CDF_OK) with true. cbv iota.
    now rewrite append_empty_r.
  - now apply (get_var_mismatch _ _ _ _ _ c zv).
Qed.

Lemma read_time_stamps_of_data_witness :
  let v := sample_variable IMCDF_VARTYPE_GEOMAGNETIC_FIELD_ELEMENT "H" EmptyString in
  let s := snd (imcdf_write_variable 0 v false (one_open empty_cdf 0)) in
  imcdf_read_time_stamps 0 "GeomagneticFieldH" s
  = (inl "Error reading time stamps: GeomagneticFieldH", with_status s CDF_OK).
Proof.
  intros v s.
  apply (read_time_stamps_of_data 0 s (default empty_cdf (id_at s 0)) "GeomagneticFieldH"
           {| zvar_name := "GeomagneticFieldH"; zvar_type := CDF_DOUBLE;
              zvar_recs := V_double <$> data v |}).
  - split; [vm_compute; split; congruence | vm_compute; reflexivity].
  - vm_compute; reflexivity.
  - vm_compute; congruence.
  - apply Nat.ltb_lt; reflexivity.
Defined.

(** ** Writes that stop half way, and what a write leaves alone *)

(** X17: [imcdf_write_variable] stores the data before it looks at the
    element code.  When it refuses the variable with the message of the
    block that derives the dependency, the CDF already holds the data
    under the name of the variable: the message is returned and
    [imcdf_get_var_data] finds the data.  The element code fits
    [elem_rec], and [data_len] is the length of the data, which are not
    empty. *)
Theorem refused_variable_leaves_data (h : Z) (v : IMCDFVariable) (ug : bool)
  (s : globals) (c : cdf) (vn m : string) :
  open_at s h c ->
  create_var_name (var_type v) (elem_rec v) = Some vn ->
  zvar_named c vn = None ->
  resolve_depend_0 v ug = inl m ->
  fits ELEM_REC_SIZE (elem_rec v) ->
  data_len v = Z.of_nat (length (data v)) ->
  0 < data_len v ->
  exists s',
    imcdf_write_variable h v ug s = (Some m, s')
    /\ fst (imcdf_get_var_data h vn s') = Some (data v, data_len v).
Proof.
  intros Ho Hvn Hnew Hm _ Hlen _. unfold imcdf_write_variable. rewrite Hvn.
  destruct (create_data_array_frame h vn (data v) (data_len v) s c Ho)
    as (s1 & c1 & i & Hrun & Ho1 & _ & Hi & Hzv & _).
  rewrite bind_run, Hrun. cbn [fst snd Z.eqb negb]. rewrite Hm.
  exists s1. split; [reflexivity |].
  rewrite Hnew, Hlen, fmap_take_all in Hzv. unfold imcdf_get_var_data.
  rewrite (get_var_typed CDF_DOUBLE as_double V_double h vn s1 c1 _ (data v)
             (fun x => eq_refl) Ho1 Hzv eq_refl eq_refl).
  cbn [fst]. now rewrite Hlen.
Qed.

Lemma refused_variable_leaves_data_witness :
  let v := sample_variable IMCDF_VARTYPE_GEOMAGNETIC_FIELD_ELEMENT "A" EmptyString in
  exists s',
    imcdf_write_variable 0 v false (one_open empty_cdf 0)
    = (Some "Missing or invalid element code", s')
    /\ fst (imcdf_get_var_data 0 "GeomagneticFieldA" s') = Some (data v, 2).
Proof.
  intros v.
  apply (refused_variable_leaves_data 0 v false (one_open empty_cdf 0) empty_cdf
           "GeomagneticFieldA" "Missing or invalid element code").
  - split; [vm_compute; split; congruence | reflexivity].
  - reflexivity.
  - reflexivity.
  - reflexivity.
  - apply Nat.ltb_lt; reflexivity.
  - reflexivity.
  - reflexivity.
Defined.

Lemma holds_variable_frame (c c' : cdf) (vn vn' : string) (x : IMCDFVariable) :
  vn' <> vn ->
  zvar_named c' vn' = zvar_named c vn' ->
  (forall an, z_entry c' an vn' = z_entry c an vn') ->
  holds_variable c vn' x -> holds_variable c' vn' x.
Proof.
  intros Hne Hzv Hz. unfold holds_variable. rewrite !Hz, Hzv. tauto.
Qed.

Lemma read_time_stamps_frame (h : Z) (name : string) (s s' : globals) (c c' : cdf)
  (ts : IMCDFVariableTS) :
  open_at s h c -> open_at s' h c' ->
  zvar_named c' name = zvar_named c name ->
  fst (imcdf_read_time_stamps h name s) = inr ts ->
  fst (imcdf_read_time_stamps h name s') = inr ts.
Proof.
  intros Ho Ho' Hzv. unfold imcdf_read_time_stamps. intros Hr.
  apply or_return_inr in Hr. destruct Hr as ([l n] & Hget & Hrest).
  cbn [fst mret M_ret] in Hrest.
  destruct (get_var_inv CDF_TIME_TT2000 as_tt2000 V_tt2000 h name s c l n
              as_tt2000_inv Ho Hget) as (zv & Hz & Hty & Hrecs & ->).
  rewrite <- Hzv in Hz.
  rewrite (or_return_ok _ _ _ _ _ _ _
             (get_var_typed CDF_TIME_TT2000 as_tt2000 V_tt2000 h name s' c' zv l
                (fun x => eq_refl) Ho' Hz Hty Hrecs)).
  exact Hrest.
Qed.

(** X18: a write of a variable changes nothing of what is read under
    another name: every variable and every time stamp array that could be
    read before the write is read with the same contents after it.  The
    variable is one that can be written: its code and its dependency fit
    their buffers, the strings written are not empty, [data_len] is the
    length of the data, and an attribute with one of the eight names is of
    variable scope. *)
Theorem write_variable_keeps_others (h : Z) (v : IMCDFVariable) (ug : bool)
  (s : globals) (c : cdf) (vn d : string) :
  open_at s h c ->
  create_var_name (var_type v) (elem_rec v) = Some vn ->
  Forall (variable_scope c) variable_attr_names ->
  resolve_depend_0 v ug = inr d ->
  writable v d ->
  exists s',
    imcdf_write_variable h v ug s = (None, s')
    /\ (forall t e vn' x,
          fits ELEM_REC_SIZE e ->
          create_var_name t e = Some vn' -> vn' <> vn ->
          fst (imcdf_read_variable h t e s) = inr x ->
          fst (imcdf_read_variable h t e s') = inr x)
    /\ (forall name ts,
          name <> vn ->
          fst (imcdf_read_time_stamps h name s) = inr ts ->
          fst (imcdf_read_time_stamps h name s') = inr ts).
Proof.
  intros Ho Hvn _ Hd _.
  destruct (write_variable_state h v ug s c vn d Ho Hvn Hd)
    as (s' & c' & Hw & Ho' & _ & _ & _ & _ & _ & _ & _ & _ & _ & _ & Hother & Hframe).
  exists s'. split; [exact Hw |]. split.
  - intros t e vn' x _ Hvn' Hne Hx.
    apply (read_variable_iff h t e vn' s c x Ho Hvn') in Hx.
    destruct Hx as (Ht & He & Hh).
    apply (read_variable_iff h t e vn' s' c' x Ho' Hvn').
    split; [exact Ht |]. split; [exact He |].
    apply (holds_variable_frame c c' vn vn' x Hne (Hother vn' Hne)); [| exact Hh].
    intros an. now apply Hframe.
  - intros name ts Hne.
    now apply (read_time_stamps_frame h name s s' c c' ts Ho Ho' (Hother name Hne)).
Qed.

Lemma write_variable_keeps_others_witness :
  let vH := sample_variable IMCDF_VARTYPE_GEOMAGNETIC_FIELD_ELEMENT "H" EmptyString in
  let vZ := sample_variable IMCDF_VARTYPE_GEOMAGNETIC_FIELD_ELEMENT "Z" EmptyString in
  let s := snd (imcdf_write_variable 0 vH false (one_open empty_cdf 0)) in
  exists s',
    imcdf_write_variable 0 vZ false s = (None, s')
    /\ fst (imcdf_read_variable 0 IMCDF_VARTYPE_GEOMAGNETIC_FIELD_ELEMENT "H" s')
       = inr (with_depend_0 vH "GeomagneticVectorTimes").
Proof.
  intros vH vZ s.
  destruct (write_variable_keeps_others 0 vZ false s (default empty_cdf (id_at s 0))
              "GeomagneticFieldZ" "GeomagneticVectorTimes") as (s' & Hw & Hv & _).
  - split; [vm_compute; split; congruence | vm_compute; reflexivity].
  - reflexivity.
  - repeat (constructor; [vm_compute; reflexivity |]). constructor.
  - reflexivity.
  - split; [apply Nat.ltb_lt; reflexivity |].
    split; [apply Nat.ltb_lt; reflexivity |].
    split; [repeat split; discriminate | reflexivity].
  - exists s'. split; [exact Hw |].
    apply (Hv IMCDF_VARTYPE_GEOMAGNETIC_FIELD_ELEMENT "H" "GeomagneticFieldH");
      [apply Nat.ltb_lt; reflexivity | reflexivity | discriminate
      | vm_compute; reflexivity].
Defined.

(** ** Variable attributes *)

Lemma get_variable_attribute_fst {A : Type} (ty : Z) (dec : value -> option A) (h : Z)
  (an vn : string) (s : globals) (c : cdf) :
  open_at s h c ->
  fst (get_variable_attribute ty dec h an vn s)
  = z_entry c an vn ≫= (fun v => if data_type_of v =? ty then dec v else None).
Proof.
  intros Ho. rewrite (get_variable_attribute_run ty dec h an vn s c Ho). unfold z_entry.
  destruct (index_of (named vn) (zvariables c) 0) as [i |];
    [| destruct (attr_named c an); reflexivity].
  destruct (attr_named c an) as [a |]; [| reflexivity]. cbn [mbind option_bind].
  destruct (z_entries a !! i); reflexivity.
Qed.

Lemma add_variable_attr_read (h : Z) (an vn : string) (v : value) (s : globals)
  (c : cdf) :
  open_at s h c ->
  is_Some (zvar_named c vn) ->
  exists s',
    add_variable_attr h an vn v s = (0, s')
    /\ (forall (A : Type) ty (dec : value -> option A) an' vn',
          fst (get_variable_attribute ty dec h an' vn' s')
          = if decide (an' = an /\ vn' = vn)
            then (if data_type_of v =? ty then dec v else None)
            else fst (get_variable_attribute ty dec h an' vn' s)).
Proof.
  intros Ho [zv Hzv]. destruct (zvar_named_found _ _ _ Hzv) as (i & Hi & _).
  destruct (add_variable_attr_entries h an vn v s c i Ho Hi)
    as (s' & c' & Hrun & Ho' & _ & _ & Hk).
  exists s'. split; [exact Hrun |]. intros A ty dec an' vn'.
  rewrite (get_variable_attribute_fst ty dec h an' vn' s' c' Ho'), Hk.
  case_decide; [reflexivity |].
  now rewrite (get_variable_attribute_fst ty dec h an' vn' s c Ho).
Qed.

(** X19: an attribute added to a variable of an open CDF is read back by
    the routine of its type, whether or not the variable had an entry for
    it: unlike the entry of a global attribute, the entry is replaced.
    The entries of the other attributes and of the other variables are
    read as before.  The attribute, when the CDF has it, is of variable
    scope, and a string written is not empty. *)
Theorem variable_attr_round_trip (h : Z) (an vn : string) (s : globals) (c : cdf) :
  open_at s h c ->
  is_Some (zvar_named c vn) ->
  variable_scope c an ->
  let unchanged (s' : globals) :=
    forall an' vn', ~ (an' = an /\ vn' = vn) ->
      fst (imcdf_get_variable_attribute_string h an' vn' s')
      = fst (imcdf_get_variable_attribute_string h an' vn' s)
      /\ fst (imcdf_get_variable_attribute_double h an' vn' s')
         = fst (imcdf_get_variable_attribute_double h an' vn' s)
      /\ fst (imcdf_get_variable_attribute_tt2000 h an' vn' s')
         = fst (imcdf_get_variable_attribute_tt2000 h an' vn' s) in
  (forall x : string,
      x <> EmptyString ->
      exists s',
        imcdf_add_variable_attr_string h an vn x s = (0, s')
        /\ fst (imcdf_get_variable_attribute_string h an vn s') = Some x
        /\ unchanged s')
  /\ (forall x : Double.double,
        exists s',
          imcdf_add_variable_attr_double h an vn x s = (0, s')
          /\ fst (imcdf_get_variable_attribute_double h an vn s') = Some x
          /\ unchanged s')
  /\ (forall x : Z,
        exists s',
          imcdf_add_variable_attr_tt2000 h an vn x s = (0, s')
          /\ fst (imcdf_get_variable_attribute_tt2000 h an vn s') = Some x
          /\ unchanged s').
Proof.
  intros Ho Hzv _ unchanged.
  assert (Hgen : forall v,
            exists s',
              add_variable_attr h an vn v s = (0, s')
              /\ (forall (A : Type) ty (dec : value -> option A),
                    fst (get_variable_attribute ty dec h an vn s')
                    = if data_type_of v =? ty then dec v else None)
              /\ unchanged s').
  { intros v. destruct (add_variable_attr_read h an vn v s c Ho Hzv) as (s' & Hrun & Hr).
    exists s'. split; [exact Hrun |]. split.
    - intros A ty dec. rewrite Hr. now rewrite decide_True.
    - intros an' vn' Hne.
      unfold imcdf_get_variable_attribute_string, imcdf_get_variable_attribute_double,
        imcdf_get_variable_attribute_tt2000.
      rewrite !Hr, !decide_False by exact Hne. auto. }
  unfold imcdf_add_variable_attr_string, imcdf_add_variable_attr_double,
    imcdf_add_variable_attr_tt2000.
  split; [| split].
  - intros x _. destruct (Hgen (V_char x)) as (s' & Hrun & Hget & Hun).
    exists s'. split; [exact Hrun |]. split; [apply Hget | exact Hun].
  - intros x. destruct (Hgen (V_double x)) as (s' & Hrun & Hget & Hun).
    exists s'. split; [exact Hrun |]. split; [apply Hget | exact Hun].
  - intros x. destruct (Hgen (V_tt2000 x)) as (s' & Hrun & Hget & Hun).
    exists s'. split; [exact Hrun |]. split; [apply Hget | exact Hun].
Qed.

Lemma variable_attr_round_trip_witness :
  let v := sample_variable IMCDF_VARTYPE_GEOMAGNETIC_FIELD_ELEMENT "H" EmptyString in
  let s := snd (imcdf_write_variable 0 v false (one_open empty_cdf 0)) in
  exists s',
    imcdf_add_variable_attr_string 0 "UNITS" "GeomagneticFieldH" "pT" s = (0, s')
    /\ fst (imcdf_get_variable_attribute_string 0 "UNITS" "GeomagneticFieldH" s')
       = Some "pT".
Proof.
  intros v s.
  destruct (variable_attr_round_trip 0 "UNITS" "GeomagneticFieldH" s
              (default empty_cdf (id_at s 0))) as (Hs & _).
  - split; [vm_compute; split; congruence | vm_compute; reflexivity].
  - vm_compute. eexists; reflexivity.
  - vm_compute; reflexivity.
  - destruct (Hs "pT") as (s' & Hadd & Hget & _); [discriminate |].
    exists s'. split; assumption.
Defined.

(** X20: an attribute is created before the variable is looked up.  A
    call of [imcdf_add_variable_attr_string], [..._double] or
    [..._tt2000] for a variable that the CDF does not hold returns -1 with
    the last status [NO_SUCH_VAR], and a CDF that did not have the
    attribute has it afterwards, of variable scope and without entries. *)
Theorem failed_variable_attr_is_created (h : Z) (an vn : string) (s : globals) (c : cdf) :
  open_at s h c ->
  zvar_named c vn = None ->
  attr_named c an = None ->
  let c' := {| attributes := attributes c ++
                 [ {| attr_name := an; attr_scope := VARIABLE_SCOPE;
                      g_entries := ∅; z_entries := ∅ |} ];
               zvariables := zvariables c |} in
  let s' := with_cdf s h c' NO_SUCH_VAR in
  open_at s' h c'
  /\ is_Some (attr_named c' an)
  /\ (forall x, imcdf_add_variable_attr_string h an vn x s = (-1, s'))
  /\ (forall x, imcdf_add_variable_attr_double h an vn x s = (-1, s'))
  /\ (forall x, imcdf_add_variable_attr_tt2000 h an vn x s = (-1, s')).
Proof.
  intros Ho Hvn Han c' s'.
  assert (Hrun : forall v, add_variable_attr h an vn v s = (-1, s')).
  { intros v. unfold add_variable_attr.
    rewrite bind_run, (sanity_check_open s h c Ho). cbn [fst snd Z.eqb negb].
    unfold find_variable_attribute.
    rewrite !bind_run, (ask_run _ _ _ _ Ho). cbn [fst snd].
    apply attr_named_None in Han. rewrite CDFgetAttrNum_index, Han.
    change (NO_SUCH_ATTR <? 0) with true. cbv iota.
    assert (Hcreate : CDFcreateAttr an VARIABLE_SCOPE (Some c)
                      = (CDF_OK, Z.of_nat (length (attributes c)), Some c')).
    { unfold CDFcreateAttr. rewrite CDFgetAttrNum_index, Han. reflexivity. }
    rewrite bind_run, (call_run _ _ _ _ _ _ Ho Hcreate). step.
    change (CDF_OK <? CDF_WARN) with false. cbv iota. cbn [fst snd mret M_ret].
    destruct (Z.ltb_spec (Z.of_nat (length (attributes c))) 0); [lia |].
    pose proof (open_at_with_status _ _ _ CDF_OK
                  (open_at_with_cdf s h c c' (cdf_status s) Ho)) as Ho1.
    rewrite bind_run, (ask_run _ _ _ _ Ho1). cbn [fst snd].
    apply index_of_None_named in Hvn. rewrite CDFgetVarNum_index. cbn [c' zvariables].
    rewrite Hvn. change (NO_SUCH_VAR <? 0) with true. cbv iota. step. reflexivity. }
  split; [apply (open_at_with_cdf s h c c' NO_SUCH_VAR Ho) |].
  split.
  - unfold c'.
    rewrite (attr_named_added c {| attr_name := an; attr_scope := VARIABLE_SCOPE;
                                   g_entries := ∅; z_entries := ∅ |} an Han).
    cbn [attr_name]. rewrite decide_True by reflexivity. eauto.
  - unfold imcdf_add_variable_attr_string, imcdf_add_variable_attr_double,
      imcdf_add_variable_attr_tt2000. auto.
Qed.

Lemma failed_variable_attr_is_created_witness :
  fst (imcdf_add_variable_attr_string 0 "UNITS" "GeomagneticFieldH" "nT"
         (one_open empty_cdf CDF_OK)) = -1.
Proof.
  destruct (failed_variable_attr_is_created 0 "UNITS" "GeomagneticFieldH"
              (one_open empty_cdf CDF_OK) empty_cdf) as (_ & _ & Hs & _).
  - split; [vm_compute; split; congruence | reflexivity].
  - reflexivity.
  - reflexivity.
  - now rewrite Hs.
Defined.

(** ** Handles that are not open *)

Lemma sanity_check_refuses (s : globals) (h : Z) :
  ~ valid_handle (initialised s) h -> sanity_check_handles h s = (-1, initialised s).
Proof. intros Hv. now rewrite sanity_check_run, decide_False. Qed.

Ltac refuse Hv :=
  intros;
  unfold imcdf_close,
    imcdf_add_global_attr_string, imcdf_add_global_attr_double,
    imcdf_add_global_attr_tt2000, add_global_attr,
    imcdf_add_variable_attr_string, imcdf_add_variable_attr_double,
    imcdf_add_variable_attr_tt2000, add_variable_attr,
    imcdf_create_data_array, imcdf_create_time_stamp_array, create_array,
    imcdf_append_data_array, imcdf_append_time_stamp_array, append_array,
    imcdf_get_global_attribute_string, imcdf_get_global_attribute_double,
    imcdf_get_global_attribute_tt2000, get_global_attribute,
    imcdf_get_variable_attribute_string, imcdf_get_variable_attribute_double,
    imcdf_get_variable_attribute_tt2000, get_variable_attribute,
    imcdf_get_var_data, imcdf_get_var_time_stamps, get_var;
  rewrite bind_run, (sanity_check_refuses _ _ Hv); reflexivity.

(** X21: a routine of imcdf_low_level.c that is given a handle that is
    negative or not below the number of open CDFs returns its failure
    value, -1 or the null pointer, and makes no call of the CDF library:
    the table of the CDFs and the last status are those that
    [initialise_cdf_ids] leaves, which are the ones before the call once
    the table has been initialised. *)
Theorem invalid_handle_refused (h : Z) (s : globals) :
  ~ valid_handle (initialised s) h ->
  let refused (A : Type) (failure : A) (routine : M A) :=
    routine s = (failure, initialised s) in
  refused Z (-1) (imcdf_close h)
  /\ (forall n e x, refused Z (-1) (imcdf_add_global_attr_string h n e x))
  /\ (forall n e x, refused Z (-1) (imcdf_add_global_attr_double h n e x))
  /\ (forall n e x, refused Z (-1) (imcdf_add_global_attr_tt2000 h n e x))
  /\ (forall an vn x, refused Z (-1) (imcdf_add_variable_attr_string h an vn x))
  /\ (forall an vn x, refused Z (-1) (imcdf_add_variable_attr_double h an vn x))
  /\ (forall an vn x, refused Z (-1) (imcdf_add_variable_attr_tt2000 h an vn x))
  /\ (forall n l len, refused Z (-1) (imcdf_create_data_array h n l len))
  /\ (forall n l len, refused Z (-1) (imcdf_create_time_stamp_array h n l len))
  /\ (forall n l len, refused Z (-1) (imcdf_append_data_array h n l len))
  /\ (forall n l len, refused Z (-1) (imcdf_append_time_stamp_array h n l len))
  /\ (forall n e, refused _ None (imcdf_get_global_attribute_string h n e))
  /\ (forall n e, refused _ None (imcdf_get_global_attribute_double h n e))
  /\ (forall n e, refused _ None (imcdf_get_global_attribute_tt2000 h n e))
  /\ (forall an vn, refused _ None (imcdf_get_variable_attribute_string h an vn))
  /\ (forall an vn, refused _ None (imcdf_get_variable_attribute_double h an vn))
  /\ (forall an vn, refused _ None (imcdf_get_variable_attribute_tt2000 h an vn))
  /\ (forall n, refused _ None (imcdf_get_var_data h n))
  /\ (forall n, refused _ None (imcdf_get_var_time_stamps h n))
  /\ (0 <= cdf_index s -> initialised s = s).
Proof.
  intros Hv refused. unfold refused.
  repeat (split; [refuse Hv |]).
  apply initialised_started.
Qed.

Lemma invalid_handle_refused_witness :
  imcdf_get_var_data 3 "GeomagneticFieldH" (one_open empty_cdf NO_SUCH_ATTR)
  = (None, one_open empty_cdf NO_SUCH_ATTR).
Proof.
  pose proof (invalid_handle_refused 3 (one_open empty_cdf NO_SUCH_ATTR)
                ltac:(vm_compute; intros [_ H]; discriminate H)) as Hr.
  cbv zeta in Hr.
  exact (proj1 (proj2 (proj2 (proj2 (proj2 (proj2 (proj2 (proj2 (proj2 (proj2 (proj2
           (proj2 (proj2 (proj2 (proj2 (proj2 (proj2 (proj2 Hr)))))))))))))))))
           "GeomagneticFieldH").
Defined.

(** X22: the routines of imcdf.c turn the refusal of a handle into their
    messages.  Where the message is made with the last status it ends with
    the text of the status that an earlier call has left; the write
    routines pass [CDF_OK] and give no such text.  No CDF is touched.  An
    element code fits [elem_rec], and a message with the name of the time
    stamps fits the buffer of the messages. *)
Theorem invalid_handle_messages (h : Z) (s : globals) :
  ~ valid_handle (initialised s) h ->
  let s0 := initialised s in
  imcdf_close2 h s
  = (Some ("Error closing CDF file" +:+ cdf_error_text (cdf_status s0)), s0)
  /\ (forall t e vn,
        fits ELEM_REC_SIZE e ->
        create_var_name t e = Some vn ->
        imcdf_read_variable h t e s
        = (inl ("Error reading variable attribute: FIELDNAM"
                +:+ cdf_error_text (cdf_status s0)), s0))
  /\ (forall name,
        let m := "Error reading time stamps: " +:+ name
                 +:+ cdf_error_text (cdf_status s0) in
        fits MESSAGE_SIZE m ->
        imcdf_read_time_stamps h name s = (inl m, s0))
  /\ (forall v ug vn,
        fits ELEM_REC_SIZE (elem_rec v) ->
        create_var_name (var_type v) (elem_rec v) = Some vn ->
        imcdf_write_variable h v ug s
        = (Some ("Error writing variable data: " +:+ vn), s0))
  /\ (forall ts,
        let m := "Error writing time stamp data: " +:+ var_name ts in
        fits MESSAGE_SIZE m ->
        imcdf_write_time_stamps h ts s = (Some m, s0)).
Proof.
  intros Hv s0.
  split; [| split; [| split; [| split]]].
  - unfold imcdf_close2, imcdf_close.
    rewrite !bind_run, (sanity_check_refuses _ _ Hv). cbn [fst snd Z.eqb negb mret M_ret].
    step. rewrite (format_error_message_last _ None (initialised s)). reflexivity.
  - intros t e vn _ Hvn. unfold imcdf_read_variable. rewrite Hvn. cbv zeta.
    rewrite (or_return_none _ _ _ _ s s0); [reflexivity |].
    unfold imcdf_get_variable_attribute_string, get_variable_attribute.
    now rewrite bind_run, (sanity_check_refuses _ _ Hv).
  - intros name m _. unfold imcdf_read_time_stamps.
    rewrite (or_return_none _ _ _ _ s s0); [reflexivity |].
    unfold imcdf_get_var_time_stamps, get_var.
    now rewrite bind_run, (sanity_check_refuses _ _ Hv).
  - intros v ug vn _ Hvn. unfold imcdf_write_variable. rewrite Hvn.
    unfold imcdf_create_data_array, create_array.
    rewrite !bind_run, (sanity_check_refuses _ _ Hv). reflexivity.
  - intros ts m _.
    unfold imcdf_write_time_stamps, imcdf_create_time_stamp_array, create_array.
    rewrite !bind_run, (sanity_check_refuses _ _ Hv). reflexivity.
Qed.

Lemma invalid_handle_messages_witness :
  imcdf_read_time_stamps 0 "DataTimes" at_start
  = (inl "Error reading time stamps: DataTimes", initialised at_start).
Proof.
  pose proof (invalid_handle_messages 0 at_start
                ltac:(vm_compute; intros [_ H]; discriminate H))
    as (_ & _ & Hr & _).
  apply (Hr "DataTimes"). apply Nat.ltb_lt; reflexivity.
Defined.

(** ** A variable and its time stamps *)

(** X23: time stamps written under the name that [imcdf_write_variable]
    stores in DEPEND_0 are found through the variable: after the two
    writes to a CDF that has neither name, the variable is read back, and
    [imcdf_read_time_stamps] for the [depend_0] of the variable read
    returns the time stamps written.  The two names differ, the variable
    is one that can be written (its code and its dependency fit their
    buffers, the strings written are not empty, [data_len] is the length of
    the data), the arrays are not empty, and an attribute with one of the
    eight names is of variable scope. *)
Theorem variable_finds_its_time_stamps (h : Z) (v : IMCDFVariable) (ug : bool)
  (stamps : list Z) (s : globals) (c : cdf) (vn d : string) :
  open_at s h c ->
  create_var_name (var_type v) (elem_rec v) = Some vn ->
  resolve_depend_0 v ug = inr d ->
  d <> vn ->
  zvar_named c vn = None ->
  zvar_named c d = None ->
  Forall (variable_scope c) variable_attr_names ->
  writable v d ->
  0 < data_len v ->
  stamps <> [] ->
  let ts := {| var_name := d; time_stamps := stamps;
               ts_data_len := Z.of_nat (length stamps) |} in
  exists s1 s2 x,
    imcdf_write_time_stamps h ts s = (None, s1)
    /\ imcdf_write_variable h v ug s1 = (None, s2)
    /\ fst (imcdf_read_variable h (var_type v) (elem_rec v) s2) = inr x
    /\ x = with_depend_0 v d
    /\ fst (imcdf_read_time_stamps h (depend_0 x) s2) = inr ts.
Proof.
  intros Ho Hvn Hd Hne Hnv Hnd _ (_ & _ & _ & Hlen) _ _ ts.
  destruct (write_time_stamps_run h s c d stamps Ho)
    as (s1 & c1 & Hw1 & Ho1 & _ & _ & Hnew & _ & Hother1).
  assert (Hnv1 : zvar_named c1 vn = None) by (rewrite Hother1; auto).
  destruct (write_then_read h v ug s1 c1 vn d Ho1 Hvn Hnv1 Hd Hlen)
    as (s2 & c2 & Hw2 & Ho2 & Hr & Hother2).
  exists s1, s2, (with_depend_0 v d).
  split; [exact Hw1 |]. split; [exact Hw2 |]. split; [exact Hr |].
  split; [reflexivity |]. cbn [depend_0 with_depend_0].
  apply (read_time_stamps_frame h d s1 s2 c1 c2 ts Ho1 Ho2 (Hother2 d Hne)).
  apply (read_time_stamps_run h s1 c1 d stamps Ho1 (Hnew Hnd)).
Qed.

Lemma variable_finds_its_time_stamps_witness :
  let v := sample_variable IMCDF_VARTYPE_GEOMAGNETIC_FIELD_ELEMENT "H" EmptyString in
  let ts := {| var_name := "GeomagneticVectorTimes"; time_stamps := [0; 60000000000];
               ts_data_len := 2 |} in
  exists s1 s2 x,
    imcdf_write_time_stamps 0 ts (one_open empty_cdf 0) = (None, s1)
    /\ imcdf_write_variable 0 v false s1 = (None, s2)
    /\ fst (imcdf_read_variable 0 IMCDF_VARTYPE_GEOMAGNETIC_FIELD_ELEMENT "H" s2) = inr x
    /\ x = with_depend_0 v "GeomagneticVectorTimes"
    /\ fst (imcdf_read_time_stamps 0 (depend_0 x) s2) = inr ts.
Proof.
  intros v ts.
  apply (variable_finds_its_time_stamps 0 v false [0; 60000000000] (one_open empty_cdf 0)
           empty_cdf "GeomagneticFieldH" "GeomagneticVectorTimes").
  - split; [vm_compute; split; congruence | reflexivity].
  - reflexivity.
  - reflexivity.
  - discriminate.
  - reflexivity.
  - reflexivity.
  - repeat (constructor; [exact I |]). constructor.
  - split; [apply Nat.ltb_lt; reflexivity |].
    split; [apply Nat.ltb_lt; reflexivity |].
    split; [repeat split; discriminate | reflexivity].
  - reflexivity.
  - discriminate.
Defined.
